(** * cropfresh-service-order: order and match lifecycle engine

    A shallow embedding of the order tracking state machine
    (src/types/order-status.types.ts, src/services/order-status.service.ts,
    src/repositories/order-status.repository.ts), of the match lifecycle
    (src/types/match.types.ts, src/services/match.service.ts,
    src/repositories/match.repository.ts) and of the transaction views
    (src/services/transaction.service.ts), followed by the properties the
    specification states about them.

    Conventions.
    - A JavaScript [Date] is its time value: milliseconds since the epoch,
      an integer ([Z]).  Every clock read of one service call ([new Date()],
      [Date.now()]) is taken at the instant [now] handed to the call.
    - A Prisma table is a finite map from its unique key to the other
      columns of the row.
    - An [async] method that reads or writes the database is a function
      from the table to a result and the table afterwards; a thrown
      exception keeps the writes made before it (the code opens no
      database transaction). *)

From Stdlib Require Import ZArith Lia Ascii.
From stdpp Require Import gmap strings list fin_maps sorting pretty.

Local Open Scope Z_scope.

(** ** Results and the database effect *)

Inductive Result (E A : Type) : Type :=
| Ok (a : A)
| Err (e : E).
Arguments Ok {E A} a.
Arguments Err {E A} e.

Definition is_ok {E A} (r : Result E A) : bool :=
  match r with Ok _ => true | Err _ => false end.

(** A database action over a table of type [S]. *)
Definition Db (S E A : Type) : Type := S → Result E A * S.

Definition ret {S E A} (a : A) : Db S E A := λ s, (Ok a, s).
Definition throw {S E A} (e : E) : Db S E A := λ s, (Err e, s).
Definition bind {S E A B} (m : Db S E A) (k : A → Db S E B) : Db S E B :=
  λ s, match m s with
       | (Ok a, s') => k a s'
       | (Err e, s') => (Err e, s')
       end.
Definition lift {S E A} (r : Result E A) : Db S E A := λ s, (r, s).

Notation "'let!' x ':=' m 'in' k" := (bind m (λ x, k))
  (at level 10, x name, m at level 100, k at level 200,
   format "'[v' 'let!'  x  ':='  m  'in' '/' k ']'").
Notation "m1 ;;; m2" := (bind m1 (λ _, m2))
  (at level 100, m2 at level 200, right associativity).

(** JavaScript truthiness of an optional string: [undefined], [null] and the
    empty string are falsy. *)
Definition truthy (o : option string) : bool :=
  match o with
  | Some s => negb (String.eqb s "")
  | None => false
  end.

Definition msPerDay : Z := 1000 * 60 * 60 * 24.

(** [d.setDate(d.getDate() - n)]: the same time of day, [n] calendar days
    earlier.  The service clock has no daylight-saving shifts (UTC or IST),
    so a calendar day is [msPerDay] milliseconds. *)
Definition setDate_minus (d n : Z) : Z := d - n * msPerDay.

(** ** Order status domain types (order-status.types.ts) *)

Module Types.

Inductive OrderTrackingStatus : Type :=
| LISTED
| MATCHED
| PICKUP_SCHEDULED
| AT_DROP_POINT
| IN_TRANSIT
| DELIVERED
| PAID.

#[global] Instance OrderTrackingStatus_eq_dec : EqDecision OrderTrackingStatus.
Proof. solve_decision. Defined.

(** [Object.values(OrderTrackingStatus)]: the seven stages in declaration
    order. *)
Definition all_statuses : list OrderTrackingStatus :=
  [LISTED; MATCHED; PICKUP_SCHEDULED; AT_DROP_POINT; IN_TRANSIT; DELIVERED; PAID].

Definition STATUS_STEP_MAP (s : OrderTrackingStatus) : Z :=
  match s with
  | LISTED => 1
  | MATCHED => 2
  | PICKUP_SCHEDULED => 3
  | AT_DROP_POINT => 4
  | IN_TRANSIT => 5
  | DELIVERED => 6
  | PAID => 7
  end.

Definition VALID_TRANSITIONS (s : OrderTrackingStatus) : list OrderTrackingStatus :=
  match s with
  | LISTED => [MATCHED]
  | MATCHED => [PICKUP_SCHEDULED]
  | PICKUP_SCHEDULED => [AT_DROP_POINT]
  | AT_DROP_POINT => [IN_TRANSIT]
  | IN_TRANSIT => [DELIVERED]
  | DELIVERED => [PAID]
  | PAID => []
  end.

(** [Array.prototype.includes] on a list of statuses. *)
Definition includes (l : list OrderTrackingStatus) (x : OrderTrackingStatus) : bool :=
  bool_decide (x ∈ l).

Definition isValidTransition (currentStatus newStatus : OrderTrackingStatus) : bool :=
  let allowed := VALID_TRANSITIONS currentStatus in
  includes allowed newStatus.

Definition getStatusStep (status : OrderTrackingStatus) : Z :=
  STATUS_STEP_MAP status.

Definition isActiveOrder (status : OrderTrackingStatus) : bool :=
  negb (bool_decide (status = PAID)).

(** One entry of the [status_history] JSON column.  [timestamp] holds the
    instant whose ISO-8601 rendering the code stores. *)
Record TimelineEvent : Type := {
  step : Z;
  status : OrderTrackingStatus;
  label : string;
  completed : bool;
  active : bool;
  timestamp : option Z;
  actor : option string;
  note : option string
}.

Record HaulerInfo : Type := {
  hauler_id : string;
  hauler_name : string;
  hauler_phone : string;
  vehicleType : option string;
  vehicleNumber : option string
}.

Record UpdateOrderStatusDTO : Type := {
  orderId : string;
  newStatus : OrderTrackingStatus;
  dto_actor : string;
  dto_note : option string;
  haulerInfo : option HaulerInfo;
  dto_eta : option Z;
  dto_delayMinutes : option Z;
  dto_delayReason : option string;
  dto_upiTransactionId : option string
}.

(** [TransactionFilter]: the keys of the query a farmer sends. *)
Inductive TransactionStatusFilter : Type :=
| completed_filter
| pending_filter
| all_filter.

Inductive SortKey : Type := by_date | by_amount | by_crop.
Inductive SortOrder : Type := asc | desc.

Record TransactionFilter : Type := {
  tf_farmerId : Z;
  tf_status : option TransactionStatusFilter;
  fromDate : option Z;
  toDate : option Z;
  cropType : option string;
  sortBy : option SortKey;
  sortOrder : option SortOrder;
  page : option Z;
  limit : option Z
}.

(** The label table of the types file (the repository has its own). *)
Definition formatStatusLabel (status : OrderTrackingStatus) : string :=
  match status with
  | LISTED => "Listed"
  | MATCHED => "Matched"
  | PICKUP_SCHEDULED => "Pickup Scheduled"
  | AT_DROP_POINT => "At Drop Point"
  | IN_TRANSIT => "In Transit"
  | DELIVERED => "Delivered"
  | PAID => "Payment Received"
  end.

(** [generateTimeline]: one event per stage.  [new Date()] is evaluated for
    each event that carries a timestamp: [now status] is the instant read
    for the event of [status]. *)
Definition generateTimeline (now : OrderTrackingStatus → Z)
    (currentStatus : OrderTrackingStatus) : list TimelineEvent :=
  let currentStep := getStatusStep currentStatus in
  let statuses := all_statuses in
  (λ status',
     let step' := getStatusStep status' in
     {| step := step';
        status := status';
        label := formatStatusLabel status';
        completed := bool_decide (step' < currentStep);
        active := bool_decide (status' = currentStatus);
        timestamp := if bool_decide (step' ≤ currentStep) then Some (now status')
                     else None;
        actor := None;
        note := None |}) <$> statuses.

Inductive OrderListFilter : Type :=
| active_orders
| completed_orders
| all_orders.

Record GetOrdersFilter : Type := {
  gof_farmerId : Z;
  gof_status : option OrderListFilter;
  gof_page : option Z;
  gof_limit : option Z
}.

Record UpdateDelayDTO : Type := {
  ud_orderId : string;
  ud_delayMinutes : Z;
  ud_reason : string;
  ud_newEta : option Z;
  ud_actor : string
}.

End Types.

(** ** Order status repository (order-status.repository.ts) *)

Module OrderStatusRepository.
Import Types.

(** A value of the [statusHistory] JSON column as JavaScript sees it:
    [null], an array of timeline events, a string, or anything else (a
    number, a boolean, an object). *)
Inductive JsonValue : Type :=
| JNull
| JArray (events : list TimelineEvent)
| JString (s : string)
| JOther.

(** The columns of an [Order] row that the tracking and transaction code
    reads or writes; the row is keyed by [orderNumber].  The denormalised
    listing, buyer and drop-point columns and the decimal amounts are
    only copied into views and are left out. *)
Record OrderRow : Type := {
  farmerId : Z;
  trackingStatus : OrderTrackingStatus;
  statusHistory : JsonValue;
  eta : option Z;
  delayMinutes : option Z;
  delayReason : option string;
  haulerId : option string;
  haulerName : option string;
  haulerPhone : option string;
  haulerVehicle : option string;
  upiTransactionId : option string;
  paidAt : option Z;
  createdAt : Z;
  updatedAt : Z;
  deletedAt : option Z
}.

Abbreviation Orders := (gmap string OrderRow).

(** Errors of the order paths: the service's [OrderStatusError] codes, the
    repository's plain [Error('Order not found')], and the [TypeError] of
    calling [forEach] on a history that is not an array. *)
Inductive OrderError : Type :=
| ORDER_NOT_FOUND
| INVALID_TRANSITION
| ALREADY_IN_STATUS
| UNAUTHORIZED
| RepositoryOrderNotFound
| TypeError.

(** [OrderWithTracking], without the listing, buyer and hauler summaries. *)
Record OrderWithTracking : Type := {
  id : string;
  owt_farmerId : Z;
  owt_trackingStatus : OrderTrackingStatus;
  currentStep : Z;
  totalSteps : Z;
  owt_eta : option Z;
  owt_delayMinutes : option Z;
  owt_delayReason : option string;
  owt_statusHistory : JsonValue;
  owt_upiTransactionId : option string;
  owt_createdAt : Z;
  owt_updatedAt : Z
}.

Definition getStepNumber (status : OrderTrackingStatus) : Z :=
  match status with
  | LISTED => 1
  | MATCHED => 2
  | PICKUP_SCHEDULED => 3
  | AT_DROP_POINT => 4
  | IN_TRANSIT => 5
  | DELIVERED => 6
  | PAID => 7
  end.

Definition formatStatusLabel (status : OrderTrackingStatus) : string :=
  match status with
  | LISTED => "Listed"
  | MATCHED => "Matched"
  | PICKUP_SCHEDULED => "Pickup Scheduled"
  | AT_DROP_POINT => "At Drop Point"
  | IN_TRANSIT => "In Transit"
  | DELIVERED => "Delivered"
  | PAID => "Payment Received"
  end.

Section WithJson.
(** [JSON.parse]: [None] when it throws a [SyntaxError]. *)
Variable JSON_parse : string → option JsonValue.

(** The declared result type is [TimelineEvent[]]; at run time the
    string branch returns whatever [JSON.parse] produced. *)
Definition parseStatusHistory (history : JsonValue) : JsonValue :=
  match history with
  | JNull => JArray []
  | JArray events => JArray events
  | JString s =>
      if String.eqb s "" then JArray []
      else match JSON_parse s with
           | Some v => v
           | None => JArray []
           end
  | JOther => JArray []
  end.

Definition toOrderWithTracking (orderNumber : string) (order : OrderRow)
  : OrderWithTracking :=
  {| id := orderNumber;
     owt_farmerId := farmerId order;
     owt_trackingStatus := trackingStatus order;
     currentStep := getStepNumber (trackingStatus order);
     totalSteps := 7;
     owt_eta := eta order;
     owt_delayMinutes := delayMinutes order;
     owt_delayReason := delayReason order;
     owt_statusHistory := parseStatusHistory (statusHistory order);
     owt_upiTransactionId := upiTransactionId order;
     owt_createdAt := createdAt order;
     owt_updatedAt := updatedAt order |}.

Definition findByOrderNumber (orderNumber : string)
  : Db Orders OrderError (option OrderWithTracking) :=
  λ s, (Ok (toOrderWithTracking orderNumber <$> s !! orderNumber), s).

Definition newEvent (now : Z) (dto : UpdateOrderStatusDTO) : TimelineEvent :=
  {| step := getStepNumber (newStatus dto);
     status := newStatus dto;
     label := formatStatusLabel (newStatus dto);
     completed := true;
     active := true;
     timestamp := Some now;
     actor := Some (dto_actor dto);
     note := dto_note dto |}.

(** [e.active = false] *)
Definition deactivate (e : TimelineEvent) : TimelineEvent :=
  {| step := step e; status := status e; label := label e;
     completed := completed e; active := false;
     timestamp := timestamp e; actor := actor e; note := note e |}.

(** How many events of a history are marked active. *)
Definition activeCount (history : list TimelineEvent) : nat :=
  length (filter (λ e, active e = true) history).

(** The [data] of [prisma.order.update]: a column is written when its
    key is set, and keeps its value otherwise. *)
Definition applyUpdate (dto : UpdateOrderStatusDTO) (history : list TimelineEvent)
    (order : OrderRow) : OrderRow :=
  {| farmerId := farmerId order;
     trackingStatus := newStatus dto;
     statusHistory := JArray history;
     eta := match dto_eta dto with Some e => Some e | None => eta order end;
     delayMinutes :=
       match dto_delayMinutes dto with
       | Some d => Some d
       | None => delayMinutes order
       end;
     delayReason :=
       if truthy (dto_delayReason dto) then dto_delayReason dto
       else delayReason order;
     haulerId :=
       match haulerInfo dto with
       | Some h => Some (hauler_id h)
       | None => haulerId order
       end;
     haulerName :=
       match haulerInfo dto with
       | Some h => Some (hauler_name h)
       | None => haulerName order
       end;
     haulerPhone :=
       match haulerInfo dto with
       | Some h => Some (hauler_phone h)
       | None => haulerPhone order
       end;
     haulerVehicle :=
       match haulerInfo dto with
       | Some h =>
           if truthy (vehicleType h)
           then Some (default "" (vehicleType h) +:+ " "
                        +:+ default "" (vehicleNumber h))
           else haulerVehicle order
       | None => haulerVehicle order
       end;
     upiTransactionId :=
       if truthy (dto_upiTransactionId dto) then dto_upiTransactionId dto
       else upiTransactionId order;
     paidAt := paidAt order;
     createdAt := createdAt order;
     updatedAt := updatedAt order;
     deletedAt := deletedAt order |}.

Definition updateStatus (now : Z) (dto : UpdateOrderStatusDTO)
  : Db Orders OrderError OrderWithTracking :=
  λ s,
    match s !! orderId dto with
    | None => (Err RepositoryOrderNotFound, s)
    | Some current =>
        match parseStatusHistory (statusHistory current) with
        | JArray history =>
            let history' := (deactivate <$> history) ++ [newEvent now dto] in
            let s' := <[orderId dto := applyUpdate dto history' current]> s in
            match s' !! orderId dto with
            | Some order => (Ok (toOrderWithTracking (orderId dto) order), s')
            | None => (Err TypeError, s') (* the row was just written *)
            end
        | _ => (Err TypeError, s)
        end
    end.

(** *** Transaction queries (story 3.7) *)

(** A [createdAt] condition of a Prisma [where] clause. *)
Inductive DateTimeFilter : Type :=
| gte (d : Z)
| lte (d : Z).

Definition dateTimeFilterHolds (f : DateTimeFilter) (d : Z) : bool :=
  match f with
  | gte bound => bound <=? d
  | lte bound => d <=? bound
  end.

(** The [where] clause of [getTransactions]. *)
Record OrderWhereInput : Type := {
  where_farmerId : Z;
  where_deletedAt_null : bool;
  where_trackingStatus_in : list OrderTrackingStatus;
  where_createdAt : option DateTimeFilter;
  where_cropType_contains : option string
}.

(** The three spreads [...(cond && { createdAt: ... })] are applied in
    order: a later one replaces the [createdAt] key set by an earlier
    one. *)
Definition getTransactionsWhere (now : Z) (filter : TransactionFilter)
  : OrderWhereInput :=
  let status := default all_filter (tf_status filter) in
  let trackingStatusFilter :=
    match status with
    | completed_filter => Some [PAID]
    | pending_filter => Some [DELIVERED]
    | all_filter => None
    end in
  let defaultFromDate := setDate_minus now 90 in
  let c0 : option DateTimeFilter := None in
  let c1 := match fromDate filter with Some d => Some (gte d) | None => c0 end in
  let c2 := match toDate filter with Some d => Some (lte d) | None => c1 end in
  let c3 := if negb (bool_decide (is_Some (fromDate filter)))
               && negb (bool_decide (is_Some (toDate filter)))
            then Some (gte defaultFromDate) else c2 in
  {| where_farmerId := tf_farmerId filter;
     where_deletedAt_null := true;
     where_trackingStatus_in := default [PAID; DELIVERED] trackingStatusFilter;
     where_createdAt := c3;
     where_cropType_contains :=
       if truthy (cropType filter) then cropType filter else None |}.

(** [String.prototype.slice(start)] with one argument. *)
Definition slice (s : string) (start : Z) : string :=
  let len := Z.of_nat (String.length s) in
  let from := if start <? 0 then Z.max (len + start) 0 else Z.min start len in
  String.substring (Z.to_nat from) (Z.to_nat (len - from)) s.

Record PaymentBreakdown : Type := {
  upiTxnId : string;
  pb_paidAt : option Z
}.

(** [TransactionDetails], without the listing, buyer, drop-point and
    hauler summaries and the amounts of the payment breakdown. *)
Record TransactionDetails : Type := {
  td_id : string;
  timeline : JsonValue;
  payment : PaymentBreakdown;
  td_createdAt : Z;
  canDownloadReceipt : bool
}.

(** [Math.floor] of the quotient of two integer time values: the
    division of [Z], which rounds down. *)
Definition daysSincePaid (now : Z) (order : OrderRow) : Z :=
  let paidDate := default (updatedAt order) (paidAt order) in
  (now - paidDate) / msPerDay.

Definition maskUpiId (upiTransactionId : option string) : string :=
  let upiId := default "" upiTransactionId in
  if 8 <? Z.of_nat (String.length upiId)
  then "****" +:+ slice upiId (-8)
  else upiId.

Definition getTransactionDetails {E} (now : Z) (orderId : string) (farmerId' : Z)
  : Db Orders E (option TransactionDetails) :=
  λ s,
    let found :=
      match s !! orderId with
      | Some order =>
          if bool_decide (farmerId order = farmerId')
             && bool_decide (deletedAt order = None)
             && bool_decide (trackingStatus order ∈ [PAID; DELIVERED])
          then Some order else None
      | None => None
      end in
    match found with
    | None => (Ok None, s)
    | Some order =>
        let canDownloadReceipt := daysSincePaid now order <=? 90 in
        let maskedUpiId := maskUpiId (upiTransactionId order) in
        (Ok (Some {| td_id := orderId;
                     timeline := parseStatusHistory (statusHistory order);
                     payment := {| upiTxnId := maskedUpiId;
                                   pb_paidAt := paidAt order |};
                     td_createdAt := createdAt order;
                     canDownloadReceipt := canDownloadReceipt |}), s)
    end.

End WithJson.

(** *** Counting queries *)

(** The [trackingStatus] condition of a [where] clause. *)
Inductive StatusCondition : Type :=
| status_in (statuses : list OrderTrackingStatus)
| status_notIn (statuses : list OrderTrackingStatus).

(** [{ farmerId, deletedAt: null, trackingStatus?: ... }] *)
Record OrderCountWhere : Type := {
  cw_farmerId : Z;
  cw_trackingStatus : option StatusCondition
}.

Definition orderSatisfies (w : OrderCountWhere) (order : OrderRow) : bool :=
  bool_decide (farmerId order = cw_farmerId w)
  && bool_decide (deletedAt order = None)
  && match cw_trackingStatus w with
     | None => true
     | Some (status_in statuses) => bool_decide (trackingStatus order ∈ statuses)
     | Some (status_notIn statuses) => negb (bool_decide (trackingStatus order ∈ statuses))
     end.

(** [prisma.order.count({ where })] *)
Definition count (w : OrderCountWhere) (s : Orders) : Z :=
  Z.of_nat (length (filter (λ kr, orderSatisfies w kr.2 = true) (map_to_list s))).

(** The [where] clause of [findByFarmerId]. *)
Definition findByFarmerId_where (filter : GetOrdersFilter) : OrderCountWhere :=
  let trackingStatusFilter :=
    match gof_status filter with
    | Some active_orders =>
        Some [LISTED; MATCHED; PICKUP_SCHEDULED; AT_DROP_POINT; IN_TRANSIT; DELIVERED]
    | Some completed_orders => Some [PAID]
    | _ => None
    end in
  {| cw_farmerId := gof_farmerId filter;
     cw_trackingStatus := status_in <$> trackingStatusFilter |}.

(** The [total] of [findByFarmerId]: its [count] query, which runs beside
    the [findMany] of the page. *)
Definition findByFarmerId_total {E} (filter : GetOrdersFilter) : Db Orders E Z :=
  λ s, (Ok (count (findByFarmerId_where filter) s), s).

Definition countActiveByFarmerId {E} (farmerId' : Z) : Db Orders E Z :=
  λ s, (Ok (count {| cw_farmerId := farmerId';
                     cw_trackingStatus := Some (status_notIn [PAID]) |} s), s).

(** *** Delay updates *)

(** [prisma.order.update] throws when no row has the key. *)
Inductive DelayError : Type :=
| StatusError (e : OrderError)
| RecordToUpdateNotFound.

Definition updateDelay (orderId : string) (delayMinutes' : Z) (reason : string)
    (newEta : option Z) : Db Orders DelayError unit :=
  λ s,
    match s !! orderId with
    | None => (Err RecordToUpdateNotFound, s)
    | Some order =>
        (Ok tt,
         <[orderId :=
             {| farmerId := farmerId order;
                trackingStatus := trackingStatus order;
                statusHistory := statusHistory order;
                eta := match newEta with Some e => Some e | None => eta order end;
                delayMinutes := Some delayMinutes';
                delayReason := Some reason;
                haulerId := haulerId order;
                haulerName := haulerName order;
                haulerPhone := haulerPhone order;
                haulerVehicle := haulerVehicle order;
                upiTransactionId := upiTransactionId order;
                paidAt := paidAt order;
                createdAt := createdAt order;
                updatedAt := updatedAt order;
                deletedAt := deletedAt order |}]> s)
    end.

(** *** The hauler of an order view *)

(** [s.split(' ')]: the pieces between the separators; never empty. *)
Fixpoint split (sep : Ascii.ascii) (s : string) : list string :=
  match s with
  | EmptyString => [EmptyString]
  | String c rest =>
      if Ascii.eqb c sep then EmptyString :: split sep rest
      else match split sep rest with
           | piece :: pieces => String c piece :: pieces
           | [] => [String c EmptyString]
           end
  end.

(** [pieces.join(' ')] *)
Fixpoint join (sep : Ascii.ascii) (pieces : list string) : string :=
  match pieces with
  | [] => EmptyString
  | [piece] => piece
  | piece :: rest => piece +:+ String sep (join sep rest)
  end.

(** The [hauler] of [findByOrderNumber] and [getTransactionDetails]. *)
Definition haulerOf (order : OrderRow) : option HaulerInfo :=
  if truthy (haulerId order)
  then Some {| hauler_id := default "" (haulerId order);
               hauler_name := default "Unknown" (haulerName order);
               hauler_phone := default "" (haulerPhone order);
               vehicleType :=
                 (λ v, default "" (head (split " "%char v))) <$> haulerVehicle order;
               vehicleNumber :=
                 (λ v, join " "%char (tail (split " "%char v))) <$> haulerVehicle order |}
  else None.

End OrderStatusRepository.

(** ** Order status service (order-status.service.ts) *)

Module OrderStatusService.
Import Types OrderStatusRepository.

Definition validateFarmerId (farmerId : Z) : Result OrderError unit :=
  if (farmerId =? 0) || (farmerId <=? 0) then Err UNAUTHORIZED else Ok tt.

Definition validateStatusTransition (currentStatus newStatus : OrderTrackingStatus)
  : Result OrderError unit :=
  if bool_decide (currentStatus = newStatus) then Err ALREADY_IN_STATUS
  else if negb (isValidTransition currentStatus newStatus) then Err INVALID_TRANSITION
  else Ok tt.

Section WithJson.
Variable JSON_parse : string → option JsonValue.

Definition updateStatus (now : Z) (dto : UpdateOrderStatusDTO)
  : Db Orders OrderError OrderWithTracking :=
  let! current := findByOrderNumber JSON_parse (orderId dto) in
  match current with
  | None => throw ORDER_NOT_FOUND
  | Some current =>
      lift (validateStatusTransition (owt_trackingStatus current) (newStatus dto)) ;;;
      let! updated := OrderStatusRepository.updateStatus JSON_parse now dto in
      ret updated
  end.

Definition getOrderDetails (orderId : string) (farmerId : Z)
  : Db Orders OrderError OrderWithTracking :=
  lift (validateFarmerId farmerId) ;;;
  let! order := findByOrderNumber JSON_parse orderId in
  match order with
  | None => throw ORDER_NOT_FOUND
  | Some order =>
      if bool_decide (owt_farmerId order ≠ farmerId) then throw UNAUTHORIZED
      else ret order
  end.

End WithJson.

Definition getActiveOrderCount (farmerId : Z) : Db Orders OrderError Z :=
  lift (validateFarmerId farmerId) ;;;
  countActiveByFarmerId farmerId.

(** The [pagination] of [getOrders]. *)
Definition getOrders_total (filter : GetOrdersFilter) : Db Orders OrderError Z :=
  lift (validateFarmerId (gof_farmerId filter)) ;;;
  findByFarmerId_total filter.

Section Delay.
Variable JSON_parse : string → option JsonValue.

Definition updateDelay (dto : UpdateDelayDTO) : Db Orders DelayError unit :=
  λ s,
    match findByOrderNumber JSON_parse (ud_orderId dto) s with
    | (Ok None, s') => (Err (StatusError ORDER_NOT_FOUND), s')
    | (Ok (Some current), s') =>
        OrderStatusRepository.updateDelay (ud_orderId dto) (ud_delayMinutes dto)
          (ud_reason dto) (ud_newEta dto) s'
    | (Err e, s') => (Err (StatusError e), s')
    end.

End Delay.

End OrderStatusService.

(** ** Transaction service (transaction.service.ts) *)

Module TransactionService.
Import Types OrderStatusRepository.

Inductive TransactionError : Type :=
| TRANSACTION_NOT_FOUND
| INVALID_FARMER_ID
| RECEIPT_EXPIRED.

Definition validateFarmerId (farmerId : Z) : Result TransactionError unit :=
  if (farmerId =? 0) || (farmerId <=? 0) then Err INVALID_FARMER_ID else Ok tt.

(** [{ ...filter }] with [fromDate] replaced when no date was given. *)
Definition appliedFilter (now : Z) (filter : TransactionFilter) : TransactionFilter :=
  if negb (bool_decide (is_Some (fromDate filter)))
     && negb (bool_decide (is_Some (toDate filter)))
  then
    let ninetyDaysAgo := setDate_minus now 90 in
    {| tf_farmerId := tf_farmerId filter;
       tf_status := tf_status filter;
       fromDate := Some ninetyDaysAgo;
       toDate := toDate filter;
       cropType := cropType filter;
       sortBy := sortBy filter;
       sortOrder := sortOrder filter;
       page := page filter;
       limit := limit filter |}
  else filter.

Section WithRepository.
(** The repository handed to the constructor; [getTransactions] only
    forwards to its [getTransactions]. *)
Context {R : Type}.
Variable repo_getTransactions : TransactionFilter → Db Orders TransactionError R.

Definition getTransactions (now : Z) (filter : TransactionFilter)
  : Db Orders TransactionError R :=
  lift (validateFarmerId (tf_farmerId filter)) ;;;
  let! result := repo_getTransactions (appliedFilter now filter) in
  ret result.
End WithRepository.

Section WithJson.
Variable JSON_parse : string → option JsonValue.

Definition getTransactionDetails (now : Z) (transactionId : string) (farmerId : Z)
  : Db Orders TransactionError TransactionDetails :=
  lift (validateFarmerId farmerId) ;;;
  let! details :=
    OrderStatusRepository.getTransactionDetails JSON_parse now transactionId farmerId in
  match details with
  | None => throw TRANSACTION_NOT_FOUND
  | Some details => ret details
  end.

Definition canDownloadReceipt (now : Z) (transactionId : string) (farmerId : Z)
  : Db Orders TransactionError bool :=
  lift (validateFarmerId farmerId) ;;;
  let! details :=
    OrderStatusRepository.getTransactionDetails JSON_parse now transactionId farmerId in
  match details with
  | None => throw TRANSACTION_NOT_FOUND
  | Some details => ret (OrderStatusRepository.canDownloadReceipt details)
  end.
End WithJson.

End TransactionService.

(** ** Receipt service (receipt.service.ts): the masked farmer name *)

Module ReceiptService.

(** ['*'.repeat(n)] *)
Fixpoint repeat (c : Ascii.ascii) (n : nat) : string :=
  match n with
  | O => EmptyString
  | S n' => String c (repeat c n')
  end.


End ReceiptService.

(** ** Match domain types (match.types.ts) *)

Module MatchTypes.

Inductive MatchStatus : Type :=
| PENDING_ACCEPTANCE
| ACCEPTED
| REJECTED
| EXPIRED.

#[global] Instance MatchStatus_eq_dec : EqDecision MatchStatus.
Proof. solve_decision. Defined.

(** The columns of a [Match] row other than its key [id]; the decimal
    terms and the buyer summary, which no lifecycle operation reads or
    writes, are left out. *)
Record MatchRow : Type := {
  listingId : string;
  farmerId : Z;
  buyerId : string;
  orderId : option string;
  status : MatchStatus;
  rejectionReason : option string;
  expiresAt : Z;
  acceptedAt : option Z;
  rejectedAt : option Z;
  createdAt : Z;
  updatedAt : Z
}.

(** The [Match] entity: a row together with its [id]. *)
Record Match : Type := {
  id : string;
  row : MatchRow
}.

End MatchTypes.

(** ** Match repository (match.repository.ts) *)

Module MatchRepository.
Import MatchTypes.

Abbreviation Matches := (gmap string MatchRow).

(** The plain [Error]s of the match service, by message, and Prisma's
    error for an [update] whose row does not exist. *)
Inductive MatchError : Type :=
| MatchNotFound
| NoLongerPending
| MatchHasExpired
| CannotBeRejected (s : MatchStatus)
| RecordToUpdateNotFound.

(** The rows of the table as entities, in the order the database returns
    them when no [orderBy] is given. *)
Definition rows (s : Matches) : list Match :=
  (λ kr, {| id := kr.1; row := kr.2 |}) <$> map_to_list s.

Definition findById {E} (id : string) : Db Matches E (option Match) :=
  λ s, (Ok ((λ r, {| id := id; row := r |}) <$> s !! id), s).

(** [where: { farmerId, status: 'PENDING_ACCEPTANCE', expiresAt: { gt: now } }] *)
Definition pendingWhere (now farmer : Z) (m : Match) : Prop :=
  farmerId (row m) = farmer
  ∧ status (row m) = PENDING_ACCEPTANCE
  ∧ now < expiresAt (row m).

#[global] Instance pendingWhere_dec now farmer m : Decision (pendingWhere now farmer m).
Proof. unfold pendingWhere. apply _. Defined.

(** [orderBy: { expiresAt: 'asc' }] *)
Definition expiresAt_asc (a b : Match) : Prop :=
  expiresAt (row a) ≤ expiresAt (row b).

#[global] Instance expiresAt_asc_dec a b : Decision (expiresAt_asc a b).
Proof. unfold expiresAt_asc. apply _. Defined.

Definition findPendingByFarmerId {E} (now farmer : Z) (limit offset : nat)
  : Db Matches E (list Match) :=
  λ s, (Ok (take limit (drop offset
          (merge_sort expiresAt_asc (filter (pendingWhere now farmer) (rows s))))), s).

Record UpdateDetails : Type := {
  details_rejectionReason : option string;
  details_orderId : option string
}.

(** The [data] of [prisma.match.update]. *)
Definition updateData (now : Z) (status' : MatchStatus) (details : option UpdateDetails)
    (m : MatchRow) : MatchRow :=
  let orderId' := details ≫= details_orderId in
  let reason' := details ≫= details_rejectionReason in
  {| listingId := listingId m;
     farmerId := farmerId m;
     buyerId := buyerId m;
     orderId :=
       match status' with
       | ACCEPTED => if truthy orderId' then orderId' else orderId m
       | _ => orderId m
       end;
     status := status';
     rejectionReason :=
       match status' with
       | REJECTED => if truthy reason' then reason' else rejectionReason m
       | _ => rejectionReason m
       end;
     expiresAt := expiresAt m;
     acceptedAt :=
       match status' with ACCEPTED => Some now | _ => acceptedAt m end;
     rejectedAt :=
       match status' with REJECTED => Some now | _ => rejectedAt m end;
     createdAt := createdAt m;
     updatedAt := now |}.

Definition updateStatus (now : Z) (id : string) (status' : MatchStatus)
    (details : option UpdateDetails) : Db Matches MatchError Match :=
  λ s,
    match s !! id with
    | None => (Err RecordToUpdateNotFound, s)
    | Some m =>
        let m' := updateData now status' details m in
        (Ok {| id := id; row := m' |}, <[id := m']> s)
    end.

(** [where: { status: 'PENDING_ACCEPTANCE', expiresAt: { lte: now } }] *)
Definition expiredPendingWhere (now : Z) (m : Match) : Prop :=
  status (row m) = PENDING_ACCEPTANCE ∧ expiresAt (row m) ≤ now.

#[global] Instance expiredPendingWhere_dec now m : Decision (expiredPendingWhere now m).
Proof. unfold expiredPendingWhere. apply _. Defined.

(** Every row the [where] clause holds of, before [take]. *)
Definition expiredPending (now : Z) (s : Matches) : list Match :=
  filter (expiredPendingWhere now) (rows s).

Definition findExpiredPendingMatches {E} (now : Z) : Db Matches E (list Match) :=
  λ s, (Ok (take 100 (expiredPending now s)), s).

End MatchRepository.

(** ** Match service (match.service.ts) *)

Module MatchService.
Import MatchTypes MatchRepository.

Definition getPendingMatches (now farmer : Z) : Db Matches MatchError (list Match) :=
  findPendingByFarmerId now farmer 10 0.

Definition acceptMatch (now : Z) (matchId : string) (isPartial : bool)
    (acceptedQuantity : option Z) : Db Matches MatchError Match :=
  let! found := findById matchId in
  match found with
  | None => throw MatchNotFound
  | Some m =>
      if negb (bool_decide (status (row m) = PENDING_ACCEPTANCE))
      then throw NoLongerPending
      else if now >? expiresAt (row m)
      then (updateStatus now matchId EXPIRED None ;;; throw MatchHasExpired)
      else
        let mockOrderId := "ord-" +:+ pretty now in
        let! updatedMatch :=
          updateStatus now matchId ACCEPTED
            (Some {| details_rejectionReason := None;
                     details_orderId := Some mockOrderId |}) in
        ret updatedMatch
  end.

Definition rejectMatch (now : Z) (matchId : string) (reason : string)
  : Db Matches MatchError Match :=
  let! found := findById matchId in
  match found with
  | None => throw MatchNotFound
  | Some m =>
      if negb (bool_decide (status (row m) = PENDING_ACCEPTANCE))
         && negb (bool_decide (status (row m) = EXPIRED))
      then throw (CannotBeRejected (status (row m)))
      else
        let! updatedMatch :=
          updateStatus now matchId REJECTED
            (Some {| details_rejectionReason := Some reason;
                     details_orderId := None |}) in
        ret updatedMatch
  end.

(** The [for ... of] loop of [expireMatches], carrying [count]. *)
Fixpoint expireLoop (now : Z) (expiredMatches : list Match) (count : Z)
  : Db Matches MatchError Z :=
  match expiredMatches with
  | [] => ret count
  | m :: rest =>
      updateStatus now (id m) EXPIRED None ;;;
      expireLoop now rest (count + 1)
  end.

Definition expireMatches (now : Z) : Db Matches MatchError Z :=
  let! expiredMatches := findExpiredPendingMatches now in
  let count := 0 in
  expireLoop now expiredMatches count.

End MatchService.

(** ** Match gRPC handlers (match.handlers.ts) *)

Module MatchHandlers.
Import MatchTypes MatchRepository.

Inductive GrpcStatus : Type :=
| INVALID_ARGUMENT
| NOT_FOUND
| FAILED_PRECONDITION
| INTERNAL.

(** The name of a status, as a template string prints it. *)
Definition statusName (s : MatchStatus) : string :=
  match s with
  | PENDING_ACCEPTANCE => "PENDING_ACCEPTANCE"
  | ACCEPTED => "ACCEPTED"
  | REJECTED => "REJECTED"
  | EXPIRED => "EXPIRED"
  end.

(** [message.includes(part)] *)
Definition includes (message part : string) : bool :=
  match String.index 0 part message with
  | Some _ => true
  | None => false
  end.

(** The answer handed to the callback: an error with its code and message,
    or the payload. *)
Record GrpcError : Type := {
  code : GrpcStatus;
  message : string
}.

Record AcceptMatchResponse : Type := {
  success : bool;
  order_id : option string;
  accept_message : string
}.

Section WithPrisma.
(** The message of Prisma's error for an update of a missing row. *)
Variable prismaMessage : string.

(** [err.message] of the errors the match service throws. *)
Definition errorMessage (e : MatchError) : string :=
  match e with
  | MatchNotFound => "Match not found"
  | NoLongerPending => "Match is no longer pending acceptance"
  | MatchHasExpired => "Match has expired"
  | CannotBeRejected s => "Match is " +:+ statusName s +:+ " and cannot be rejected"
  | RecordToUpdateNotFound => prismaMessage
  end.

Definition AcceptMatch (now : Z) (match_id : string) (is_partial : bool)
    (accepted_quantity : option Z)
  : Matches → Result GrpcError AcceptMatchResponse * Matches :=
  λ s,
    match MatchService.acceptMatch now match_id is_partial accepted_quantity s with
    | (Ok m, s') =>
        (Ok {| success := true; order_id := orderId (row m);
               accept_message := "Match accepted successfully" |}, s')
    | (Err err, s') =>
        let code0 := INTERNAL in
        let code1 :=
          if String.eqb (errorMessage err) "Match not found" then NOT_FOUND else code0 in
        let code2 :=
          if includes (errorMessage err) "expired" then FAILED_PRECONDITION else code1 in
        (Err {| code := code2; message := errorMessage err |}, s')
    end.

(** The reason handed to the service: the free text for the code OTHER
    when there is one, the code otherwise. *)
Definition rejectReason (reason_code : string) (other_reason_text : option string)
  : string :=
  if String.eqb reason_code "OTHER" && truthy other_reason_text
  then default "" other_reason_text
  else reason_code.

Definition RejectMatch (now : Z) (match_id reason_code : string)
    (other_reason_text : option string)
  : Matches → Result GrpcError bool * Matches :=
  λ s,
    let reason := rejectReason reason_code other_reason_text in
    match MatchService.rejectMatch now match_id reason s with
    | (Ok _, s') => (Ok true, s')
    | (Err err, s') =>
        let code0 := INTERNAL in
        let code1 :=
          if String.eqb (errorMessage err) "Match not found" then NOT_FOUND else code0 in
        (Err {| code := code1; message := errorMessage err |}, s')
    end.

(** [ExpireMatches] answers with [expired_count]. *)
Definition ExpireMatches (now : Z) : Matches → Result GrpcError Z * Matches :=
  λ s,
    match MatchService.expireMatches now s with
    | (Ok count, s') => (Ok count, s')
    | (Err err, s') => (Err {| code := INTERNAL; message := errorMessage err |}, s')
    end.

(** The calls that change matches, each with the instant it is served at. *)
Inductive MatchRequest : Type :=
| AcceptMatchRequest (now : Z) (match_id : string) (is_partial : bool)
    (accepted_quantity : option Z)
| RejectMatchRequest (now : Z) (match_id reason_code : string)
    (other_reason_text : option string)
| ExpireMatchesRequest (now : Z).

Definition serve (request : MatchRequest) (s : Matches) : Matches :=
  match request with
  | AcceptMatchRequest now match_id is_partial accepted_quantity =>
      (AcceptMatch now match_id is_partial accepted_quantity s).2
  | RejectMatchRequest now match_id reason_code other_reason_text =>
      (RejectMatch now match_id reason_code other_reason_text s).2
  | ExpireMatchesRequest now => (ExpireMatches now s).2
  end.

Definition serveAll (requests : list MatchRequest) (s : Matches) : Matches :=
  foldl (λ s request, serve request s) s requests.

End WithPrisma.

(** The timestamps and the order reference of a match agree with its
    status. *)
Definition bookkept (m : MatchRow) : Prop :=
  (is_Some (acceptedAt m) ↔ status m = ACCEPTED)
  ∧ (is_Some (orderId m) ↔ status m = ACCEPTED)
  ∧ (is_Some (rejectedAt m) ↔ status m = REJECTED)
  ∧ (is_Some (rejectionReason m) → status m = REJECTED).

End MatchHandlers.

(** ** Rating repository (rating.repository.ts) *)

Module RatingRepository.

(** The columns of a [QualityRating] row that the summary and the seen
    mark read or write; the row is keyed by [id]. *)
Record RatingRow : Type := {
  farmerId : Z;
  cropType : string;
  rating : Z;
  seenByFarmer : bool;
  seenAt : option Z
}.

Abbreviation Ratings := (gmap string RatingRow).

Record StarBreakdown : Type := {
  star5 : Z;
  star4 : Z;
  star3 : Z;
  star2 : Z;
  star1 : Z
}.

(** The [switch] of [calculateStarBreakdown]: one counter goes up, or none. *)
Definition countStar (counts : StarBreakdown) (r : RatingRow) : StarBreakdown :=
  if rating r =? 5 then
    {| star5 := star5 counts + 1; star4 := star4 counts; star3 := star3 counts;
       star2 := star2 counts; star1 := star1 counts |}
  else if rating r =? 4 then
    {| star5 := star5 counts; star4 := star4 counts + 1; star3 := star3 counts;
       star2 := star2 counts; star1 := star1 counts |}
  else if rating r =? 3 then
    {| star5 := star5 counts; star4 := star4 counts; star3 := star3 counts + 1;
       star2 := star2 counts; star1 := star1 counts |}
  else if rating r =? 2 then
    {| star5 := star5 counts; star4 := star4 counts; star3 := star3 counts;
       star2 := star2 counts + 1; star1 := star1 counts |}
  else if rating r =? 1 then
    {| star5 := star5 counts; star4 := star4 counts; star3 := star3 counts;
       star2 := star2 counts; star1 := star1 counts + 1 |}
  else counts.

Definition calculateStarBreakdown (ratings : list RatingRow) : StarBreakdown :=
  let counts := {| star5 := 0; star4 := 0; star3 := 0; star2 := 0; star1 := 0 |} in
  foldl countStar counts ratings.

(** A JavaScript [Map] from crop type to count: its entries in insertion
    order; [set] on a key that is present keeps the place of the entry. *)
Fixpoint map_set (m : list (string * Z)) (k : string) (v : Z) : list (string * Z) :=
  match m with
  | [] => [(k, v)]
  | (k', v') :: rest =>
      if String.eqb k' k then (k', v) :: rest else (k', v') :: map_set rest k v
  end.

Fixpoint map_get (m : list (string * Z)) (k : string) : option Z :=
  match m with
  | [] => None
  | (k', v') :: rest => if String.eqb k' k then Some v' else map_get rest k
  end.

Definition fiveStarCounts (ratings : list RatingRow) : list (string * Z) :=
  foldl (λ counts r,
           if rating r =? 5
           then map_set counts (cropType r)
                  (default 0 (map_get counts (cropType r)) + 1)
           else counts)
        [] ratings.

Definition findBestCropType (ratings : list RatingRow) : option string :=
  let counts := fiveStarCounts ratings in
  if (length counts =? 0)%nat then None
  else
    let best :=
      foldl (λ (best : string * Z) (entry : string * Z),
               if entry.2 >? best.2 then entry else best)
            (EmptyString, 0) counts in
    Some best.1.

(** [where: { id, farmerId, seenByFarmer: false }] of [markSeen]. *)
Definition unseenOf (farmer : Z) (r : RatingRow) : bool :=
  bool_decide (farmerId r = farmer) && negb (seenByFarmer r).

(** [updateMany] changes the rows that satisfy the [where] clause, here at
    most the one with the id; it succeeds also when no row does. *)
Definition markSeen {E} (now : Z) (ratingId : string) (farmer : Z)
  : Db Ratings E bool :=
  λ s,
    match s !! ratingId with
    | Some r =>
        if unseenOf farmer r
        then (Ok true,
              <[ratingId := {| farmerId := farmerId r; cropType := cropType r;
                               rating := rating r; seenByFarmer := true;
                               seenAt := Some now |}]> s)
        else (Ok true, s)
    | None => (Ok true, s)
    end.

Definition getUnseenCount {E} (farmer : Z) : Db Ratings E Z :=
  λ s, (Ok (Z.of_nat (length (filter (λ kr, unseenOf farmer kr.2 = true)
                                (map_to_list s)))), s).

End RatingRepository.

(** ** Rating service (rating.service.ts) *)

Module RatingService.
Import RatingRepository.

Inductive RatingError : Type :=
| RATING_NOT_FOUND
| INVALID_FARMER_ID
| UNAUTHORIZED.

Definition validFarmerId (farmerId : Z) : Result RatingError unit :=
  if (farmerId =? 0) || (farmerId <=? 0) then Err INVALID_FARMER_ID else Ok tt.

Definition markSeen (now : Z) (ratingId : string) (farmerId : Z)
  : Db Ratings RatingError bool :=
  lift (validFarmerId farmerId) ;;;
  let! success := RatingRepository.markSeen now ratingId farmerId in
  ret success.

(** [getUnseenCount] hands the farmer id on without checking it. *)
Definition getUnseenCount (farmerId : Z) : Db Ratings RatingError Z :=
  RatingRepository.getUnseenCount farmerId.

End RatingService.

(** ** Order status handlers (order-status.handlers.ts) *)

Module OrderStatusHandlers.
Import Types OrderStatusRepository.

(** [PROTO_STATUS_MAP[n]]: [None] where the record has no entry. *)
Definition PROTO_STATUS_MAP (n : Z) : option OrderTrackingStatus :=
  if n =? 1 then Some LISTED
  else if n =? 2 then Some MATCHED
  else if n =? 3 then Some PICKUP_SCHEDULED
  else if n =? 4 then Some AT_DROP_POINT
  else if n =? 5 then Some IN_TRANSIT
  else if n =? 6 then Some DELIVERED
  else if n =? 7 then Some PAID
  else None.

Definition DOMAIN_TO_PROTO_STATUS (status : OrderTrackingStatus) : Z :=
  match status with
  | LISTED => 1
  | MATCHED => 2
  | PICKUP_SCHEDULED => 3
  | AT_DROP_POINT => 4
  | IN_TRANSIT => 5
  | DELIVERED => 6
  | PAID => 7
  end.

Inductive GrpcStatus : Type :=
| INVALID_ARGUMENT
| NOT_FOUND
| FAILED_PRECONDITION
| PERMISSION_DENIED
| INTERNAL.

(** The [code] of the reply of [handleError]: the [codeMap] entry of an
    [OrderStatusError], INTERNAL for any other error. *)
Definition handleError (error : OrderError) : GrpcStatus :=
  match error with
  | ORDER_NOT_FOUND => NOT_FOUND
  | INVALID_TRANSITION => FAILED_PRECONDITION
  | ALREADY_IN_STATUS => FAILED_PRECONDITION
  | UNAUTHORIZED => PERMISSION_DENIED
  | RepositoryOrderNotFound => INTERNAL
  | TypeError => INTERNAL
  end.

End OrderStatusHandlers.

(** ** Requests that change orders (order-status.handlers.ts)

    [updateTrackingStatus] and [updateOrderDelay] hand their request to the
    service and catch every error, so a request leaves the table the
    service left, whatever the outcome. *)

Module OrderRequests.
Import Types OrderStatusRepository.

Inductive OrderRequest : Type :=
| Transition (now : Z) (dto : UpdateOrderStatusDTO)
| Delay (dto : UpdateDelayDTO).

Section WithJson.
Variable JSON_parse : string → option JsonValue.

Definition serve (request : OrderRequest) (s : Orders) : Orders :=
  match request with
  | Transition now dto => (OrderStatusService.updateStatus JSON_parse now dto s).2
  | Delay dto => (OrderStatusService.updateDelay JSON_parse dto s).2
  end.

Definition serveAll (requests : list OrderRequest) (s : Orders) : Orders :=
  foldl (λ s request, serve request s) s requests.

End WithJson.

(** What stays of an order, and the direction its status moves in. *)
Definition evolves (order order' : OrderRow) : Prop :=
  farmerId order' = farmerId order
  ∧ createdAt order' = createdAt order
  ∧ paidAt order' = paidAt order
  ∧ deletedAt order' = deletedAt order
  ∧ getStatusStep (trackingStatus order) ≤ getStatusStep (trackingStatus order').

(** Each event is one step after the event before it. *)
Definition chained (history : list TimelineEvent) : Prop :=
  ∀ i e e', history !! i = Some e → history !! S i = Some e' → step e' = step e + 1.

(** A stored history that tells how the order came to its status. *)
Definition timelineConsistent (order : OrderRow) : Prop :=
  ∃ history,
    statusHistory order = JArray history
    ∧ status <$> last history = Some (trackingStatus order)
    ∧ Forall (λ e, step e = getStatusStep (status e)) history
    ∧ chained history
    ∧ (∀ i e, history !! i = Some e → (active e = true ↔ S i = length history)).

End OrderRequests.

(** ** Vocabulary of the properties *)

Module TransactionVocabulary.
Import Types OrderStatusRepository.

(** An order a farmer may see as a transaction. *)
Definition visibleTo (farmer : Z) (order : OrderRow) : Prop :=
  farmerId order = farmer ∧ deletedAt order = None
  ∧ (trackingStatus order = PAID ∨ trackingStatus order = DELIVERED).

End TransactionVocabulary.

Module RatingVocabulary.
Import RatingRepository.

(** How many ratings of a list satisfy a condition. *)
Definition countOf (P : RatingRow → Prop) `{∀ r, Decision (P r)}
    (ratings : list RatingRow) : Z :=
  Z.of_nat (length (filter P ratings)).

(** How many five-star ratings a crop has. *)
Definition fiveStars (crop : string) (ratings : list RatingRow) : Z :=
  countOf (λ r, rating r = 5 ∧ cropType r = crop) ratings.

End RatingVocabulary.

(** ** Sample data

    The scenarios of the specification and of the test suites, used below
    to run the operations on concrete tables. *)

Module Examples.
Import Types OrderStatusRepository.

(** No string of these tables needs [JSON.parse]. *)
Definition no_parse : string → option JsonValue := λ _, None.

Definition listedEvent : TimelineEvent :=
  {| step := 1; status := LISTED; label := "Listed"; completed := true;
     active := true; timestamp := Some 0; actor := Some "system"; note := None |}.

(** Order ORD-1 of farmer 123, at LISTED. *)
Definition ORD_1 : OrderRow :=
  {| farmerId := 123; trackingStatus := LISTED;
     statusHistory := JArray [listedEvent];
     eta := None; delayMinutes := None; delayReason := None;
     haulerId := None; haulerName := None; haulerPhone := None;
     haulerVehicle := None; upiTransactionId := None; paidAt := None;
     createdAt := 0; updatedAt := 0; deletedAt := None |}.

(** Order ORD-2 of farmer 123, paid at instant 5000. *)
Definition ORD_2 : OrderRow :=
  {| farmerId := 123; trackingStatus := PAID;
     statusHistory := JNull;
     eta := None; delayMinutes := None; delayReason := None;
     haulerId := None; haulerName := None; haulerPhone := None;
     haulerVehicle := None; upiTransactionId := Some "UPI2024ABCD1234";
     paidAt := Some 5000; createdAt := 0; updatedAt := 6000; deletedAt := None |}.

Definition orders : gmap string OrderRow :=
  <["ORD-2" := ORD_2]> {[ "ORD-1" := ORD_1 ]}.

Definition transition (status : OrderTrackingStatus) : UpdateOrderStatusDTO :=
  {| orderId := "ORD-1"; newStatus := status; dto_actor := "logistics";
     dto_note := Some "picked"; haulerInfo := None; dto_eta := None;
     dto_delayMinutes := None; dto_delayReason := None;
     dto_upiTransactionId := None |}.

Definition matchedEvent (now : Z) : TimelineEvent :=
  {| step := 2; status := MATCHED; label := "Matched"; completed := true;
     active := true; timestamp := Some now; actor := Some "logistics";
     note := Some "picked" |}.

(** ORD-1 after the transition to MATCHED at instant [now]. *)
Definition ORD_1_matched (now : Z) : OrderRow :=
  {| farmerId := 123; trackingStatus := MATCHED;
     statusHistory := JArray [deactivate listedEvent; matchedEvent now];
     eta := None; delayMinutes := None; delayReason := None;
     haulerId := None; haulerName := None; haulerPhone := None;
     haulerVehicle := None; upiTransactionId := None; paidAt := None;
     createdAt := 0; updatedAt := 0; deletedAt := None |}.

Definition queryOfFarmer (from to : option Z) : TransactionFilter :=
  {| tf_farmerId := 123; tf_status := None; fromDate := from; toDate := to;
     cropType := None; sortBy := None; sortOrder := None;
     page := None; limit := None |}.

Import MatchTypes.

(** A match of farmer 1001 with the given status and deadline. *)
Definition matchRow (status : MatchStatus) (expiresAt : Z) : MatchRow :=
  {| listingId := "listing-uuid-001"; MatchTypes.farmerId := 1001;
     buyerId := "buyer-001"; MatchTypes.orderId := None;
     MatchTypes.status := status; rejectionReason := None;
     expiresAt := expiresAt; acceptedAt := None; rejectedAt := None;
     MatchTypes.createdAt := 0; MatchTypes.updatedAt := 0 |}.

(** One match in each status; the pending one expires at instant 1000. *)
Definition matches : gmap string MatchRow :=
  <["m-pending" := matchRow PENDING_ACCEPTANCE 1000]>
  (<["m-accepted" := matchRow ACCEPTED 1000]>
  (<["m-rejected" := matchRow REJECTED 1000]>
  {[ "m-expired" := matchRow EXPIRED 1000 ]})).

(** [n] pending matches, with ids "0", "1", ..., all due at instant 0. *)
Definition dueMatches (n : nat) : gmap string MatchRow :=
  list_to_map ((λ i : nat, (pretty i, matchRow PENDING_ACCEPTANCE 0)) <$> seq 0 n).

End Examples.

(** ** More sample data *)

Module Scenarios.
Import Types OrderStatusRepository OrderRequests Examples.

(** A table with ORD-1 alone. *)
Definition oneOrder : gmap string OrderRow := {[ "ORD-1" := ORD_1 ]}.

Definition truck : HaulerInfo :=
  {| hauler_id := "hauler-9"; hauler_name := "Ravi"; hauler_phone := "9800000000";
     vehicleType := Some "Truck"; vehicleNumber := Some "KA 01 AB 1234" |}.

(** The transition of ORD-1 to MATCHED, naming the hauler. *)
Definition transitionWithHauler : UpdateOrderStatusDTO :=
  {| orderId := "ORD-1"; newStatus := MATCHED; dto_actor := "logistics";
     dto_note := None; haulerInfo := Some truck; dto_eta := Some 7200000;
     dto_delayMinutes := None; dto_delayReason := None;
     dto_upiTransactionId := None |}.

Definition delayOf (orderId : string) : UpdateDelayDTO :=
  {| ud_orderId := orderId; ud_delayMinutes := 30; ud_reason := "rain";
     ud_newEta := None; ud_actor := "logistics" |}.

(** A day of requests on ORD-1: matched, delayed, a jump to DELIVERED that
    is refused, pickup scheduled. *)
Definition dayOfRequests : list OrderRequest :=
  [Transition 1000 (transition MATCHED);
   Delay (delayOf "ORD-1");
   Transition 2000 (transition DELIVERED);
   Transition 3000 (transition PICKUP_SCHEDULED)].

(** ORD-1 after [transitionWithHauler] at instant 1000. *)
Definition ORD_1_withHauler : OrderRow :=
  {| farmerId := 123; trackingStatus := MATCHED;
     statusHistory :=
       JArray [deactivate listedEvent;
               {| step := 2; status := MATCHED; label := "Matched";
                  completed := true; active := true; timestamp := Some 1000;
                  actor := Some "logistics"; note := None |}];
     eta := Some 7200000; delayMinutes := None; delayReason := None;
     haulerId := Some "hauler-9"; haulerName := Some "Ravi";
     haulerPhone := Some "9800000000";
     haulerVehicle := Some "Truck KA 01 AB 1234";
     upiTransactionId := None; paidAt := None;
     createdAt := 0; updatedAt := 0; deletedAt := None |}.

(** Calls on the sample matches: two on the accepted match, a rejection of
    the pending match with a free-text reason, a sweep. *)
Definition matchCalls : list MatchHandlers.MatchRequest :=
  [MatchHandlers.AcceptMatchRequest 10 "m-accepted" false None;
   MatchHandlers.RejectMatchRequest 20 "m-accepted" "CHANGED_MIND" None;
   MatchHandlers.RejectMatchRequest 30 "m-pending" "OTHER" (Some "sold at the market");
   MatchHandlers.ExpireMatchesRequest 5000].

(** The message of the database client when the row to update is gone. *)
Definition prismaNotFound : string := "Record to update not found.".

(** Ratings of farmer 7: three for tomatoes, two of them with five stars,
    one five-star rating for onions, and a rating of 0 stars. *)
Definition ratingOf (crop : string) (stars : Z) (seen : bool)
  : RatingRepository.RatingRow :=
  {| RatingRepository.farmerId := 7; RatingRepository.cropType := crop;
     RatingRepository.rating := stars; RatingRepository.seenByFarmer := seen;
     RatingRepository.seenAt := None |}.

Definition ratingList : list RatingRepository.RatingRow :=
  [ratingOf "Onion" 5 true; ratingOf "Tomato" 5 false; ratingOf "Tomato" 3 false;
   ratingOf "Tomato" 5 true; ratingOf "Potato" 0 true].

Definition ratings : gmap string RatingRepository.RatingRow :=
  <["r-1" := ratingOf "Onion" 5 true]> {[ "r-2" := ratingOf "Tomato" 5 false ]}.

End Scenarios.

(** * Properties *)

(** ** The database effect *)

Lemma bind_Ok {S E A B} (m : Db S E A) (k : A → Db S E B) s a s' :
  m s = (Ok a, s') → bind m k s = k a s'.
Proof. unfold bind. by intros ->. Qed.

Lemma bind_Err {S E A B} (m : Db S E A) (k : A → Db S E B) s e s' :
  m s = (Err e, s') → bind m k s = (Err e, s').
Proof. unfold bind. by intros ->. Qed.

Lemma bind_ret_r {S E A} (m : Db S E A) s : bind m ret s = m s.
Proof. unfold bind, ret. by destruct (m s) as [[a|e] s']. Qed.

(** ** Order lifecycle *)

Section OrderLifecycle.
Import Types OrderStatusRepository OrderStatusService.

Variable JSON_parse : string → option JsonValue.

(** The two step tables of the code agree. *)
Lemma getStepNumber_getStatusStep status : getStepNumber status = getStatusStep status.
Proof. by destruct status. Qed.

Lemma validateStatusTransition_cases (current new : OrderTrackingStatus) :
  validateStatusTransition current new =
    if decide (new = current) then Err ALREADY_IN_STATUS
    else if decide (getStatusStep new = getStatusStep current + 1) then Ok tt
    else Err INVALID_TRANSITION.
Proof. destruct current, new; reflexivity. Qed.

(** C1. The validation of a transition from [current] to [new] fails with
    ALREADY_IN_STATUS when the two are equal, succeeds when [new] is the
    stage right after [current] in the chain LISTED, MATCHED,
    PICKUP_SCHEDULED, AT_DROP_POINT, IN_TRANSIT, DELIVERED, PAID (steps 1
    to 7), and fails with INVALID_TRANSITION otherwise; nothing is
    accepted out of PAID. *)
Theorem validateStatusTransition_outcome :
  getStatusStep <$> all_statuses = [1; 2; 3; 4; 5; 6; 7]
  ∧ (∀ current new : OrderTrackingStatus,
       validateStatusTransition current new =
         if decide (new = current) then Err ALREADY_IN_STATUS
         else if decide (getStatusStep new = getStatusStep current + 1) then Ok tt
         else Err INVALID_TRANSITION)
  ∧ (∀ new : OrderTrackingStatus, validateStatusTransition PAID new ≠ Ok tt).
Proof.
  split; [reflexivity|]. split.
  - apply validateStatusTransition_cases.
  - intros new. destruct new; discriminate.
Qed.

(** The service reports a failure without having written anything. *)
Lemma repository_updateStatus_Err now dto s e s' :
  OrderStatusRepository.updateStatus JSON_parse now dto s = (Err e, s') → s' = s.
Proof.
  unfold OrderStatusRepository.updateStatus.
  destruct (s !! orderId dto) as [current|] eqn:Hcur; [|by intros [= _ <-]].
  destruct (parseStatusHistory JSON_parse (statusHistory current));
    try by intros [= _ <-].
  rewrite lookup_insert_eq. discriminate.
Qed.

(** C6. When a transition fails, whatever the error (order not found,
    already in the status, invalid transition), the table of orders is
    the one before the call: no timeline event was appended and no
    [trackingStatus] changed. *)
Theorem updateStatus_failure_leaves_orders_unchanged now dto s e s' :
  OrderStatusService.updateStatus JSON_parse now dto s = (Err e, s') →
  s' = s ∧ s' !! orderId dto = s !! orderId dto.
Proof.
  intros H. assert (s' = s) as ->; [|done].
  revert H. unfold OrderStatusService.updateStatus, findByOrderNumber.
  unfold bind at 1.
  destruct (s !! orderId dto) as [current|] eqn:Hcur; simpl;
    [|by intros [= _ <-]].
  unfold bind at 1, lift.
  destruct (validateStatusTransition _ _); [|by intros [= _ <-]].
  rewrite bind_ret_r. apply repository_updateStatus_Err.
Qed.

(** ... and each of the three errors arises as the specification says. *)
Lemma updateStatus_errors now dto s :
  (s !! orderId dto = None →
     OrderStatusService.updateStatus JSON_parse now dto s = (Err ORDER_NOT_FOUND, s))
  ∧ (∀ current, s !! orderId dto = Some current →
       trackingStatus current = newStatus dto →
       OrderStatusService.updateStatus JSON_parse now dto s = (Err ALREADY_IN_STATUS, s))
  ∧ (∀ current, s !! orderId dto = Some current →
       trackingStatus current ≠ newStatus dto →
       getStatusStep (newStatus dto) ≠ getStatusStep (trackingStatus current) + 1 →
       OrderStatusService.updateStatus JSON_parse now dto s = (Err INVALID_TRANSITION, s)).
Proof.
  unfold OrderStatusService.updateStatus, findByOrderNumber.
  split; [|split].
  - intros H. unfold bind at 1. by rewrite H.
  - intros current H Heq. unfold bind at 1. rewrite H. simpl.
    unfold bind at 1, lift. rewrite Heq.
    by destruct (newStatus dto).
  - intros current H Hne Hstep. unfold bind at 1. rewrite H. simpl.
    unfold bind at 1, lift.
    rewrite validateStatusTransition_cases.
    destruct (decide _) as [Heq|_]; [by symmetry in Heq|].
    by destruct (decide _).
Qed.

Lemma activeCount_deactivate history : activeCount (deactivate <$> history) = 0%nat.
Proof.
  unfold activeCount. induction history as [|e history IH]; [done|].
  rewrite fmap_cons, filter_cons_False; [exact IH|]. simpl. discriminate.
Qed.

Lemma repository_updateStatus_Ok now dto s updated s' :
  OrderStatusRepository.updateStatus JSON_parse now dto s = (Ok updated, s') →
  ∃ current history,
    s !! orderId dto = Some current
    ∧ parseStatusHistory JSON_parse (statusHistory current) = JArray history
    ∧ s' = <[orderId dto :=
               applyUpdate dto ((deactivate <$> history) ++ [newEvent now dto]) current]> s
    ∧ updated = toOrderWithTracking JSON_parse (orderId dto)
                  (applyUpdate dto ((deactivate <$> history) ++ [newEvent now dto]) current).
Proof.
  unfold OrderStatusRepository.updateStatus.
  destruct (s !! orderId dto) as [current|] eqn:Hcur; [|discriminate].
  destruct (parseStatusHistory JSON_parse (statusHistory current))
    as [|history| |] eqn:Hparse; try discriminate.
  rewrite lookup_insert_eq. intros [= <- <-]. by exists current, history.
Qed.

(** C2. A successful transition stores, for the order, the history it
    had with every event set inactive, followed by one new event: the
    step of the new status, active, completed, stamped [now], with the
    actor and note of the request.  So the history is one longer, its
    last event is the new one, and that is its only active event. *)
Theorem updateStatus_appends_one_active_event now dto s updated s' :
  OrderStatusService.updateStatus JSON_parse now dto s = (Ok updated, s') →
  ∃ current order' history history' event,
    s !! orderId dto = Some current
    ∧ parseStatusHistory JSON_parse (statusHistory current) = JArray history
    ∧ s' !! orderId dto = Some order'
    ∧ (∀ other, other ≠ orderId dto → s' !! other = s !! other)
    ∧ trackingStatus order' = newStatus dto
    ∧ statusHistory order' = JArray history'
    ∧ parseStatusHistory JSON_parse (statusHistory order') = JArray history'
    ∧ owt_statusHistory updated = JArray history'
    ∧ history' = (deactivate <$> history) ++ [event]
    ∧ event = {| step := getStatusStep (newStatus dto);
                 status := newStatus dto;
                 label := formatStatusLabel (newStatus dto);
                 completed := true;
                 active := true;
                 timestamp := Some now;
                 actor := Some (dto_actor dto);
                 note := dto_note dto |}
    ∧ (∀ i e, history !! i = Some e →
         ∃ e', history' !! i = Some e' ∧ active e' = false
               ∧ step e' = step e ∧ status e' = status e ∧ label e' = label e
               ∧ completed e' = completed e ∧ timestamp e' = timestamp e
               ∧ actor e' = actor e ∧ note e' = note e)
    ∧ length history' = S (length history)
    ∧ last history' = Some event
    ∧ activeCount history' = 1%nat.
Proof.
  unfold OrderStatusService.updateStatus, findByOrderNumber.
  unfold bind at 1.
  destruct (s !! orderId dto) as [current0|] eqn:Hcur0; simpl; [|discriminate].
  unfold bind at 1, lift.
  destruct (validateStatusTransition _ _); [|discriminate].
  rewrite bind_ret_r. intros H.
  apply repository_updateStatus_Ok in H as (current & history & Hcur & Hparse & -> & ->).
  eexists current, _, history, _, _.
  split; [congruence|]. split; [done|].
  split; [apply lookup_insert_eq|].
  split; [by intros other Hne; rewrite lookup_insert_ne|].
  split; [done|]. split; [done|]. split; [done|]. split; [done|].
  split; [done|].
  split; [unfold newEvent; by rewrite getStepNumber_getStatusStep|].
  split.
  { intros i e Hi. exists (deactivate e). split; [|done].
    rewrite lookup_app_l by (rewrite length_fmap; by eapply lookup_lt_Some).
    by rewrite list_lookup_fmap, Hi. }
  split; [rewrite length_app, length_fmap; simpl; lia|].
  split; [apply last_snoc|].
  unfold activeCount. rewrite filter_app, length_app.
  fold (activeCount (deactivate <$> history)). by rewrite activeCount_deactivate.
Qed.

End OrderLifecycle.

(** ** Transaction views *)

Section StringSlices.

Lemma substring_0_length (s : string) : String.substring 0 (String.length s) s = s.
Proof. induction s as [|c s IH]; simpl; [done|by rewrite IH]. Qed.

(** Cutting a string at position [n]. *)
Lemma substring_cut (s : string) (n : nat) :
  (n ≤ String.length s)%nat →
  s = String.substring 0 n s +:+ String.substring n (String.length s - n) s
  ∧ String.length (String.substring n (String.length s - n) s)
    = (String.length s - n)%nat.
Proof.
  revert n. induction s as [|c s IH]; intros [|n] Hn; simpl in Hn; try lia.
  - done.
  - rewrite Nat.sub_0_r, substring_0_length. done.
  - destruct (IH n) as [Hcut Hlen]; [lia|].
    change (String.length (String c s) - S n)%nat with (String.length s - n)%nat.
    split; [|exact Hlen].
    change (String c s = String c (String.substring 0 n s
                                   +:+ String.substring n (String.length s - n) s)).
    by f_equal.
Qed.

End StringSlices.

Section Transactions.
Import Types OrderStatusRepository.

Variable JSON_parse : string → option JsonValue.
Context {E : Type}.

(** What [getTransactionDetails] returns comes from the row of the order. *)
Lemma getTransactionDetails_Some now orderId farmer (s s' : Orders) details :
  getTransactionDetails (E:=E) JSON_parse now orderId farmer s = (Ok (Some details), s') →
  ∃ order,
    s !! orderId = Some order
    ∧ farmerId order = farmer
    ∧ deletedAt order = None
    ∧ (trackingStatus order = PAID ∨ trackingStatus order = DELIVERED)
    ∧ canDownloadReceipt details = (daysSincePaid now order <=? 90)
    ∧ upiTxnId (payment details) = maskUpiId (upiTransactionId order)
    ∧ s' = s.
Proof.
  unfold getTransactionDetails.
  destruct (s !! orderId) as [order|] eqn:Hlook; [|discriminate].
  destruct (bool_decide (farmerId order = farmer)) eqn:Hf; [|discriminate].
  destruct (bool_decide (deletedAt order = None)) eqn:Hd; [|discriminate].
  destruct (bool_decide (trackingStatus order ∈ [PAID; DELIVERED])) eqn:Ht;
    [|discriminate].
  simpl. intros [= <- <-]. exists order.
  apply bool_decide_eq_true in Hf, Hd, Ht.
  repeat split; try done.
  apply elem_of_cons in Ht as [Ht|Ht]; [by left|right].
  by apply list_elem_of_singleton in Ht.
Qed.

(** C7. In the details of a transaction, [canDownloadReceipt] is true
    exactly when the whole number of days between the reference date
    ([paidAt], or [updatedAt] when [paidAt] is absent) and [now] is at most
    90, that is when fewer than 91 full days have passed: true at exactly
    90 days, false at exactly 91. *)
Theorem canDownloadReceipt_within_90_days now orderId farmer (s s' : Orders) details :
  getTransactionDetails (E:=E) JSON_parse now orderId farmer s = (Ok (Some details), s') →
  ∃ order reference,
    s !! orderId = Some order
    ∧ reference = match paidAt order with
                  | Some paid => paid
                  | None => updatedAt order
                  end
    ∧ (canDownloadReceipt details = true ↔ (now - reference) / msPerDay ≤ 90)
    ∧ (canDownloadReceipt details = true ↔ now - reference < 91 * msPerDay)
    ∧ (now - reference = 90 * msPerDay → canDownloadReceipt details = true)
    ∧ (now - reference = 91 * msPerDay → canDownloadReceipt details = false).
Proof.
  intros H. apply getTransactionDetails_Some in H
    as (order & Hlook & _ & _ & _ & Hcan & _ & _).
  exists order, (default (updatedAt order) (paidAt order)).
  split; [done|]. split; [by destruct (paidAt order)|].
  rewrite Hcan. unfold daysSincePaid.
  set (elapsed := now - default (updatedAt order) (paidAt order)).
  assert (Hday : 0 < msPerDay) by done.
  assert (Hiff : elapsed / msPerDay ≤ 90 ↔ elapsed < 91 * msPerDay).
  { pose proof (Z.div_mod elapsed msPerDay) as Hdm.
    pose proof (Z.mod_pos_bound elapsed msPerDay Hday) as Hmod.
    change msPerDay with 86400000 in *. lia. }
  rewrite Z.leb_le. split; [done|]. split; [done|]. split.
  - intros Heq. apply Hiff. rewrite Heq. unfold msPerDay. lia.
  - intros Heq. apply Z.leb_gt.
    enough (¬ elapsed / msPerDay ≤ 90) by lia.
    rewrite Hiff, Heq. lia.
Qed.

(** [slice(-8)] of a string longer than 8 is its last 8 characters. *)
Lemma slice_last_8 (u : string) :
  (8 < String.length u)%nat →
  ∃ front last8, u = front +:+ last8 ∧ String.length last8 = 8%nat
                 ∧ slice u (-8) = last8.
Proof.
  intros Hlen. unfold slice.
  replace (-8 <? 0) with true by done.
  rewrite Z.max_l by lia.
  replace (Z.of_nat (String.length u) - (Z.of_nat (String.length u) + -8)) with 8 by lia.
  replace (Z.to_nat (Z.of_nat (String.length u) + -8))
    with (String.length u - 8)%nat by lia.
  destruct (substring_cut u (String.length u - 8)) as [Hcut Hl]; [lia|].
  replace (String.length u - (String.length u - 8))%nat with 8%nat in * by lia.
  replace (Z.to_nat 8) with 8%nat by done.
  eauto.
Qed.

(** C10. The UPI reference shown in the details of a transaction is the
    empty string when the order has none, the stored id unchanged when it
    has at most 8 characters, and four stars followed by the last 8
    characters of the stored id when it is longer. *)
Theorem upiTxnId_masked_beyond_8 now orderId farmer (s s' : Orders) details :
  getTransactionDetails (E:=E) JSON_parse now orderId farmer s = (Ok (Some details), s') →
  ∃ order,
    s !! orderId = Some order
    ∧ match upiTransactionId order with
      | None => upiTxnId (payment details) = ""
      | Some upiId =>
          ((String.length upiId ≤ 8)%nat → upiTxnId (payment details) = upiId)
          ∧ ((8 < String.length upiId)%nat →
               ∃ front last8,
                 upiId = front +:+ last8
                 ∧ String.length last8 = 8%nat
                 ∧ upiTxnId (payment details) = "****" +:+ last8)
      end.
Proof.
  intros H. apply getTransactionDetails_Some in H
    as (order & Hlook & _ & _ & _ & _ & Hupi & _).
  exists order. split; [done|]. rewrite Hupi. unfold maskUpiId.
  destruct (upiTransactionId order) as [upiId|]; simpl; [|done].
  split.
  - intros Hle. by rewrite (proj2 (Z.ltb_ge _ _)) by lia.
  - intros Hgt. rewrite (proj2 (Z.ltb_lt _ _)) by lia.
    destruct (slice_last_8 upiId Hgt) as (front & last8 & Hcut & Hlen & ->).
    eauto.
Qed.

End Transactions.

Section DefaultDateWindow.
Import Types OrderStatusRepository TransactionService.

Context {R : Type}.
Variable repo_getTransactions : TransactionFilter → Db Orders TransactionError R.

Lemma validateFarmerId_positive farmerId :
  0 < farmerId → TransactionService.validateFarmerId farmerId = Ok tt.
Proof.
  intros Hpos. unfold TransactionService.validateFarmerId.
  by rewrite (proj2 (Z.eqb_neq _ _)), (proj2 (Z.leb_gt _ _)) by lia.
Qed.

Lemma validateFarmerId_invalid farmerId :
  farmerId ≤ 0 → TransactionService.validateFarmerId farmerId = Err INVALID_FARMER_ID.
Proof.
  intros Hle. unfold TransactionService.validateFarmerId.
  rewrite (proj2 (Z.leb_le _ _)) by lia. by rewrite orb_true_r.
Qed.

(** C8. A transactions query that gives neither [fromDate] nor [toDate]
    reaches the repository with [fromDate] set to 90 days before [now] and
    every other key as sent, and the repository then queries
    [createdAt >= now - 90 days]; a query that gives either date reaches
    the repository as it was sent, and the repository's [createdAt]
    condition is made of the dates given, whatever the repository's own
    clock [now'] reads.  (A query with an invalid farmer id is refused
    before the repository is called.) *)
Theorem getTransactions_default_90_days now now' filter :
  (tf_farmerId filter ≤ 0 →
     ∀ s, getTransactions repo_getTransactions now filter s
          = (Err INVALID_FARMER_ID, s))
  ∧ (0 < tf_farmerId filter →
     (fromDate filter = None → toDate filter = None →
        ∃ applied,
          (∀ s, getTransactions repo_getTransactions now filter s
                = repo_getTransactions applied s)
          ∧ fromDate applied = Some (now - 90 * msPerDay)
          ∧ toDate applied = None
          ∧ tf_farmerId applied = tf_farmerId filter
          ∧ tf_status applied = tf_status filter
          ∧ cropType applied = cropType filter
          ∧ sortBy applied = sortBy filter
          ∧ sortOrder applied = sortOrder filter
          ∧ page applied = page filter
          ∧ limit applied = limit filter
          ∧ where_createdAt (getTransactionsWhere now' applied)
            = Some (gte (now - 90 * msPerDay))
          ∧ (∀ created,
               dateTimeFilterHolds (gte (now - 90 * msPerDay)) created = true
               ↔ now - 90 * msPerDay ≤ created))
     ∧ (is_Some (fromDate filter) ∨ is_Some (toDate filter) →
          (∀ s, getTransactions repo_getTransactions now filter s
                = repo_getTransactions filter s)
          ∧ where_createdAt (getTransactionsWhere now' filter)
            = match toDate filter with
              | Some to => Some (lte to)
              | None => gte <$> fromDate filter
              end)).
Proof.
  split.
  { intros Hle s. unfold getTransactions. unfold bind at 1, lift.
    by rewrite validateFarmerId_invalid. }
  intros Hpos. split.
  - intros Hfrom Hto. eexists. split.
    + intros s. unfold getTransactions. unfold bind at 1, lift.
      rewrite validateFarmerId_positive by done.
      rewrite bind_ret_r. unfold appliedFilter. rewrite Hfrom, Hto. simpl.
      reflexivity.
    + simpl. unfold setDate_minus, getTransactionsWhere. simpl.
      repeat split; try done.
      * by intros ?%Z.leb_le.
      * by intros ?%Z.leb_le.
  - intros Hgiven. split.
    + intros s. unfold getTransactions. unfold bind at 1, lift.
      rewrite validateFarmerId_positive by done.
      rewrite bind_ret_r. unfold appliedFilter.
      destruct (fromDate filter), (toDate filter); try done.
      by destruct Hgiven as [[? [=]]|[? [=]]].
    + unfold getTransactionsWhere. simpl.
      destruct (fromDate filter), (toDate filter); try done.
      by destruct Hgiven as [[? [=]]|[? [=]]].
Qed.

End DefaultDateWindow.

(** ** Match lifecycle *)

Section MatchLifecycle.
Import MatchTypes MatchRepository MatchService.

Lemma repository_updateStatus_found now matchId status' details (s : Matches) m :
  s !! matchId = Some m →
  MatchRepository.updateStatus now matchId status' details s
  = (Ok {| id := matchId; row := updateData now status' details m |},
     <[matchId := updateData now status' details m]> s).
Proof. unfold MatchRepository.updateStatus. by intros ->. Qed.

Lemma findById_lookup {E} matchId (s : Matches) :
  findById (E:=E) matchId s
  = (Ok ((λ r, {| id := matchId; row := r |}) <$> s !! matchId), s).
Proof. reflexivity. Qed.

(** A pending match is accepted as long as [now] is not past [expiresAt]. *)
Lemma acceptMatch_in_time now matchId isPartial acceptedQuantity (s : Matches) m :
  s !! matchId = Some m → status m = PENDING_ACCEPTANCE → now ≤ expiresAt m →
  let accepted :=
    updateData now ACCEPTED
      (Some {| details_rejectionReason := None;
               details_orderId := Some ("ord-" +:+ pretty now) |}) m in
  acceptMatch now matchId isPartial acceptedQuantity s
  = (Ok {| id := matchId; row := accepted |}, <[matchId := accepted]> s).
Proof.
  intros Hm Hstatus Hexp. unfold acceptMatch. unfold bind at 1.
  rewrite findById_lookup, Hm. simpl.
  rewrite bool_decide_eq_true_2 by done. simpl.
  destruct (now >? expiresAt m) eqn:Hgt; [apply Z.gtb_gt in Hgt; lia|].
  by rewrite bind_ret_r, (repository_updateStatus_found _ _ _ _ _ m Hm).
Qed.

(** C3. Accepting a match: an absent match gives "not found"; a match
    that is not pending gives "no longer pending"; in both cases nothing
    is written.  A pending match whose [expiresAt] is before [now] gives
    "expired", and the match is then stored as EXPIRED.  Otherwise the
    call succeeds and the match is stored as ACCEPTED, with [acceptedAt]
    set to [now] and a non-empty [orderId]. *)
Theorem acceptMatch_outcomes now matchId isPartial acceptedQuantity (s : Matches) :
  (s !! matchId = None →
     acceptMatch now matchId isPartial acceptedQuantity s = (Err MatchNotFound, s))
  ∧ (∀ m, s !! matchId = Some m → status m ≠ PENDING_ACCEPTANCE →
       acceptMatch now matchId isPartial acceptedQuantity s = (Err NoLongerPending, s))
  ∧ (∀ m, s !! matchId = Some m → status m = PENDING_ACCEPTANCE →
       expiresAt m < now →
       ∃ s' m',
         acceptMatch now matchId isPartial acceptedQuantity s = (Err MatchHasExpired, s')
         ∧ s' !! matchId = Some m'
         ∧ status m' = EXPIRED
         ∧ orderId m' = orderId m ∧ acceptedAt m' = acceptedAt m
         ∧ (∀ other, other ≠ matchId → s' !! other = s !! other))
  ∧ (∀ m, s !! matchId = Some m → status m = PENDING_ACCEPTANCE →
       now ≤ expiresAt m →
       ∃ s' updated order,
         acceptMatch now matchId isPartial acceptedQuantity s = (Ok updated, s')
         ∧ id updated = matchId
         ∧ s' !! matchId = Some (row updated)
         ∧ status (row updated) = ACCEPTED
         ∧ acceptedAt (row updated) = Some now
         ∧ orderId (row updated) = Some order ∧ order ≠ ""
         ∧ (∀ other, other ≠ matchId → s' !! other = s !! other)).
Proof.
  unfold acceptMatch. repeat split.
  - intros Hnone. unfold bind at 1. by rewrite findById_lookup, Hnone.
  - intros m Hm Hstatus. unfold bind at 1. rewrite findById_lookup, Hm. simpl.
    by rewrite bool_decide_eq_false_2.
  - intros m Hm Hstatus Hexp. unfold bind at 1. rewrite findById_lookup, Hm. simpl.
    rewrite bool_decide_eq_true_2 by done. simpl.
    rewrite (proj2 (Z.gtb_gt _ _)) by lia.
    unfold bind at 1. rewrite (repository_updateStatus_found _ _ _ _ _ m Hm).
    eexists _, _. split; [reflexivity|].
    split; [apply lookup_insert_eq|].
    repeat split; try done.
    intros other Hne. by rewrite lookup_insert_ne.
  - intros m Hm Hstatus Hexp.
    fold (acceptMatch now matchId isPartial acceptedQuantity).
    rewrite (acceptMatch_in_time _ _ _ _ _ m Hm Hstatus Hexp).
    eexists _, _, _. split; [reflexivity|].
    split; [done|]. split; [apply lookup_insert_eq|].
    repeat split; try done.
    intros other Hne. by rewrite lookup_insert_ne.
Qed.

(** C5. Rejecting a stored match fails with "cannot be
    rejected", writing nothing, exactly when its status is neither
    PENDING_ACCEPTANCE nor EXPIRED, so for ACCEPTED and REJECTED.
    Otherwise it succeeds: the match is stored as REJECTED with
    [rejectedAt] set to [now], and the reason given is recorded when it
    is not the empty string; with an empty reason the stored reason is
    left as it was. *)
Theorem rejectMatch_outcomes now matchId reason (s : Matches) m :
  s !! matchId = Some m →
  (∀ e s', rejectMatch now matchId reason s = (Err e, s') →
     e = CannotBeRejected (status m) ∧ s' = s
     ∧ status m ≠ PENDING_ACCEPTANCE ∧ status m ≠ EXPIRED)
  ∧ (status m ≠ PENDING_ACCEPTANCE ∧ status m ≠ EXPIRED →
       (status m = ACCEPTED ∨ status m = REJECTED)
       ∧ rejectMatch now matchId reason s = (Err (CannotBeRejected (status m)), s))
  ∧ (status m = PENDING_ACCEPTANCE ∨ status m = EXPIRED →
       ∃ s' updated,
         rejectMatch now matchId reason s = (Ok updated, s')
         ∧ id updated = matchId
         ∧ s' !! matchId = Some (row updated)
         ∧ status (row updated) = REJECTED
         ∧ rejectedAt (row updated) = Some now
         ∧ (reason ≠ "" → rejectionReason (row updated) = Some reason)
         ∧ (reason = "" → rejectionReason (row updated) = rejectionReason m)
         ∧ (∀ other, other ≠ matchId → s' !! other = s !! other)).
Proof.
  intros Hm.
  assert (Hfail : status m = ACCEPTED ∨ status m = REJECTED →
            rejectMatch now matchId reason s = (Err (CannotBeRejected (status m)), s)).
  { intros Hst. unfold rejectMatch. unfold bind at 1.
    rewrite findById_lookup, Hm. simpl. by destruct Hst as [-> | ->]. }
  assert (Hsucc : status m = PENDING_ACCEPTANCE ∨ status m = EXPIRED →
            rejectMatch now matchId reason s
            = (Ok {| id := matchId;
                     row := updateData now REJECTED
                              (Some {| details_rejectionReason := Some reason;
                                       details_orderId := None |}) m |},
               <[matchId := updateData now REJECTED
                              (Some {| details_rejectionReason := Some reason;
                                       details_orderId := None |}) m]> s)).
  { intros Hst. unfold rejectMatch. unfold bind at 1.
    rewrite findById_lookup, Hm. simpl.
    destruct Hst as [-> | ->]; simpl;
      by rewrite bind_ret_r, (repository_updateStatus_found _ _ _ _ _ m Hm). }
  split; [|split].
  - intros e s' He.
    destruct (status m) eqn:Hst.
    + rewrite Hsucc in He by auto. discriminate.
    + rewrite Hfail in He by auto. by injection He as <- <-.
    + rewrite Hfail in He by auto. by injection He as <- <-.
    + rewrite Hsucc in He by auto. discriminate.
  - intros [Hp He].
    assert (status m = ACCEPTED ∨ status m = REJECTED) as Hst
      by (destruct (status m); naive_solver).
    split; [done|]. by apply Hfail.
  - intros Hst. eexists _, _. split; [by apply Hsucc|].
    split; [done|]. split; [apply lookup_insert_eq|].
    split; [done|]. split; [done|]. simpl. split; [|split].
    + intros Hne. destruct (String.eqb_spec reason ""); done.
    + by intros ->.
    + intros other Hne. by rewrite lookup_insert_ne.
Qed.

(** *** The expiry sweep *)

Lemma elem_of_rows (s : Matches) m : m ∈ rows s ↔ s !! id m = Some (row m).
Proof.
  unfold rows. rewrite list_elem_of_fmap. split.
  - intros ([k r] & -> & Hin). by apply elem_of_map_to_list in Hin.
  - intros Hm. exists (id m, row m). split; [by destruct m|].
    by apply elem_of_map_to_list.
Qed.

Lemma elem_of_expiredPending now (s : Matches) m :
  m ∈ expiredPending now s
  ↔ s !! id m = Some (row m)
    ∧ status (row m) = PENDING_ACCEPTANCE ∧ expiresAt (row m) ≤ now.
Proof.
  unfold expiredPending. rewrite list_elem_of_filter, elem_of_rows.
  unfold expiredPendingWhere. tauto.
Qed.

Lemma expiredPending_nil now (s : Matches) :
  (∀ k r, s !! k = Some r → status r = PENDING_ACCEPTANCE → now < expiresAt r) →
  expiredPending now s = [].
Proof.
  intros Hnone. destruct (expiredPending now s) as [|m l] eqn:Heq; [done|].
  assert (m ∈ expiredPending now s) as Hin by (rewrite Heq; left).
  apply elem_of_expiredPending in Hin as (Hm & Hst & Hexp).
  specialize (Hnone _ _ Hm Hst). lia.
Qed.

(** Marking a row EXPIRED twice at the same instant is marking it once. *)
Lemma updateData_EXPIRED_idemp now r :
  updateData now EXPIRED None (updateData now EXPIRED None r)
  = updateData now EXPIRED None r.
Proof. reflexivity. Qed.

(** The loop of the sweep, when every match of the batch is stored. *)
Lemma expireLoop_spec now (batch : list Match) : ∀ (s : Matches) count,
  (∀ m, m ∈ batch → is_Some (s !! id m)) →
  ∃ s',
    expireLoop now batch count s = (Ok (count + Z.of_nat (length batch)), s')
    ∧ (∀ k, k ∈ id <$> batch →
            s' !! k = updateData now EXPIRED None <$> s !! k)
    ∧ (∀ k, k ∉ id <$> batch → s' !! k = s !! k).
Proof.
  induction batch as [|m batch IH]; intros s count Hstored.
  - exists s. split; [simpl; unfold ret; do 2 f_equal; lia|].
    split; [|done]. intros k Hk. by apply elem_of_nil in Hk.
  - destruct (Hstored m) as [r Hr]; [left|].
    cbn [expireLoop]. unfold bind at 1.
    rewrite (repository_updateStatus_found _ _ _ _ _ r Hr).
    set (s1 := <[id m := updateData now EXPIRED None r]> s).
    destruct (IH s1 (count + 1)) as (s' & Hrun & Hin & Hout).
    { intros m' Hm'. unfold s1. destruct (decide (id m = id m')) as [->|Hne].
      - rewrite lookup_insert_eq. eauto.
      - rewrite lookup_insert_ne by done. apply Hstored. by right. }
    exists s'. split.
    { rewrite Hrun. do 2 f_equal. simpl length. lia. }
    assert (Hs1 : ∀ k, k = id m → s1 !! k = updateData now EXPIRED None <$> s !! k).
    { intros k ->. unfold s1. by rewrite lookup_insert_eq, Hr. }
    split.
    + intros k Hk. destruct (decide (k ∈ id <$> batch)) as [Hb|Hb].
      * rewrite (Hin k Hb). destruct (decide (k = id m)) as [->|Hne].
        -- rewrite (Hs1 (id m) eq_refl), Hr. simpl.
           by rewrite updateData_EXPIRED_idemp.
        -- unfold s1. by rewrite lookup_insert_ne.
      * rewrite (Hout k Hb). apply Hs1.
        rewrite fmap_cons in Hk. apply elem_of_cons in Hk as [?|?]; done.
    + intros k Hk. rewrite fmap_cons in Hk. apply not_elem_of_cons in Hk as [Hne Hb].
      rewrite (Hout k Hb). unfold s1. by rewrite lookup_insert_ne.
Qed.

(** What one sweep does. *)
Lemma expireMatches_run now (s : Matches) :
  ∃ s',
    expireMatches now s
    = (Ok (Z.of_nat (length (take 100 (expiredPending now s)))), s')
    ∧ (∀ k, k ∈ id <$> take 100 (expiredPending now s) →
            s' !! k = updateData now EXPIRED None <$> s !! k)
    ∧ (∀ k, k ∉ id <$> take 100 (expiredPending now s) → s' !! k = s !! k).
Proof.
  unfold expireMatches, findExpiredPendingMatches. unfold bind at 1.
  destruct (expireLoop_spec now (take 100 (expiredPending now s)) s 0)
    as (s' & Hrun & Hin & Hout).
  { intros m Hm. apply subseteq_take in Hm.
    apply elem_of_expiredPending in Hm as (Hm & _). eauto. }
  exists s'. by rewrite Hrun.
Qed.

Lemma NoDup_rows_id (s : Matches) : NoDup (id <$> rows s).
Proof.
  unfold rows. rewrite <- list_fmap_compose.
  apply (NoDup_fst_map_to_list s).
Qed.

Lemma NoDup_batch_id now (s : Matches) :
  NoDup (id <$> take 100 (expiredPending now s)).
Proof.
  eapply sublist_NoDup; [apply NoDup_rows_id|].
  apply fmap_sublist. etrans; [apply sublist_take|]. apply sublist_filter.
Qed.

(** A sweep that took every due match leaves none due, also at a later
    instant [now2], unless a match falls due between the two instants. *)
Lemma expiredPending_after_sweep now now2 (s s' : Matches) :
  (length (expiredPending now s) ≤ 100)%nat →
  (∀ k r, s !! k = Some r → status r = PENDING_ACCEPTANCE →
          expiresAt r ≤ now2 → expiresAt r ≤ now) →
  (∀ k, k ∈ id <$> take 100 (expiredPending now s) →
        s' !! k = updateData now EXPIRED None <$> s !! k) →
  (∀ k, k ∉ id <$> take 100 (expiredPending now s) → s' !! k = s !! k) →
  expiredPending now2 s' = [].
Proof.
  intros Hall Hnew Hin Hout. apply expiredPending_nil. intros k r' Hr' Hst.
  destruct (decide (k ∈ id <$> take 100 (expiredPending now s))) as [Hk|Hk].
  - rewrite (Hin k Hk) in Hr'. destruct (s !! k) as [r|]; [|done].
    injection Hr' as <-. done.
  - rewrite (Hout k Hk) in Hr'.
    destruct (decide (expiresAt r' ≤ now2)) as [Hdue|?]; [|lia].
    exfalso. apply Hk. rewrite take_ge by done.
    apply (list_elem_of_fmap_2' id _ {| id := k; row := r' |}); [|done].
    apply elem_of_expiredPending. eauto.
Qed.

(** C4. One sweep takes the matches that are
    PENDING_ACCEPTANCE with [expiresAt <= now], at most 100 of them and
    all of them when there are at most 100, stores each of them as
    EXPIRED, leaves every other match as it was, and returns how many it
    took.  When no match is due it returns 0 and the table is unchanged.
    When at most 100 matches were due, a second sweep right after it (at
    [now2], no match having fallen due in between) returns 0 and changes
    nothing. *)
Theorem expireMatches_sweep now (s : Matches) :
  ∃ selected s',
    expireMatches now s = (Ok (Z.of_nat (length selected)), s')
    ∧ length selected = (100 `min` length (expiredPending now s))%nat
    ∧ NoDup (id <$> selected)
    ∧ (∀ m, m ∈ selected →
         s !! id m = Some (row m)
         ∧ status (row m) = PENDING_ACCEPTANCE ∧ expiresAt (row m) ≤ now)
    ∧ ((length (expiredPending now s) ≤ 100)%nat →
         ∀ k r, s !! k = Some r → status r = PENDING_ACCEPTANCE →
                expiresAt r ≤ now → {| id := k; row := r |} ∈ selected)
    ∧ (∀ m, m ∈ selected →
         ∃ r', s' !! id m = Some r' ∧ status r' = EXPIRED
               ∧ expiresAt r' = expiresAt (row m) ∧ orderId r' = orderId (row m)
               ∧ acceptedAt r' = acceptedAt (row m)
               ∧ rejectedAt r' = rejectedAt (row m))
    ∧ (∀ k, (∀ m, m ∈ selected → id m ≠ k) → s' !! k = s !! k)
    ∧ ((∀ k r, s !! k = Some r → status r = PENDING_ACCEPTANCE → now < expiresAt r) →
         selected = [] ∧ s' = s)
    ∧ ((length (expiredPending now s) ≤ 100)%nat →
         ∀ now2,
           (∀ k r, s !! k = Some r → status r = PENDING_ACCEPTANCE →
                   expiresAt r ≤ now2 → expiresAt r ≤ now) →
           expireMatches now2 s' = (Ok 0, s')).
Proof.
  destruct (expireMatches_run now s) as (s' & Hrun & Hin & Hout).
  exists (take 100 (expiredPending now s)), s'.
  split; [done|]. split; [apply length_take|]. split; [apply NoDup_batch_id|].
  split.
  { intros m Hm. apply subseteq_take in Hm. by apply elem_of_expiredPending. }
  split.
  { intros Hall k r Hr Hst Hexp. rewrite take_ge by done.
    by apply elem_of_expiredPending. }
  split.
  { intros m Hm. rewrite (Hin (id m)) by by apply list_elem_of_fmap_2.
    apply subseteq_take, elem_of_expiredPending in Hm as (-> & _ & _).
    by eexists. }
  split.
  { intros k Hk. apply Hout. intros (m & -> & Hm)%list_elem_of_fmap.
    by apply (Hk m). }
  split.
  { intros Hnone. apply expiredPending_nil in Hnone. revert Hrun.
    unfold expireMatches, findExpiredPendingMatches. unfold bind at 1.
    rewrite Hnone. simpl. unfold ret. by intros [= <-]. }
  intros Hall now2 Hnew.
  pose proof (expiredPending_after_sweep now now2 s s' Hall Hnew Hin Hout) as Hnil.
  unfold expireMatches, findExpiredPendingMatches. unfold bind at 1.
  by rewrite Hnil.
Qed.

(** C9. A pending match whose [expiresAt] is exactly [now]: accepting it
    succeeds, because the test for expiry is [now > expiresAt]; the sweep's
    condition [expiresAt <= now] already holds of it, so the sweep counts
    it among the due matches and, when it takes all of them, stores it as
    EXPIRED; and no listing of pending matches shows it, because that
    listing asks for [expiresAt > now]. *)
Theorem expiry_instant_boundary now matchId (s : Matches) m :
  s !! matchId = Some m →
  status m = PENDING_ACCEPTANCE →
  expiresAt m = now →
  (∀ isPartial acceptedQuantity,
     ∃ s' updated,
       acceptMatch now matchId isPartial acceptedQuantity s = (Ok updated, s')
       ∧ s' !! matchId = Some (row updated)
       ∧ status (row updated) = ACCEPTED)
  ∧ expiredPendingWhere now {| id := matchId; row := m |}
  ∧ {| id := matchId; row := m |} ∈ expiredPending now s
  ∧ ((length (expiredPending now s) ≤ 100)%nat →
       ∃ count s' m',
         expireMatches now s = (Ok count, s')
         ∧ s' !! matchId = Some m' ∧ status m' = EXPIRED)
  ∧ ¬ pendingWhere now (farmerId m) {| id := matchId; row := m |}
  ∧ (∀ farmer limit offset listed s',
       findPendingByFarmerId (E:=MatchError) now farmer limit offset s
       = (Ok listed, s') →
       ∀ x, x ∈ listed → id x ≠ matchId).
Proof.
  intros Hm Hst Hexp.
  assert (Hdue : {| id := matchId; row := m |} ∈ expiredPending now s).
  { apply elem_of_expiredPending. simpl. split; [done|]. split; [done|]. lia. }
  split.
  { intros isPartial acceptedQuantity.
    rewrite (acceptMatch_in_time _ _ _ _ _ m Hm Hst) by lia.
    eexists _, _. split; [reflexivity|]. split; [apply lookup_insert_eq|done]. }
  split; [split; simpl; [done|lia]|].
  split; [done|].
  split.
  { intros Hall. destruct (expireMatches_run now s) as (s' & Hrun & Hin & _).
    eexists _, s', _. split; [exact Hrun|].
    rewrite (Hin matchId), Hm; [done|].
    rewrite take_ge by done.
    by apply (list_elem_of_fmap_2' id _ {| id := matchId; row := m |}). }
  split.
  { unfold pendingWhere. simpl. lia. }
  intros farmer limit offset listed s'. unfold findPendingByFarmerId.
  intros [= <- <-] x Hx Hid.
  apply subseteq_take, subseteq_drop in Hx.
  rewrite merge_sort_Permutation in Hx.
  apply list_elem_of_filter in Hx as [(_ & _ & Hlt) Hx].
  apply elem_of_rows in Hx. rewrite Hid, Hm in Hx. injection Hx as Hx.
  rewrite <- Hx in Hlt. lia.
Qed.

End MatchLifecycle.

(** * The operations on the sample data *)

Section OrderScenarios.
Import Types OrderStatusRepository OrderStatusService Examples.

(** ORD-1 is at LISTED: the transition to MATCHED at instant 1000 succeeds
    and leaves a history of two events, the second one alone active. *)
Lemma updateStatus_appends_one_active_event_witness :
  OrderStatusService.updateStatus no_parse 1000 (transition MATCHED) orders
  = (Ok (toOrderWithTracking no_parse "ORD-1" (ORD_1_matched 1000)),
     <["ORD-1" := ORD_1_matched 1000]> orders)
  ∧ ∃ order' history',
      (<["ORD-1" := ORD_1_matched 1000]> orders) !! "ORD-1" = Some order'
      ∧ statusHistory order' = JArray history'
      ∧ last history' = Some (matchedEvent 1000)
      ∧ activeCount history' = 1%nat.
Proof.
  split; [reflexivity|].
  destruct (updateStatus_appends_one_active_event no_parse 1000
              (transition MATCHED) orders
              (toOrderWithTracking no_parse "ORD-1" (ORD_1_matched 1000))
              (<["ORD-1" := ORD_1_matched 1000]> orders) eq_refl)
    as (current & order' & history & history' & event
        & _ & _ & Horder' & _ & _ & Hhist & _ & _ & _ & Hevent & _ & _ & Hlast & Hact).
  exists order', history'. rewrite Hevent in Hlast. done.
Defined.

(** ORD-1 is at LISTED: the transition to DELIVERED is refused and the
    table is unchanged. *)
Lemma updateStatus_failure_leaves_orders_unchanged_witness :
  OrderStatusService.updateStatus no_parse 1000 (transition DELIVERED) orders
  = (Err INVALID_TRANSITION, orders)
  ∧ orders = orders ∧ orders !! "ORD-1" = orders !! "ORD-1".
Proof.
  split; [reflexivity|].
  apply (updateStatus_failure_leaves_orders_unchanged no_parse 1000
           (transition DELIVERED) orders INVALID_TRANSITION orders).
  reflexivity.
Defined.

(** The details of ORD-2, paid at instant 5000, read [days] days later. *)
Definition ORD_2_details (days : Z) (receipt : bool) : TransactionDetails :=
  {| td_id := "ORD-2"; timeline := JArray [];
     payment := {| upiTxnId := "****ABCD1234"; pb_paidAt := Some 5000 |};
     td_createdAt := 0; canDownloadReceipt := receipt |}.

(** Exactly 90 days after the payment the receipt can be downloaded;
    exactly 91 days after it, no longer. *)
Lemma canDownloadReceipt_within_90_days_witness :
  getTransactionDetails (E:=unit) no_parse (5000 + 90 * msPerDay) "ORD-2" 123 orders
  = (Ok (Some (ORD_2_details 90 true)), orders)
  ∧ getTransactionDetails (E:=unit) no_parse (5000 + 91 * msPerDay) "ORD-2" 123 orders
    = (Ok (Some (ORD_2_details 91 false)), orders)
  ∧ canDownloadReceipt (ORD_2_details 90 true) = true
  ∧ canDownloadReceipt (ORD_2_details 91 false) = false.
Proof.
  split; [reflexivity|]. split; [reflexivity|]. split.
  - destruct (canDownloadReceipt_within_90_days (E:=unit) no_parse
                (5000 + 90 * msPerDay) "ORD-2" 123 orders orders
                (ORD_2_details 90 true) eq_refl)
      as (order & reference & Horder & -> & _ & _ & H90 & _).
    injection Horder as <-. apply H90. reflexivity.
  - destruct (canDownloadReceipt_within_90_days (E:=unit) no_parse
                (5000 + 91 * msPerDay) "ORD-2" 123 orders orders
                (ORD_2_details 91 false) eq_refl)
      as (order & reference & Horder & -> & _ & _ & _ & H91).
    injection Horder as <-. apply H91. reflexivity.
Defined.

(** The UPI id of ORD-2 has 15 characters: its last 8 are shown. *)
Lemma upiTxnId_masked_beyond_8_witness :
  getTransactionDetails (E:=unit) no_parse 9000 "ORD-2" 123 orders
  = (Ok (Some (ORD_2_details 0 true)), orders)
  ∧ ∃ order,
      orders !! "ORD-2" = Some order
      ∧ match upiTransactionId order with
        | None => upiTxnId (payment (ORD_2_details 0 true)) = ""
        | Some upiId =>
            ((String.length upiId ≤ 8)%nat →
               upiTxnId (payment (ORD_2_details 0 true)) = upiId)
            ∧ ((8 < String.length upiId)%nat →
                 ∃ front last8,
                   upiId = front +:+ last8
                   ∧ String.length last8 = 8%nat
                   ∧ upiTxnId (payment (ORD_2_details 0 true)) = "****" +:+ last8)
        end.
Proof.
  split; [reflexivity|].
  apply (upiTxnId_masked_beyond_8 (E:=unit) no_parse 9000 "ORD-2" 123 orders orders
           (ORD_2_details 0 true)).
  reflexivity.
Defined.

(** A repository that answers with the filter it was called with shows
    what the service hands to it. *)
Lemma getTransactions_default_90_days_witness :
  0 < tf_farmerId (queryOfFarmer None None)
  ∧ ∃ applied,
      TransactionService.getTransactions ret (100 * msPerDay)
        (queryOfFarmer None None) orders = (Ok applied, orders)
      ∧ fromDate applied = Some (10 * msPerDay)
      ∧ where_createdAt (getTransactionsWhere (100 * msPerDay + 5) applied)
        = Some (gte (10 * msPerDay)).
Proof.
  split; [reflexivity|].
  destruct (getTransactions_default_90_days
              (ret : TransactionFilter → Db Orders _ _)
              (100 * msPerDay) (100 * msPerDay + 5) (queryOfFarmer None None))
    as [_ Hvalid].
  destruct (Hvalid eq_refl) as [Hdefault _].
  destruct (Hdefault eq_refl eq_refl)
    as (applied & Hrun & Hfrom & _ & _ & _ & _ & _ & _ & _ & _ & Hwhere & _).
  exists applied. split; [apply Hrun|]. split; [exact Hfrom|exact Hwhere].
Defined.

End OrderScenarios.

Section MatchScenarios.
Import MatchTypes MatchRepository MatchService Examples.

(** The four outcomes of accepting, on the sample matches: an unknown id,
    the accepted match, the pending match after its deadline, and the
    pending match before its deadline. *)
Lemma acceptMatch_outcomes_witness :
  acceptMatch 2000 "m-unknown" false None matches = (Err MatchNotFound, matches)
  ∧ acceptMatch 2000 "m-accepted" false None matches = (Err NoLongerPending, matches)
  ∧ (∃ s' m', acceptMatch 2000 "m-pending" false None matches = (Err MatchHasExpired, s')
              ∧ s' !! "m-pending" = Some m' ∧ status m' = EXPIRED)
  ∧ (∃ s' updated order,
       acceptMatch 500 "m-pending" false None matches = (Ok updated, s')
       ∧ status (row updated) = ACCEPTED
       ∧ acceptedAt (row updated) = Some 500
       ∧ orderId (row updated) = Some order ∧ order ≠ "").
Proof.
  split; [|split; [|split]].
  - apply (acceptMatch_outcomes 2000 "m-unknown" false None matches). reflexivity.
  - apply (acceptMatch_outcomes 2000 "m-accepted" false None matches)
      with (m := matchRow ACCEPTED 1000); [reflexivity|discriminate].
  - destruct (acceptMatch_outcomes 2000 "m-pending" false None matches)
      as (_ & _ & Hexpired & _).
    destruct (Hexpired (matchRow PENDING_ACCEPTANCE 1000))
      as (s' & m' & Hrun & Hm' & Hst & _); [reflexivity|reflexivity|reflexivity|].
    by exists s', m'.
  - destruct (acceptMatch_outcomes 500 "m-pending" false None matches)
      as (_ & _ & _ & Haccepted).
    destruct (Haccepted (matchRow PENDING_ACCEPTANCE 1000))
      as (s' & updated & order & Hrun & _ & _ & Hst & Hat & Horder & Hne & _);
      [reflexivity|reflexivity|discriminate|].
    by exists s', updated, order.
Defined.

(** The expired match is rejected with a reason, and the reason is stored. *)
Lemma rejectMatch_outcomes_witness :
  matches !! "m-expired" = Some (matchRow EXPIRED 1000)
  ∧ ∃ s' updated,
      rejectMatch 2000 "m-expired" "SOLD_ELSEWHERE" matches = (Ok updated, s')
      ∧ s' !! "m-expired" = Some (row updated)
      ∧ status (row updated) = REJECTED
      ∧ rejectedAt (row updated) = Some 2000
      ∧ rejectionReason (row updated) = Some "SOLD_ELSEWHERE".
Proof.
  split; [reflexivity|].
  destruct (rejectMatch_outcomes 2000 "m-expired" "SOLD_ELSEWHERE" matches
              (matchRow EXPIRED 1000) eq_refl) as (_ & _ & Hok).
  destruct Hok as (s' & updated & Hrun & _ & Hs' & Hst & Hat & Hreason & _);
    [by right|].
  exists s', updated. repeat split; try done. by apply Hreason.
Defined.

(** An empty reason is not recorded: the pending match is stored as
    REJECTED with no reason at all, not with the reason given, the empty
    string. *)
Lemma rejectMatch_empty_reason_counterexample :
  ∃ s' updated,
    rejectMatch 500 "m-pending" "" matches = (Ok updated, s')
    ∧ s' !! "m-pending" = Some (row updated)
    ∧ status (row updated) = REJECTED
    ∧ rejectionReason (row updated) = None
    ∧ rejectionReason (row updated) ≠ Some "".
Proof.
  eexists _, _. split; [reflexivity|]. by repeat split.
Qed.

(** On the sample matches one sweep at the deadline takes the pending
    match, and a second sweep takes nothing. *)
Lemma expireMatches_sweep_witness :
  ∃ s', expireMatches 1000 matches = (Ok 1, s')
        ∧ expireMatches 1000 s' = (Ok 0, s').
Proof.
  destruct (expireMatches_sweep 1000 matches)
    as (selected & s' & Hrun & Hlen & _ & _ & _ & _ & _ & _ & Hagain).
  exists s'. split.
  - rewrite Hrun, Hlen. reflexivity.
  - apply Hagain; [vm_compute; lia|]. intros k r _ _ Hdue. exact Hdue.
Defined.

(** With 101 matches due, the sweep takes 100 of them and a second sweep,
    run at the same instant on the table the first one left, takes the
    last one: it returns 1, not 0. *)
Lemma expireMatches_second_sweep_counterexample :
  (expireMatches 0 (dueMatches 101)).1 = Ok 100
  ∧ (expireMatches 0 (expireMatches 0 (dueMatches 101)).2).1 = Ok 1
  ∧ (expireMatches 0 (expireMatches 0 (dueMatches 101)).2).1 ≠ Ok 0.
Proof.
  split; [by vm_compute|]. split; [by vm_compute|]. by vm_compute.
Qed.

(** The pending sample match at its deadline, instant 1000. *)
Lemma expiry_instant_boundary_witness :
  matches !! "m-pending" = Some (matchRow PENDING_ACCEPTANCE 1000)
  ∧ (∃ s' updated,
       acceptMatch 1000 "m-pending" false None matches = (Ok updated, s')
       ∧ status (row updated) = ACCEPTED)
  ∧ (∃ count s' m',
       expireMatches 1000 matches = (Ok count, s')
       ∧ s' !! "m-pending" = Some m' ∧ status m' = EXPIRED)
  ∧ (∀ listed s',
       getPendingMatches 1000 1001 matches = (Ok listed, s') →
       ∀ x, x ∈ listed → id x ≠ "m-pending").
Proof.
  split; [reflexivity|].
  destruct (expiry_instant_boundary 1000 "m-pending" matches
              (matchRow PENDING_ACCEPTANCE 1000) eq_refl eq_refl eq_refl)
    as (Haccept & _ & _ & Hsweep & _ & Hlist).
  split; [|split].
  - destruct (Haccept false None) as (s' & updated & Hrun & _ & Hst).
    by exists s', updated.
  - apply Hsweep. vm_compute. lia.
  - intros listed s'. apply Hlist.
Defined.

End MatchScenarios.

(** * Further properties of the code *)

(** ** The stage chain *)

Section StageChain.
Import Types OrderStatusRepository.

(** X1. Following valid transitions from a stage leads exactly to the
    stages at the same or a later step: the transition table has no way
    back and no way around a stage, and every later stage is reached. *)
Theorem valid_transitions_reach_later_stages (a b : OrderTrackingStatus) :
  rtc (λ x y, isValidTransition x y = true) a b ↔ getStatusStep a ≤ getStatusStep b.
Proof.
  split.
  - induction 1 as [x|x y z Hxy _ IH]; [lia|].
    destruct x, y; try discriminate Hxy; simpl in *; lia.
  - assert (H1 : isValidTransition LISTED MATCHED = true) by done.
    assert (H2 : isValidTransition MATCHED PICKUP_SCHEDULED = true) by done.
    assert (H3 : isValidTransition PICKUP_SCHEDULED AT_DROP_POINT = true) by done.
    assert (H4 : isValidTransition AT_DROP_POINT IN_TRANSIT = true) by done.
    assert (H5 : isValidTransition IN_TRANSIT DELIVERED = true) by done.
    assert (H6 : isValidTransition DELIVERED PAID = true) by done.
    destruct a, b; simpl; intros Hle; try lia;
      eauto 8 using rtc_refl, rtc_l.
Qed.

(** X2. An order counts as active exactly when its status has a valid next
    stage, that is when its step is below the seventh. *)
Theorem isActiveOrder_iff_next_stage (status : OrderTrackingStatus) :
  (isActiveOrder status = true ↔ ∃ next, isValidTransition status next = true)
  ∧ (isActiveOrder status = true ↔ getStatusStep status < 7).
Proof.
  split.
  - split.
    + intros Hactive. destruct status; try discriminate Hactive;
        [by exists MATCHED|by exists PICKUP_SCHEDULED|by exists AT_DROP_POINT
        |by exists IN_TRANSIT|by exists DELIVERED|by exists PAID].
    + intros [next Hnext]. by destruct status.
  - split.
    + intros Hactive. destruct status; try discriminate Hactive; simpl; lia.
    + intros Hstep. destruct status; simpl in *; done || lia.
Qed.

(** X3. The generated timeline of a status has the seven stages in order,
    each with its own step and the label the repository also uses; the
    event of the current status alone is active; an event is completed
    exactly when its step is before the current one, so the active event
    is not completed (the repository stores its events as completed); and
    an event carries a timestamp, the instant read for it, exactly when
    its step is at most the current one. *)
Theorem generateTimeline_shape now (currentStatus : OrderTrackingStatus) :
  status <$> generateTimeline now currentStatus = all_statuses
  ∧ step <$> generateTimeline now currentStatus = [1; 2; 3; 4; 5; 6; 7]
  ∧ activeCount (generateTimeline now currentStatus) = 1%nat
  ∧ Z.of_nat (length (filter (λ e, completed e = true)
                        (generateTimeline now currentStatus)))
    = getStatusStep currentStatus - 1
  ∧ Forall (λ e,
        step e = getStepNumber (status e)
        ∧ label e = OrderStatusRepository.formatStatusLabel (status e)
        ∧ (active e = true ↔ status e = currentStatus)
        ∧ (completed e = true ↔ step e < getStatusStep currentStatus)
        ∧ (active e = true → completed e = false)
        ∧ (timestamp e = Some (now (status e))
           ↔ step e ≤ getStatusStep currentStatus)
        ∧ (timestamp e = None ↔ getStatusStep currentStatus < step e)
        ∧ actor e = None ∧ note e = None)
      (generateTimeline now currentStatus).
Proof.
  split; [done|]. split; [done|].
  split; [by destruct currentStatus|]. split; [by destruct currentStatus|].
  destruct currentStatus; repeat constructor; simpl; try done; try lia.
Qed.

End StageChain.

(** ** Orders under any sequence of requests *)

Section OrdersUnderRequests.
Import Types OrderStatusRepository OrderStatusService OrderRequests.

Variable JSON_parse : string → option JsonValue.

Lemma service_updateStatus_unfold now dto (s : Orders) :
  OrderStatusService.updateStatus JSON_parse now dto s
  = match s !! orderId dto with
    | None => (Err ORDER_NOT_FOUND, s)
    | Some current =>
        match validateStatusTransition (trackingStatus current) (newStatus dto) with
        | Err e => (Err e, s)
        | Ok _ =>
            match parseStatusHistory JSON_parse (statusHistory current) with
            | JArray history =>
                let order' :=
                  applyUpdate dto ((deactivate <$> history) ++ [newEvent now dto])
                    current in
                (Ok (toOrderWithTracking JSON_parse (orderId dto) order'),
                 <[orderId dto := order']> s)
            | _ => (Err TypeError, s)
            end
        end
    end.
Proof.
  unfold OrderStatusService.updateStatus, findByOrderNumber. unfold bind at 1.
  destruct (s !! orderId dto) as [current|] eqn:Hcur; simpl; [|done].
  unfold bind at 1, lift.
  destruct (validateStatusTransition _ _) as [[]|e]; [|done].
  rewrite bind_ret_r. unfold OrderStatusRepository.updateStatus. rewrite Hcur.
  destruct (parseStatusHistory JSON_parse (statusHistory current)); try done.
  by rewrite lookup_insert_eq.
Qed.

(** The two ways a transition request ends. *)
Lemma service_updateStatus_cases now dto (s : Orders) :
  (∃ e, OrderStatusService.updateStatus JSON_parse now dto s = (Err e, s))
  ∨ (∃ current history,
       s !! orderId dto = Some current
       ∧ validateStatusTransition (trackingStatus current) (newStatus dto) = Ok tt
       ∧ parseStatusHistory JSON_parse (statusHistory current) = JArray history
       ∧ OrderStatusService.updateStatus JSON_parse now dto s
         = (Ok (toOrderWithTracking JSON_parse (orderId dto)
                  (applyUpdate dto ((deactivate <$> history) ++ [newEvent now dto])
                     current)),
            <[orderId dto :=
                applyUpdate dto ((deactivate <$> history) ++ [newEvent now dto])
                  current]> s)).
Proof.
  rewrite service_updateStatus_unfold.
  destruct (s !! orderId dto) as [current|] eqn:Hcur; [|left; by eexists].
  destruct (validateStatusTransition _ _) as [[]|e] eqn:Hval; [|left; by eexists].
  destruct (parseStatusHistory JSON_parse (statusHistory current))
    as [|history| |] eqn:Hparse; try (left; by eexists).
  right. by exists current, history.
Qed.

(** The two ways a delay request ends. *)
Lemma service_updateDelay_cases dto (s : Orders) :
  (s !! ud_orderId dto = None
   ∧ OrderStatusService.updateDelay JSON_parse dto s
     = (Err (StatusError ORDER_NOT_FOUND), s))
  ∨ (∃ order order',
       s !! ud_orderId dto = Some order
       ∧ OrderStatusService.updateDelay JSON_parse dto s
         = (Ok tt, <[ud_orderId dto := order']> s)
       ∧ delayMinutes order' = Some (ud_delayMinutes dto)
       ∧ delayReason order' = Some (ud_reason dto)
       ∧ eta order' = match ud_newEta dto with
                      | Some e => Some e
                      | None => eta order
                      end
       ∧ trackingStatus order' = trackingStatus order
       ∧ statusHistory order' = statusHistory order
       ∧ farmerId order' = farmerId order
       ∧ createdAt order' = createdAt order
       ∧ paidAt order' = paidAt order
       ∧ deletedAt order' = deletedAt order
       ∧ upiTransactionId order' = upiTransactionId order
       ∧ haulerOf order' = haulerOf order).
Proof.
  assert (Hrun : OrderStatusService.updateDelay JSON_parse dto s
                 = match s !! ud_orderId dto with
                   | None => (Err (StatusError ORDER_NOT_FOUND), s)
                   | Some _ =>
                       OrderStatusRepository.updateDelay (ud_orderId dto)
                         (ud_delayMinutes dto) (ud_reason dto) (ud_newEta dto) s
                   end).
  { unfold OrderStatusService.updateDelay, findByOrderNumber.
    by destruct (s !! ud_orderId dto). }
  rewrite Hrun. unfold OrderStatusRepository.updateDelay.
  destruct (s !! ud_orderId dto) as [order|] eqn:Hcur; [right|by left].
  eexists order, _. split; [done|]. split; [done|]. by repeat split.
Qed.

(** X4. A delay update of an order that does not exist fails with
    ORDER_NOT_FOUND and changes nothing.  Otherwise it succeeds: it stores
    the delay and its reason (also an empty one), replaces the ETA only
    when a new one is given, and leaves the status, the history and every
    other order as they were. *)
Theorem updateDelay_outcomes dto (s : Orders) :
  (s !! ud_orderId dto = None →
     OrderStatusService.updateDelay JSON_parse dto s
     = (Err (StatusError ORDER_NOT_FOUND), s))
  ∧ (∀ order, s !! ud_orderId dto = Some order →
       ∃ s' order',
         OrderStatusService.updateDelay JSON_parse dto s = (Ok tt, s')
         ∧ s' !! ud_orderId dto = Some order'
         ∧ delayMinutes order' = Some (ud_delayMinutes dto)
         ∧ delayReason order' = Some (ud_reason dto)
         ∧ eta order' = match ud_newEta dto with
                        | Some e => Some e
                        | None => eta order
                        end
         ∧ trackingStatus order' = trackingStatus order
         ∧ statusHistory order' = statusHistory order
         ∧ (∀ other, other ≠ ud_orderId dto → s' !! other = s !! other)).
Proof.
  destruct (service_updateDelay_cases dto s)
    as [[Hnone Hrun]|(order & order' & Hsome & Hrun & Hd & Hr & He & Ht & Hh & _)].
  - split; [done|]. intros order Hsome. congruence.
  - split; [congruence|]. intros order0 Hsome0.
    assert (order0 = order) as -> by congruence.
    eexists _, order'. split; [exact Hrun|].
    split; [apply lookup_insert_eq|]. repeat split; try done.
    intros other Hne. by rewrite lookup_insert_ne.
Qed.

Lemma validateStatusTransition_Ok_step current new :
  validateStatusTransition current new = Ok tt →
  getStatusStep new = getStatusStep current + 1.
Proof.
  rewrite validateStatusTransition_cases.
  destruct (decide (new = current)); [done|]. by destruct (decide _).
Qed.

Lemma evolves_refl order : evolves order order.
Proof. unfold evolves. repeat split; lia. Qed.

Lemma evolves_trans o1 o2 o3 : evolves o1 o2 → evolves o2 o3 → evolves o1 o3.
Proof. unfold evolves. intros (?&?&?&?&?) (?&?&?&?&?). repeat split; try congruence. lia. Qed.

(** A transition that succeeds keeps a consistent history consistent. *)
Lemma applyUpdate_consistent now dto current history :
  validateStatusTransition (trackingStatus current) (newStatus dto) = Ok tt →
  parseStatusHistory JSON_parse (statusHistory current) = JArray history →
  timelineConsistent current →
  timelineConsistent
    (applyUpdate dto ((deactivate <$> history) ++ [newEvent now dto]) current).
Proof.
  intros Hval Hparse (h0 & Hh0 & Hlast & Hsteps & Hchain & Hactive).
  rewrite Hh0 in Hparse. injection Hparse as ->.
  apply validateStatusTransition_Ok_step in Hval.
  exists ((deactivate <$> history) ++ [newEvent now dto]).
  split; [done|]. split; [by rewrite last_snoc|]. split; [|split].
  - apply Forall_app. split.
    + apply Forall_fmap. eapply Forall_impl; [exact Hsteps|]. by intros e He.
    + constructor; [|constructor]. simpl. apply getStepNumber_getStatusStep.
  - intros i e e' He He'.
    destruct (decide (S i < length history)%nat) as [Hlt|Hge].
    + rewrite lookup_app_l in He, He' by (rewrite length_fmap; lia).
      rewrite list_lookup_fmap in He, He'.
      destruct (history !! i) as [e0|] eqn:He0; [|done].
      destruct (history !! S i) as [e0'|] eqn:He0'; [|done].
      injection He as <-. injection He' as <-. simpl. by eapply Hchain.
    + destruct (decide (S i = length history)) as [Heq|Hne].
      * rewrite lookup_app_l in He by (rewrite length_fmap; lia).
        rewrite lookup_app_r in He' by (rewrite length_fmap; lia).
        rewrite length_fmap, Heq, Nat.sub_diag in He'. injection He' as <-.
        rewrite list_lookup_fmap in He.
        destruct (history !! i) as [e0|] eqn:He0; [|done]. injection He as <-.
        assert (last history = Some e0) as Hl.
        { rewrite last_lookup. rewrite <- Heq. exact He0. }
        rewrite Hl in Hlast. injection Hlast as Hst.
        rewrite Forall_forall in Hsteps.
        specialize (Hsteps e0 (list_elem_of_lookup_2 _ _ _ He0)).
        simpl. rewrite getStepNumber_getStatusStep, Hval, Hsteps, Hst. done.
      * apply lookup_lt_Some in He'.
        rewrite length_app, length_fmap in He'. simpl in He'. lia.
  - intros i e He. rewrite length_app, length_fmap. simpl length.
    destruct (decide (i < length history)%nat) as [Hlt|Hge].
    + rewrite lookup_app_l in He by (rewrite length_fmap; lia).
      rewrite list_lookup_fmap in He.
      destruct (history !! i) as [e0|]; [|done]. injection He as <-. simpl.
      split; [done|lia].
    + pose proof (lookup_lt_Some _ _ _ He) as Hi.
      rewrite length_app, length_fmap in Hi. simpl in Hi.
      assert (i = length history) as -> by lia.
      rewrite lookup_app_r in He by (rewrite length_fmap; lia).
      rewrite length_fmap, Nat.sub_diag in He. injection He as <-. simpl.
      split; [lia|done].
Qed.

(** What one request does to the order under key [k]. *)
Lemma serve_step request (s : Orders) k :
  (serve JSON_parse request s !! k = None ↔ s !! k = None)
  ∧ (∀ order, s !! k = Some order →
       ∃ order', serve JSON_parse request s !! k = Some order'
                 ∧ evolves order order'
                 ∧ (timelineConsistent order → timelineConsistent order')).
Proof.
  destruct request as [now dto|dto]; simpl.
  - destruct (service_updateStatus_cases now dto s)
      as [[e ->]|(current & history & Hcur & Hval & Hparse & ->)]; simpl.
    { split; [done|]. intros order Ho. exists order. eauto using evolves_refl. }
    destruct (decide (k = orderId dto)) as [->|Hne].
    + rewrite lookup_insert_eq, Hcur. split; [done|].
      intros order [= <-]. eexists. split; [done|]. split.
      * unfold evolves. simpl. repeat split; try done.
        apply validateStatusTransition_Ok_step in Hval. lia.
      * by apply applyUpdate_consistent.
    + rewrite lookup_insert_ne by done. split; [done|].
      intros order Ho. exists order. eauto using evolves_refl.
  - destruct (service_updateDelay_cases dto s)
      as [[_ ->]|(order0 & order' & Hcur & -> & _ & _ & _ & Hst & Hh & Hf & Hc & Hp & Hd & _)];
      simpl.
    { split; [done|]. intros order Ho. exists order. eauto using evolves_refl. }
    destruct (decide (k = ud_orderId dto)) as [->|Hne].
    + rewrite lookup_insert_eq, Hcur. split; [done|].
      intros order [= <-]. exists order'. split; [done|]. split.
      * unfold evolves. rewrite Hst. repeat split; done || lia.
      * intros (h & Hjson & Hrest). exists h. by rewrite Hh, Hst.
    + rewrite lookup_insert_ne by done. split; [done|].
      intros order Ho. exists order. eauto using evolves_refl.
Qed.

Lemma serveAll_step requests : ∀ (s : Orders) k,
  (serveAll JSON_parse requests s !! k = None ↔ s !! k = None)
  ∧ (∀ order, s !! k = Some order →
       ∃ order', serveAll JSON_parse requests s !! k = Some order'
                 ∧ evolves order order'
                 ∧ (timelineConsistent order → timelineConsistent order')).
Proof.
  induction requests as [|request requests IH]; intros s k.
  - simpl. split; [done|]. intros order Ho. exists order. eauto using evolves_refl.
  - change (serveAll JSON_parse (request :: requests) s)
      with (serveAll JSON_parse requests (serve JSON_parse request s)).
    destruct (serve_step request s k) as [Hnone Hsome].
    destruct (IH (serve JSON_parse request s) k) as [IHnone IHsome].
    split; [by rewrite IHnone|].
    intros order Ho. destruct (Hsome order Ho) as (o1 & Ho1 & Hev1 & Hc1).
    destruct (IHsome o1 Ho1) as (o2 & Ho2 & Hev2 & Hc2).
    exists o2. split; [done|]. split; [by eapply evolves_trans|]. auto.
Qed.

(** X5. Whatever transition and delay requests are served, in whatever
    order and with whatever outcome, no order appears or disappears, and
    each order keeps its farmer, its creation date, its payment date and
    its deletion mark, while the step of its status never decreases. *)
Theorem orders_only_move_forward requests (s : Orders) k :
  (serveAll JSON_parse requests s !! k = None ↔ s !! k = None)
  ∧ (∀ order, s !! k = Some order →
       ∃ order',
         serveAll JSON_parse requests s !! k = Some order'
         ∧ farmerId order' = farmerId order
         ∧ createdAt order' = createdAt order
         ∧ paidAt order' = paidAt order
         ∧ deletedAt order' = deletedAt order
         ∧ getStatusStep (trackingStatus order)
           ≤ getStatusStep (trackingStatus order')).
Proof.
  destruct (serveAll_step requests s k) as [Hnone Hsome]. split; [done|].
  intros order Ho. destruct (Hsome order Ho) as (order' & Ho' & Hev & _).
  exists order'. split; [done|]. exact Hev.
Qed.

(** X6. An order whose stored history ends with the event of its status,
    that event alone being active, every event carrying the step of its
    stage and each event one step after the one before, still has such a
    history after any sequence of transition and delay requests. *)
Theorem timeline_stays_consistent requests (s : Orders) k order :
  s !! k = Some order →
  timelineConsistent order →
  ∃ order', serveAll JSON_parse requests s !! k = Some order'
            ∧ timelineConsistent order'.
Proof.
  intros Ho Hcons. destruct (serveAll_step requests s k) as [_ Hsome].
  destruct (Hsome order Ho) as (order' & Ho' & _ & Hc). eauto.
Qed.

(** X7. Reading the details of an order: a farmer id that is not positive
    is refused as UNAUTHORIZED before the order is looked up; an unknown
    order gives ORDER_NOT_FOUND; an order of another farmer gives
    UNAUTHORIZED; the order of the farmer is returned, also when it is
    soft-deleted.  The table is never changed. *)
Theorem getOrderDetails_outcomes orderId farmer (s : Orders) :
  (farmer ≤ 0 →
     getOrderDetails JSON_parse orderId farmer s = (Err UNAUTHORIZED, s))
  ∧ (0 < farmer → s !! orderId = None →
       getOrderDetails JSON_parse orderId farmer s = (Err ORDER_NOT_FOUND, s))
  ∧ (0 < farmer → ∀ order, s !! orderId = Some order → farmerId order ≠ farmer →
       getOrderDetails JSON_parse orderId farmer s = (Err UNAUTHORIZED, s))
  ∧ (0 < farmer → ∀ order, s !! orderId = Some order → farmerId order = farmer →
       getOrderDetails JSON_parse orderId farmer s
       = (Ok (toOrderWithTracking JSON_parse orderId order), s))
  ∧ (∀ result s', getOrderDetails JSON_parse orderId farmer s = (result, s') →
       s' = s).
Proof.
  assert (Hrun : getOrderDetails JSON_parse orderId farmer s
                 = if (farmer =? 0) || (farmer <=? 0) then (Err UNAUTHORIZED, s)
                   else match s !! orderId with
                        | None => (Err ORDER_NOT_FOUND, s)
                        | Some order =>
                            if bool_decide (farmerId order ≠ farmer)
                            then (Err UNAUTHORIZED, s)
                            else (Ok (toOrderWithTracking JSON_parse orderId order), s)
                        end).
  { unfold getOrderDetails, OrderStatusService.validateFarmerId, findByOrderNumber.
    unfold bind at 1, lift.
    destruct ((farmer =? 0) || (farmer <=? 0)); [done|].
    unfold bind at 1. destruct (s !! orderId) as [order|]; simpl; [|done].
    by destruct (bool_decide (farmerId order ≠ farmer)). }
  rewrite Hrun. repeat split.
  - intros Hle. by rewrite (proj2 (Z.leb_le _ _)), orb_true_r by lia.
  - intros Hpos Hnone.
    by rewrite (proj2 (Z.eqb_neq _ _)), (proj2 (Z.leb_gt _ _)), Hnone by lia.
  - intros Hpos order Ho Hne.
    rewrite (proj2 (Z.eqb_neq _ _)), (proj2 (Z.leb_gt _ _)), Ho by lia. simpl.
    by rewrite bool_decide_eq_true_2.
  - intros Hpos order Ho Heq.
    rewrite (proj2 (Z.eqb_neq _ _)), (proj2 (Z.leb_gt _ _)), Ho by lia. simpl.
    rewrite bool_decide_eq_false_2; [done|]. by intros Hne.
  - intros result s'. destruct ((farmer =? 0) || (farmer <=? 0)); [by intros [= _ <-]|].
    destruct (s !! orderId) as [order|]; [|by intros [= _ <-]].
    destruct (bool_decide _); by intros [= _ <-].
Qed.

Lemma length_filter_split {A} (P Q R : A → Prop)
    `{∀ x, Decision (P x)} `{∀ x, Decision (Q x)} `{∀ x, Decision (R x)}
    (l : list A) :
  (∀ x, R x ↔ P x ∨ Q x) → (∀ x, P x → Q x → False) →
  (length (filter P l) + length (filter Q l) = length (filter R l))%nat.
Proof.
  intros HR Hdis. induction l as [|x l IH]; [done|].
  rewrite !filter_cons.
  destruct (decide (P x)) as [HP|HP], (decide (Q x)) as [HQ|HQ],
    (decide (R x)) as [Hr|Hr]; simpl; try lia;
    exfalso; first [by eapply Hdis | apply Hr, HR; tauto | apply HR in Hr; tauto].
Qed.

(** X8. For any farmer, the number of active orders and the number of
    completed orders add up to the number of all orders the list reports
    (whatever page is asked for), the badge count of active orders is the
    total of the active list, and an order is counted as active exactly
    when [isActiveOrder] holds of its status. *)
Theorem order_counts_agree farmer page limit (s : Orders) :
  let totalOf status :=
    findByFarmerId_total (E:=OrderError)
      {| gof_farmerId := farmer; gof_status := status;
         gof_page := page; gof_limit := limit |} s in
  ∃ active completed,
    totalOf (Some active_orders) = (Ok active, s)
    ∧ totalOf (Some completed_orders) = (Ok completed, s)
    ∧ totalOf (Some all_orders) = (Ok (active + completed), s)
    ∧ totalOf None = (Ok (active + completed), s)
    ∧ countActiveByFarmerId (E:=OrderError) farmer s = (Ok active, s)
    ∧ 0 ≤ active ∧ 0 ≤ completed
    ∧ (∀ order,
         orderSatisfies (findByFarmerId_where
                           {| gof_farmerId := farmer;
                              gof_status := Some active_orders;
                              gof_page := page; gof_limit := limit |}) order = true
         ↔ farmerId order = farmer ∧ deletedAt order = None
           ∧ isActiveOrder (trackingStatus order) = true).
Proof.
  clear JSON_parse.
  intros totalOf. unfold totalOf, findByFarmerId_total, countActiveByFarmerId.
  eexists _, _. split; [reflexivity|]. split; [reflexivity|].
  assert (Hsat : ∀ order,
    orderSatisfies {| cw_farmerId := farmer;
                      cw_trackingStatus :=
                        Some (status_in [LISTED; MATCHED; PICKUP_SCHEDULED;
                                         AT_DROP_POINT; IN_TRANSIT; DELIVERED]) |}
      order = true
    ↔ farmerId order = farmer ∧ deletedAt order = None
      ∧ isActiveOrder (trackingStatus order) = true).
  { intros order. unfold orderSatisfies. simpl.
    rewrite !andb_true_iff, !bool_decide_eq_true.
    assert (trackingStatus order
              ∈ [LISTED; MATCHED; PICKUP_SCHEDULED; AT_DROP_POINT; IN_TRANSIT; DELIVERED]
            ↔ isActiveOrder (trackingStatus order) = true) as ->; [|tauto].
    rewrite <- (bool_decide_eq_true (trackingStatus order ∈ _)).
    by destruct (trackingStatus order). }
  assert (Hsum :
    count {| cw_farmerId := farmer;
             cw_trackingStatus :=
               Some (status_in [LISTED; MATCHED; PICKUP_SCHEDULED;
                                AT_DROP_POINT; IN_TRANSIT; DELIVERED]) |} s
    + count {| cw_farmerId := farmer; cw_trackingStatus := Some (status_in [PAID]) |} s
    = count {| cw_farmerId := farmer; cw_trackingStatus := None |} s).
  { unfold count. rewrite <- Nat2Z.inj_add. f_equal.
    apply length_filter_split.
    - intros [k order]. simpl. rewrite Hsat. unfold orderSatisfies. simpl.
      rewrite !andb_true_iff, !bool_decide_eq_true, list_elem_of_singleton.
      destruct (trackingStatus order); simpl; intuition congruence.
    - intros [k order]. simpl. rewrite Hsat. unfold orderSatisfies. simpl.
      rewrite !andb_true_iff, !bool_decide_eq_true, list_elem_of_singleton.
      intros (_ & _ & Hact) (_ & Hpaid). by rewrite Hpaid in Hact. }
  split; [exact (f_equal (λ n, (Ok n, s)) (eq_sym Hsum))|].
  split; [exact (f_equal (λ n, (Ok n, s)) (eq_sym Hsum))|].
  split.
  { do 2 f_equal. unfold count. do 2 f_equal.
    apply list_filter_iff. intros [k order]. simpl. rewrite Hsat.
    unfold orderSatisfies. simpl.
    rewrite !andb_true_iff, !bool_decide_eq_true, negb_true_iff,
      bool_decide_eq_false, list_elem_of_singleton.
    destruct (trackingStatus order);
      (split; [intros [[? ?] Hn]|intros (? & ? & Ha)]; repeat split; done). }
  split; [unfold count; lia|]. split; [unfold count; lia|]. exact Hsat.
Qed.

Lemma length_filter_0 {A} (P : A → Prop) `{∀ x, Decision (P x)} (l : list A) :
  length (filter P l) = 0%nat ↔ ∀ x, x ∈ l → ¬ P x.
Proof.
  induction l as [|x l IH]; [by split; [intros _ y Hy; inversion Hy|]|].
  rewrite filter_cons. destruct (decide (P x)) as [HP|HP]; simpl.
  - split; [lia|]. intros Hnone. destruct (Hnone x); [by left|done].
  - rewrite IH. split.
    + intros Hl y Hy. apply elem_of_cons in Hy as [-> | Hy]; [done|by apply Hl].
    + intros Hl y Hy. apply Hl. by right.
Qed.

Lemma orderSatisfies_notIn_PAID farmer order :
  orderSatisfies {| cw_farmerId := farmer;
                    cw_trackingStatus := Some (status_notIn [PAID]) |} order = true
  ↔ farmerId order = farmer ∧ deletedAt order = None ∧ trackingStatus order ≠ PAID.
Proof.
  unfold orderSatisfies. simpl.
  rewrite !andb_true_iff, !bool_decide_eq_true, negb_true_iff,
    bool_decide_eq_false, list_elem_of_singleton. tauto.
Qed.

(** X23. The badge count and the order list of the service refuse a farmer
    id that is not positive as UNAUTHORIZED.  For a valid farmer the badge
    count is the total the service reports for the active list, whatever
    page is asked for; it is zero exactly when every order of the farmer
    that is not soft-deleted is PAID.  Neither call changes the table. *)
Theorem getActiveOrderCount_is_active_total farmer page limit (s : Orders) :
  let activeList := {| gof_farmerId := farmer; gof_status := Some active_orders;
                       gof_page := page; gof_limit := limit |} in
  (farmer ≤ 0 →
     getActiveOrderCount farmer s = (Err UNAUTHORIZED, s)
     ∧ getOrders_total activeList s = (Err UNAUTHORIZED, s))
  ∧ (0 < farmer →
     ∃ active,
       getActiveOrderCount farmer s = (Ok active, s)
       ∧ getOrders_total activeList s = (Ok active, s)
       ∧ 0 ≤ active
       ∧ (active = 0 ↔
          ∀ k order, s !! k = Some order → farmerId order = farmer →
                     deletedAt order = None → trackingStatus order = PAID)).
Proof.
  clear JSON_parse. intros activeList.
  unfold getActiveOrderCount, getOrders_total, bind, lift,
    OrderStatusService.validateFarmerId, countActiveByFarmerId, findByFarmerId_total.
  simpl. split.
  - intros Hfarmer.
    assert ((farmer =? 0) || (farmer <=? 0) = true) as ->; [|done].
    apply orb_true_iff. right. lia.
  - intros Hfarmer.
    assert ((farmer =? 0) || (farmer <=? 0) = false) as ->.
    { apply orb_false_iff. split; lia. }
    eexists. split; [reflexivity|]. split_and!.
    + do 2 f_equal. unfold count. do 2 f_equal. symmetry.
      apply list_filter_iff. intros [k order]. simpl.
      rewrite orderSatisfies_notIn_PAID. unfold orderSatisfies. simpl.
      rewrite !andb_true_iff, !bool_decide_eq_true.
      assert (trackingStatus order
                ∈ [LISTED; MATCHED; PICKUP_SCHEDULED; AT_DROP_POINT; IN_TRANSIT; DELIVERED]
              ↔ trackingStatus order ≠ PAID) as ->; [|tauto].
      rewrite <- (bool_decide_eq_true (trackingStatus order ∈ _)).
      destruct (trackingStatus order); simpl; split; done.
    + unfold count. lia.
    + unfold count.
      rewrite <- Nat2Z.inj_0, Nat2Z.inj_iff, length_filter_0. split.
      * intros Hnone k order Hk Hf Hdel.
        destruct (decide (trackingStatus order = PAID)) as [|Hne]; [done|].
        destruct (Hnone (k, order)); [by apply elem_of_map_to_list|].
        simpl. by apply orderSatisfies_notIn_PAID.
      * intros Hall [k order] Hk Hsat. simpl in Hsat.
        apply orderSatisfies_notIn_PAID in Hsat as (Hf & Hdel & Hne).
        apply Hne, (Hall k); [by apply elem_of_map_to_list|done|done].
Qed.

(** [split] and [join] undo each other. *)
Lemma split_not_nil sep s : split sep s ≠ [].
Proof.
  destruct s as [|c s]; simpl; [done|].
  destruct (Ascii.eqb c sep); [done|]. by destruct (split sep s).
Qed.

Lemma join_split sep s : join sep (split sep s) = s.
Proof.
  induction s as [|c s IH]; [done|]. simpl.
  pose proof (split_not_nil sep s) as Hne.
  destruct (Ascii.eqb_spec c sep) as [->|Hc].
  - destruct (split sep s) as [|piece pieces]; [done|].
    change (join sep (EmptyString :: piece :: pieces))
      with (String sep (join sep (piece :: pieces))).
    by rewrite IH.
  - destruct (split sep s) as [|piece pieces]; [done|].
    destruct pieces as [|piece' pieces].
    + simpl in *. by rewrite IH.
    + change (join sep (String c piece :: piece' :: pieces))
        with (String c (join sep (piece :: piece' :: pieces))).
      by rewrite IH.
Qed.

Lemma split_first_piece sep front rest :
  sep ∉ String.list_ascii_of_string front →
  split sep (front +:+ String sep rest) = front :: split sep rest.
Proof.
  induction front as [|c front IH]; intros Hsep; simpl.
  - by rewrite Ascii.eqb_refl.
  - simpl in Hsep. apply not_elem_of_cons in Hsep as [Hc Hfront].
    destruct (Ascii.eqb_spec c sep) as [->|_]; [done|].
    by rewrite IH.
Qed.

(** X9. The hauler named in a successful transition and the hauler the
    order views show afterwards: with a non-empty id and a non-empty
    vehicle type that has no space, the view shows the hauler as it was
    given, the vehicle number read back in full (an absent number reads
    back as the empty string).  With an empty hauler id the views show no
    hauler.  With no vehicle type the vehicle column keeps what it held
    before the transition. *)
Theorem hauler_round_trip now dto (s s' : Orders) updated hauler :
  OrderStatusService.updateStatus JSON_parse now dto s = (Ok updated, s') →
  haulerInfo dto = Some hauler →
  ∃ current order',
    s !! orderId dto = Some current
    ∧ s' !! orderId dto = Some order'
    ∧ (hauler_id hauler = "" → haulerOf order' = None)
    ∧ (hauler_id hauler ≠ "" →
         ∀ type, vehicleType hauler = Some type → type ≠ "" →
                 " "%char ∉ String.list_ascii_of_string type →
                 haulerOf order'
                 = Some {| hauler_id := hauler_id hauler;
                           hauler_name := hauler_name hauler;
                           hauler_phone := hauler_phone hauler;
                           vehicleType := Some type;
                           vehicleNumber :=
                             Some (default "" (vehicleNumber hauler)) |})
    ∧ (truthy (vehicleType hauler) = false →
         haulerVehicle order' = haulerVehicle current).
Proof.
  intros Hrun Hhauler.
  destruct (service_updateStatus_cases now dto s)
    as [[e He]|(current & history & Hcur & _ & _ & Hok)]; [congruence|].
  rewrite Hok in Hrun. injection Hrun as _ <-.
  eexists current, _. split; [done|]. split; [apply lookup_insert_eq|].
  unfold haulerOf. simpl. rewrite Hhauler. simpl. split; [|split].
  - by intros ->.
  - intros Hid type Htype Hne Hspace. rewrite Htype. simpl.
    destruct (String.eqb_spec (hauler_id hauler) ""); [done|].
    destruct (String.eqb_spec type ""); [done|]. simpl.
    change (type +:+ " " +:+ default "" (vehicleNumber hauler))
      with (type +:+ String " " (default "" (vehicleNumber hauler))).
    rewrite split_first_piece by done. simpl. by rewrite join_split.
  - by intros ->.
Qed.

(** The four ways a transition request fails. *)
Lemma service_updateStatus_failure now dto (s s' : Orders) e :
  OrderStatusService.updateStatus JSON_parse now dto s = (Err e, s') →
  (s !! orderId dto = None ∧ e = ORDER_NOT_FOUND)
  ∨ (∃ current, s !! orderId dto = Some current
                ∧ newStatus dto = trackingStatus current ∧ e = ALREADY_IN_STATUS)
  ∨ (∃ current, s !! orderId dto = Some current
                ∧ newStatus dto ≠ trackingStatus current
                ∧ getStatusStep (newStatus dto)
                  ≠ getStatusStep (trackingStatus current) + 1
                ∧ e = INVALID_TRANSITION)
  ∨ (∃ current, s !! orderId dto = Some current
                ∧ getStatusStep (newStatus dto)
                  = getStatusStep (trackingStatus current) + 1
                ∧ e = TypeError
                ∧ ∀ history,
                    parseStatusHistory JSON_parse (statusHistory current)
                    ≠ JArray history).
Proof.
  rewrite service_updateStatus_unfold.
  destruct (s !! orderId dto) as [current|] eqn:Hcur;
    [|intros [= <- _]; by left].
  rewrite validateStatusTransition_cases.
  destruct (decide (newStatus dto = trackingStatus current)) as [Heq|Hne].
  { intros [= <- _]. right; left. by exists current. }
  destruct (decide _) as [Hstep|Hstep].
  - destruct (parseStatusHistory _ _) eqn:Hparse; try discriminate;
      intros [= <- _]; right; right; right; exists current;
      (split_and!; [done|done|done|intros history' Habs; congruence]).
  - intros [= <- _]. right; right; left. by exists current.
Qed.

Lemma PROTO_STATUS_MAP_cases n :
  (1 ≤ n ≤ 7
   ∧ ∃ status, OrderStatusHandlers.PROTO_STATUS_MAP n = Some status
               ∧ OrderStatusHandlers.DOMAIN_TO_PROTO_STATUS status = n)
  ∨ ((n < 1 ∨ 7 < n) ∧ OrderStatusHandlers.PROTO_STATUS_MAP n = None).
Proof.
  clear JSON_parse. unfold OrderStatusHandlers.PROTO_STATUS_MAP.
  destruct (Z.eqb_spec n 1) as [->|?]; [left; split; [lia|by eexists]|].
  destruct (Z.eqb_spec n 2) as [->|?]; [left; split; [lia|by eexists]|].
  destruct (Z.eqb_spec n 3) as [->|?]; [left; split; [lia|by eexists]|].
  destruct (Z.eqb_spec n 4) as [->|?]; [left; split; [lia|by eexists]|].
  destruct (Z.eqb_spec n 5) as [->|?]; [left; split; [lia|by eexists]|].
  destruct (Z.eqb_spec n 6) as [->|?]; [left; split; [lia|by eexists]|].
  destruct (Z.eqb_spec n 7) as [->|?]; [left; split; [lia|by eexists]|].
  right. split; [lia|done].
Qed.

(** X24. The status numbers of the wire format are the step numbers: the
    two tables of the handlers undo each other, agree with [getStatusStep],
    and a number has a status exactly when it is from 1 to 7.  When a
    transition fails, the code of the reply is NOT_FOUND for an unknown
    order and FAILED_PRECONDITION whenever the number of the new status is
    not the number of the current status plus one; INTERNAL is left for an
    allowed transition of an order whose stored history is not a list.  A
    failed transition is never answered PERMISSION_DENIED. *)
Theorem transition_reply_codes now dto (s s' : Orders) e :
  OrderStatusService.updateStatus JSON_parse now dto s = (Err e, s') →
  (∀ n status, OrderStatusHandlers.PROTO_STATUS_MAP n = Some status
               ↔ OrderStatusHandlers.DOMAIN_TO_PROTO_STATUS status = n)
  ∧ (∀ status, OrderStatusHandlers.DOMAIN_TO_PROTO_STATUS status = getStatusStep status)
  ∧ (∀ n, OrderStatusHandlers.PROTO_STATUS_MAP n = None ↔ n < 1 ∨ 7 < n)
  ∧ (s !! orderId dto = None ↔
     OrderStatusHandlers.handleError e = OrderStatusHandlers.NOT_FOUND)
  ∧ (∀ current, s !! orderId dto = Some current →
       (OrderStatusHandlers.DOMAIN_TO_PROTO_STATUS (newStatus dto)
        ≠ OrderStatusHandlers.DOMAIN_TO_PROTO_STATUS (trackingStatus current) + 1
        ↔ OrderStatusHandlers.handleError e = OrderStatusHandlers.FAILED_PRECONDITION)
       ∧ (OrderStatusHandlers.DOMAIN_TO_PROTO_STATUS (newStatus dto)
          = OrderStatusHandlers.DOMAIN_TO_PROTO_STATUS (trackingStatus current) + 1
          ↔ OrderStatusHandlers.handleError e = OrderStatusHandlers.INTERNAL)
       ∧ (OrderStatusHandlers.handleError e = OrderStatusHandlers.INTERNAL →
          ∀ history,
            parseStatusHistory JSON_parse (statusHistory current) ≠ JArray history))
  ∧ OrderStatusHandlers.handleError e ≠ OrderStatusHandlers.PERMISSION_DENIED
  ∧ OrderStatusHandlers.handleError e ≠ OrderStatusHandlers.INVALID_ARGUMENT.
Proof.
  intros Hrun. split_and!.
  - intros n status. split.
    + destruct (PROTO_STATUS_MAP_cases n) as [(_ & status' & -> & Hn) | [_ ->]];
        [|done]. by intros [= <-].
    + intros <-. by destruct status.
  - by intros [].
  - intros n.
    destruct (PROTO_STATUS_MAP_cases n) as [(Hn & status' & -> & _) | [Hn ->]].
    + split; [done|lia].
    + done.
  - destruct (service_updateStatus_failure _ _ _ _ _ Hrun)
      as [[Hcur ->] | [(c & Hcur & _ & ->) | [(c & Hcur & _ & _ & ->)
         | (c & Hcur & _ & -> & _)]]]; rewrite Hcur; done.
  - intros current Hcur.
    assert (Hsteps : ∀ a b,
      OrderStatusHandlers.DOMAIN_TO_PROTO_STATUS a
      = OrderStatusHandlers.DOMAIN_TO_PROTO_STATUS b + 1
      ↔ getStatusStep a = getStatusStep b + 1) by (by intros [] []).
    rewrite Hsteps.
    destruct (service_updateStatus_failure _ _ _ _ _ Hrun)
      as [[Hnone ->] | [(c & Hc & Heq & ->) | [(c & Hc & _ & Hstep & ->)
         | (c & Hc & Hstep & -> & Hparse)]]].
    + by rewrite Hcur in Hnone.
    + rewrite Hcur in Hc. injection Hc as <-. rewrite Heq. simpl.
      split_and!; [split; [done|lia]|split; [lia|done]|done].
    + rewrite Hcur in Hc. injection Hc as <-. simpl.
      split_and!; [split; done|split; done|done].
    + rewrite Hcur in Hc. injection Hc as <-. simpl.
      split_and!; [split; done|split; done|intros _; exact Hparse].
  - destruct (service_updateStatus_failure _ _ _ _ _ Hrun)
      as [[_ ->] | [(c & _ & _ & ->) | [(c & _ & _ & _ & ->) | (c & _ & _ & -> & _)]]];
      done.
  - destruct (service_updateStatus_failure _ _ _ _ _ Hrun)
      as [[_ ->] | [(c & _ & _ & ->) | [(c & _ & _ & _ & ->) | (c & _ & _ & -> & _)]]];
      done.
Qed.

End OrdersUnderRequests.

(** ** Transaction views, continued *)

Section TransactionVisibility.
Import Types OrderStatusRepository TransactionService TransactionVocabulary.

Variable JSON_parse : string → option JsonValue.

Lemma repository_getTransactionDetails_cases {E} now orderId farmer (s : Orders) :
  (∃ order details,
     s !! orderId = Some order ∧ visibleTo farmer order
     ∧ OrderStatusRepository.getTransactionDetails (E:=E) JSON_parse now orderId farmer s
       = (Ok (Some details), s)
     ∧ OrderStatusRepository.canDownloadReceipt details
       = (daysSincePaid now order <=? 90))
  ∨ ((∀ order, s !! orderId = Some order → ¬ visibleTo farmer order)
     ∧ OrderStatusRepository.getTransactionDetails (E:=E) JSON_parse now orderId farmer s
       = (Ok None, s)).
Proof.
  unfold OrderStatusRepository.getTransactionDetails, visibleTo.
  destruct (s !! orderId) as [order|] eqn:Hlook; [|right; by split].
  destruct (bool_decide (farmerId order = farmer)) eqn:Hf;
    [apply bool_decide_eq_true in Hf|apply bool_decide_eq_false in Hf]; simpl;
    [|right; split; [intros ? [= <-]; tauto|done]].
  destruct (bool_decide (deletedAt order = None)) eqn:Hd;
    [apply bool_decide_eq_true in Hd|apply bool_decide_eq_false in Hd]; simpl;
    [|right; split; [intros ? [= <-]; tauto|done]].
  destruct (bool_decide (trackingStatus order ∈ [PAID; DELIVERED])) eqn:Ht;
    [apply bool_decide_eq_true in Ht|apply bool_decide_eq_false in Ht]; simpl.
  - left. eexists order, _. split; [done|]. split; [|by split].
    split; [done|]. split; [done|].
    apply elem_of_cons in Ht as [Ht|Ht]; [by left|right].
    by apply list_elem_of_singleton in Ht.
  - right. split; [|done]. intros ? [= <-] (_ & _ & [Hp|Hp]); apply Ht; rewrite Hp.
    + left.
    + right. left.
Qed.

(** X10. The details of a transaction are given exactly when the farmer id
    is positive and the order exists, belongs to that farmer, is not
    soft-deleted and is PAID or DELIVERED.  A farmer id that is not positive
    gives INVALID_FARMER_ID; anything else, an order of another farmer
    included, gives TRANSACTION_NOT_FOUND.  The receipt check of the
    service answers with the flag of those details and fails in the same
    cases, and neither call changes the table. *)
Theorem transaction_details_visibility now transactionId farmer (s : Orders) :
  (farmer ≤ 0 →
     TransactionService.getTransactionDetails JSON_parse now transactionId farmer s
     = (Err INVALID_FARMER_ID, s)
     ∧ TransactionService.canDownloadReceipt JSON_parse now transactionId farmer s
       = (Err INVALID_FARMER_ID, s))
  ∧ (0 < farmer →
       (∀ order, s !! transactionId = Some order → ¬ visibleTo farmer order) →
       TransactionService.getTransactionDetails JSON_parse now transactionId farmer s
       = (Err TRANSACTION_NOT_FOUND, s)
       ∧ TransactionService.canDownloadReceipt JSON_parse now transactionId farmer s
         = (Err TRANSACTION_NOT_FOUND, s))
  ∧ (0 < farmer →
       ∀ order, s !! transactionId = Some order → visibleTo farmer order →
       ∃ details,
         TransactionService.getTransactionDetails JSON_parse now transactionId farmer s
         = (Ok details, s)
         ∧ TransactionService.canDownloadReceipt JSON_parse now transactionId farmer s
           = (Ok (OrderStatusRepository.canDownloadReceipt details), s)
         ∧ td_id details = transactionId).
Proof.
  unfold TransactionService.getTransactionDetails, TransactionService.canDownloadReceipt.
  split; [|split].
  - intros Hle. unfold bind at 1 3, lift.
    by rewrite validateFarmerId_invalid.
  - intros Hpos Hhidden. unfold bind at 1 3, lift.
    rewrite validateFarmerId_positive by done.
    destruct (repository_getTransactionDetails_cases (E:=TransactionError)
                now transactionId farmer s)
      as [(order & details & Ho & Hvis & _)|[_ Hrun]].
    { by destruct (Hhidden order Ho). }
    unfold bind. by rewrite Hrun.
  - intros Hpos order Ho Hvis. unfold bind at 1 3, lift.
    rewrite validateFarmerId_positive by done.
    destruct (repository_getTransactionDetails_cases (E:=TransactionError)
                now transactionId farmer s)
      as [(order' & details & Ho' & _ & Hrun & _)|[Hhidden _]].
    2: { by destruct (Hhidden order Ho). }
    exists details. unfold bind. rewrite Hrun. split; [done|]. split; [done|].
    revert Hrun. unfold OrderStatusRepository.getTransactionDetails. rewrite Ho'.
    destruct (_ && _); [|discriminate]. by intros [= <-].
Qed.

(** X11. The [where] clause of the transactions query asks for PAID orders
    for the filter "completed", DELIVERED orders for "pending", and both
    for "all" or no filter; an empty crop type adds no condition; and when
    both dates are given only the upper one is kept, so an order created
    before [fromDate] still satisfies the date condition. *)
Theorem getTransactionsWhere_conditions now filter :
  where_trackingStatus_in (getTransactionsWhere now filter)
  = match tf_status filter with
    | Some completed_filter => [PAID]
    | Some pending_filter => [DELIVERED]
    | _ => [PAID; DELIVERED]
    end
  ∧ where_farmerId (getTransactionsWhere now filter) = tf_farmerId filter
  ∧ where_deletedAt_null (getTransactionsWhere now filter) = true
  ∧ (cropType filter = Some "" →
       where_cropType_contains (getTransactionsWhere now filter) = None)
  ∧ (∀ from to, fromDate filter = Some from → toDate filter = Some to →
       where_createdAt (getTransactionsWhere now filter) = Some (lte to)
       ∧ ∀ created, created ≤ to → dateTimeFilterHolds (lte to) created = true).
Proof.
  unfold getTransactionsWhere. simpl. split; [|split; [done|split; [done|split]]].
  - by destruct (tf_status filter) as [[]|].
  - by intros ->.
  - intros from to -> ->. simpl. split; [done|].
    intros created Hle. by apply Z.leb_le.
Qed.

End TransactionVisibility.

(** ** The masked farmer name of a receipt *)

Section MaskedName.
Import ReceiptService.





End MaskedName.

(** ** Matches under any sequence of requests *)

Section MatchesUnderRequests.
Import MatchTypes MatchRepository MatchService MatchHandlers.

Variable prismaMessage : string.

Lemma acceptMatch_unfold now matchId isPartial acceptedQuantity (s : Matches) :
  acceptMatch now matchId isPartial acceptedQuantity s
  = match s !! matchId with
    | None => (Err MatchNotFound, s)
    | Some m =>
        if negb (bool_decide (status m = PENDING_ACCEPTANCE))
        then (Err NoLongerPending, s)
        else if now >? expiresAt m
        then (Err MatchHasExpired, <[matchId := updateData now EXPIRED None m]> s)
        else
          let accepted :=
            updateData now ACCEPTED
              (Some {| details_rejectionReason := None;
                       details_orderId := Some ("ord-" +:+ pretty now) |}) m in
          (Ok {| id := matchId; row := accepted |}, <[matchId := accepted]> s)
    end.
Proof.
  unfold acceptMatch. unfold bind at 1. rewrite findById_lookup.
  destruct (s !! matchId) as [m|] eqn:Hm; simpl; [|done].
  destruct (negb (bool_decide (status m = PENDING_ACCEPTANCE))); [done|].
  destruct (now >? expiresAt m).
  - unfold bind at 1. by rewrite (repository_updateStatus_found _ _ _ _ _ m Hm).
  - by rewrite bind_ret_r, (repository_updateStatus_found _ _ _ _ _ m Hm).
Qed.

Lemma rejectMatch_unfold now matchId reason (s : Matches) :
  rejectMatch now matchId reason s
  = match s !! matchId with
    | None => (Err MatchNotFound, s)
    | Some m =>
        if negb (bool_decide (status m = PENDING_ACCEPTANCE))
           && negb (bool_decide (status m = EXPIRED))
        then (Err (CannotBeRejected (status m)), s)
        else
          let rejected :=
            updateData now REJECTED
              (Some {| details_rejectionReason := Some reason;
                       details_orderId := None |}) m in
          (Ok {| id := matchId; row := rejected |}, <[matchId := rejected]> s)
    end.
Proof.
  unfold rejectMatch. unfold bind at 1. rewrite findById_lookup.
  destruct (s !! matchId) as [m|] eqn:Hm; simpl; [|done].
  destruct (_ && _); [done|].
  by rewrite bind_ret_r, (repository_updateStatus_found _ _ _ _ _ m Hm).
Qed.

(** The match under key [k] is as it was. *)
Local Ltac untouched k :=
  match goal with
  | |- context [?s !! k] =>
      destruct (s !! k) as [?|];
      [eexists; split; [reflexivity|by left]|reflexivity]
  end.

(** What one request can do to the match under key [k]: nothing, or one
    of the three writes, each from the statuses the service allows. *)
Lemma serve_match_step request (s : Matches) k :
  match s !! k with
  | None => serve prismaMessage request s !! k = None
  | Some m =>
      ∃ m', serve prismaMessage request s !! k = Some m'
        ∧ (m' = m
           ∨ (status m = PENDING_ACCEPTANCE
              ∧ ∃ now, m' = updateData now EXPIRED None m)
           ∨ (status m = PENDING_ACCEPTANCE
              ∧ ∃ now details, m' = updateData now ACCEPTED (Some details) m
                               ∧ truthy (details_orderId details) = true)
           ∨ ((status m = PENDING_ACCEPTANCE ∨ status m = EXPIRED)
              ∧ ∃ now details, m' = updateData now REJECTED (Some details) m))
  end.
Proof.
  destruct request as [now matchId isPartial qty|now matchId code text|now]; simpl.
  - unfold AcceptMatch. rewrite acceptMatch_unfold.
    destruct (decide (k = matchId)) as [->|Hne].
    + destruct (s !! matchId) as [m|] eqn:Hm; simpl; [|by rewrite Hm].
      destruct (bool_decide (status m = PENDING_ACCEPTANCE)) eqn:Hst; simpl;
        [apply bool_decide_eq_true in Hst|rewrite Hm; eexists; split; [reflexivity|by left]].
      destruct (now >? expiresAt m); simpl; rewrite lookup_insert_eq;
        eexists; (split; [done|]).
      * right; left. eauto.
      * right; right; left. split; [done|]. eexists _, _. by split.
    + destruct (s !! matchId) as [m|] eqn:Hm; simpl.
      2: { untouched k. }
      destruct (negb _); simpl; [untouched k|].
      destruct (now >? expiresAt m); simpl; rewrite lookup_insert_ne by done;
        untouched k.
  - unfold RejectMatch. rewrite rejectMatch_unfold.
    destruct (decide (k = matchId)) as [->|Hne].
    + destruct (s !! matchId) as [m|] eqn:Hm; simpl; [|by rewrite Hm].
      destruct (bool_decide (status m = PENDING_ACCEPTANCE)) eqn:Hp; simpl.
      { apply bool_decide_eq_true in Hp. rewrite lookup_insert_eq.
        eexists. split; [done|]. right; right; right. split; [by left|].
        by eexists _, _. }
      destruct (bool_decide (status m = EXPIRED)) eqn:He; simpl.
      { apply bool_decide_eq_true in He. rewrite lookup_insert_eq.
        eexists. split; [done|]. right; right; right. split; [by right|].
        by eexists _, _. }
      rewrite Hm. eexists. split; [reflexivity|by left].
    + destruct (s !! matchId) as [m|] eqn:Hm; simpl.
      2: { untouched k. }
      destruct (_ && _); simpl; [untouched k|].
      rewrite lookup_insert_ne by done. untouched k.
  - unfold ExpireMatches.
    destruct (expireMatches_run now s) as (s' & -> & Hin & Hout). simpl.
    destruct (decide (k ∈ id <$> take 100 (expiredPending now s))) as [Hk|Hk].
    + rewrite (Hin k Hk).
      apply list_elem_of_fmap in Hk as (x & -> & Hx).
      apply subseteq_take, elem_of_expiredPending in Hx as (-> & Hst & _). simpl.
      eexists. split; [done|]. right; left. eauto.
    + rewrite (Hout k Hk). untouched k.
Qed.

Lemma is_Some_None_iff {A} (o : option A) (P : Prop) :
  (is_Some o ↔ P) → ¬ P → o = None.
Proof. intros Hiff HP. destruct o; [|done]. destruct HP. apply Hiff. eauto. Qed.

Lemma bookkept_expire now m :
  status m = PENDING_ACCEPTANCE → bookkept m →
  bookkept (updateData now EXPIRED None m).
Proof.
  intros Hst (Ha & Ho & Hr & Hrr). unfold bookkept. simpl. rewrite Hst in *.
  intuition discriminate.
Qed.

Lemma bookkept_accept now details m :
  status m = PENDING_ACCEPTANCE → truthy (details_orderId details) = true →
  bookkept m → bookkept (updateData now ACCEPTED (Some details) m).
Proof.
  intros Hst Htruthy (Ha & Ho & Hr & Hrr). unfold bookkept. simpl.
  rewrite Htruthy, Hst in *.
  destruct (details_orderId details) as [o|]; [|done].
  intuition (discriminate || eauto).
Qed.

Lemma bookkept_reject now details m :
  status m = PENDING_ACCEPTANCE ∨ status m = EXPIRED →
  bookkept m → bookkept (updateData now REJECTED (Some details) m).
Proof.
  intros Hst (Ha & Ho & Hr & Hrr). unfold bookkept. simpl.
  rewrite (is_Some_None_iff _ _ Ha), (is_Some_None_iff _ _ Ho)
    by (destruct Hst as [-> | ->]; done).
  assert (∀ A, ¬ is_Some (@None A)) as Hnone by (intros A [? [=]]).
  intuition (try done; try (by eapply Hnone); eauto).
Qed.

(** The same over a whole sequence of requests. *)
Lemma serveAll_match_step requests : ∀ (s : Matches) k,
  match s !! k with
  | None => serveAll prismaMessage requests s !! k = None
  | Some m =>
      ∃ m', serveAll prismaMessage requests s !! k = Some m'
        ∧ listingId m' = listingId m ∧ farmerId m' = farmerId m
        ∧ buyerId m' = buyerId m ∧ expiresAt m' = expiresAt m
        ∧ createdAt m' = createdAt m
        ∧ (status m = ACCEPTED ∨ status m = REJECTED → m' = m)
        ∧ (status m ≠ PENDING_ACCEPTANCE → status m' ≠ PENDING_ACCEPTANCE)
        ∧ (status m = EXPIRED → status m' = EXPIRED ∨ status m' = REJECTED)
        ∧ (bookkept m → bookkept m')
  end.
Proof.
  induction requests as [|request requests IH]; intros s k.
  - simpl. destruct (s !! k) as [m|] eqn:Hm; [|done].
    exists m. split_and!; try done. by left.
  - change (serveAll prismaMessage (request :: requests) s)
      with (serveAll prismaMessage requests (serve prismaMessage request s)).
    pose proof (serve_match_step request s k) as Hstep.
    pose proof (IH (serve prismaMessage request s) k) as Hrest.
    destruct (s !! k) as [m|]; [|by rewrite Hstep in Hrest].
    destruct Hstep as (m1 & Hm1 & Hcase). rewrite Hm1 in Hrest.
    destruct Hrest as (m' & Hm' & Hl & Hf & Hb & He & Hc & Hfrozen & Hback & Hexp & Hbook).
    exists m'. split; [done|].
    destruct Hcase as [->|[[Hst [now ->]]|[[Hst (now & details & -> & Htruthy)]
                                          |[Hst (now & details & ->)]]]].
    + by split_and!.
    + simpl in *.
      split_and!; try done;
        first [ intros [?|?]; congruence
              | intros Hx; congruence
              | intros Hx; by apply Hbook, bookkept_expire ].
    + simpl in *. rewrite (Hfrozen (or_introl eq_refl)) in *.
      split_and!; try done;
        first [ intros [?|?]; congruence
              | intros Hx; congruence
              | intros Hx; by apply bookkept_accept ].
    + simpl in *. rewrite (Hfrozen (or_intror eq_refl)) in *.
      split_and!; try done;
        first [ intros [?|?]; destruct Hst; congruence
              | intros _; by right
              | intros Hx; by apply bookkept_reject ].
Qed.

(** X13. A match that is ACCEPTED or REJECTED is final: whatever accept,
    reject and expiry requests are served afterwards, at whatever
    instants, its row stays exactly as it is. *)
Theorem accepted_and_rejected_matches_are_final requests (s : Matches) matchId m :
  s !! matchId = Some m →
  status m = ACCEPTED ∨ status m = REJECTED →
  serveAll prismaMessage requests s !! matchId = Some m.
Proof.
  intros Hm Hst. pose proof (serveAll_match_step requests s matchId) as Hstep.
  rewrite Hm in Hstep. destruct Hstep as (m' & Hm' & _ & _ & _ & _ & _ & Hfrozen & _).
  by rewrite Hm', (Hfrozen Hst).
Qed.

(** X14. Whatever requests are served, no match appears or disappears, a
    match keeps its listing, farmer, buyer, deadline and creation date, a
    match that has left PENDING_ACCEPTANCE never returns to it, and an
    EXPIRED match can only stay EXPIRED or become REJECTED. *)
Theorem matches_keep_their_terms requests (s : Matches) matchId :
  (serveAll prismaMessage requests s !! matchId = None ↔ s !! matchId = None)
  ∧ (∀ m, s !! matchId = Some m →
       ∃ m', serveAll prismaMessage requests s !! matchId = Some m'
         ∧ listingId m' = listingId m ∧ farmerId m' = farmerId m
         ∧ buyerId m' = buyerId m ∧ expiresAt m' = expiresAt m
         ∧ createdAt m' = createdAt m
         ∧ (status m ≠ PENDING_ACCEPTANCE → status m' ≠ PENDING_ACCEPTANCE)
         ∧ (status m = EXPIRED → status m' = EXPIRED ∨ status m' = REJECTED)).
Proof.
  pose proof (serveAll_match_step requests s matchId) as Hstep.
  destruct (s !! matchId) as [m|].
  - destruct Hstep as (m' & Hm' & Hl & Hf & Hb & He & Hc & _ & Hback & Hexp & _).
    split; [by rewrite Hm'|]. intros ? [= <-]. exists m'. by split_and!.
  - split; [done|]. by intros m.
Qed.

(** X15. If the timestamps and the order reference of a match agree with
    its status (acceptedAt and orderId set exactly when ACCEPTED,
    rejectedAt set exactly when REJECTED, a rejection reason only when
    REJECTED), they still do after any sequence of requests. *)
Theorem match_bookkeeping_is_kept requests (s : Matches) matchId m :
  s !! matchId = Some m →
  bookkept m →
  ∃ m', serveAll prismaMessage requests s !! matchId = Some m' ∧ bookkept m'.
Proof.
  intros Hm Hbook. pose proof (serveAll_match_step requests s matchId) as Hstep.
  rewrite Hm in Hstep.
  destruct Hstep as (m' & Hm' & _ & _ & _ & _ & _ & _ & _ & _ & Hkeep). eauto.
Qed.

(** X16. What the AcceptMatch call answers: NOT_FOUND for an unknown match,
    FAILED_PRECONDITION for a pending match past its deadline (which is
    then stored as EXPIRED), INTERNAL for a match that is no longer pending,
    each with the message of the service and, when the match is accepted,
    the order id that was stored for it. *)
Theorem AcceptMatch_answers now match_id is_partial accepted_quantity (s : Matches) :
  (s !! match_id = None →
     AcceptMatch prismaMessage now match_id is_partial accepted_quantity s
     = (Err {| code := NOT_FOUND; message := "Match not found" |}, s))
  ∧ (∀ m, s !! match_id = Some m → status m ≠ PENDING_ACCEPTANCE →
       AcceptMatch prismaMessage now match_id is_partial accepted_quantity s
       = (Err {| code := INTERNAL;
                 message := "Match is no longer pending acceptance" |}, s))
  ∧ (∀ m, s !! match_id = Some m → status m = PENDING_ACCEPTANCE →
       expiresAt m < now →
       ∃ s' m',
         AcceptMatch prismaMessage now match_id is_partial accepted_quantity s
         = (Err {| code := FAILED_PRECONDITION; message := "Match has expired" |}, s')
         ∧ s' !! match_id = Some m' ∧ status m' = EXPIRED)
  ∧ (∀ m, s !! match_id = Some m → status m = PENDING_ACCEPTANCE →
       now ≤ expiresAt m →
       ∃ s' m' order,
         AcceptMatch prismaMessage now match_id is_partial accepted_quantity s
         = (Ok {| success := true; order_id := Some order;
                  accept_message := "Match accepted successfully" |}, s')
         ∧ s' !! match_id = Some m' ∧ status m' = ACCEPTED
         ∧ orderId m' = Some order ∧ order ≠ "").
Proof.
  unfold AcceptMatch. rewrite acceptMatch_unfold. split_and!.
  - by intros ->.
  - intros m -> Hst. simpl. by rewrite bool_decide_eq_false_2.
  - intros m -> Hst Hexp. simpl. rewrite bool_decide_eq_true_2 by done. simpl.
    rewrite (proj2 (Z.gtb_gt _ _)) by lia.
    eexists _, _. split; [reflexivity|]. by rewrite lookup_insert_eq.
  - intros m -> Hst Hexp. simpl. rewrite bool_decide_eq_true_2 by done. simpl.
    destruct (now >? expiresAt m) eqn:Hgt; [apply Z.gtb_gt in Hgt; lia|].
    eexists _, _, _. split; [reflexivity|]. by rewrite lookup_insert_eq.
Qed.

(** X17. What the RejectMatch call does: the reason it hands on is the
    free text when the code is OTHER and a text is given, and the code
    otherwise.  An unknown match is answered NOT_FOUND; an ACCEPTED or
    REJECTED match is answered INTERNAL with a message naming its status;
    a pending or expired match is stored as REJECTED, with that reason
    when it is not empty. *)
Theorem RejectMatch_answers now match_id reason_code other_reason_text (s : Matches) :
  (∀ text, text ≠ "" → rejectReason "OTHER" (Some text) = text)
  ∧ (reason_code ≠ "OTHER" ∨ truthy other_reason_text = false →
       rejectReason reason_code other_reason_text = reason_code)
  ∧ (s !! match_id = None →
       RejectMatch prismaMessage now match_id reason_code other_reason_text s
       = (Err {| code := NOT_FOUND; message := "Match not found" |}, s))
  ∧ (∀ m, s !! match_id = Some m → status m = ACCEPTED ∨ status m = REJECTED →
       RejectMatch prismaMessage now match_id reason_code other_reason_text s
       = (Err {| code := INTERNAL;
                 message := "Match is " +:+ statusName (status m)
                            +:+ " and cannot be rejected" |}, s))
  ∧ (∀ m, s !! match_id = Some m →
       status m = PENDING_ACCEPTANCE ∨ status m = EXPIRED →
       ∃ s' m',
         RejectMatch prismaMessage now match_id reason_code other_reason_text s
         = (Ok true, s')
         ∧ s' !! match_id = Some m' ∧ status m' = REJECTED
         ∧ rejectedAt m' = Some now
         ∧ (rejectReason reason_code other_reason_text ≠ "" →
              rejectionReason m'
              = Some (rejectReason reason_code other_reason_text))).
Proof.
  split_and!.
  - intros text Hne. unfold rejectReason. simpl.
    by destruct (String.eqb_spec text "").
  - intros Hcase. unfold rejectReason.
    destruct (String.eqb_spec reason_code "OTHER") as [->|_]; simpl; [|done].
    destruct Hcase as [? | ->]; done.
  - intros Hnone. unfold RejectMatch. by rewrite rejectMatch_unfold, Hnone.
  - intros m Hm Hst. unfold RejectMatch. rewrite rejectMatch_unfold, Hm.
    by destruct Hst as [-> | ->].
  - intros m Hm Hst. unfold RejectMatch. rewrite rejectMatch_unfold, Hm.
    assert (negb (bool_decide (status m = PENDING_ACCEPTANCE))
            && negb (bool_decide (status m = EXPIRED)) = false) as ->
      by (destruct Hst as [-> | ->]; done).
    simpl. eexists _, _. split; [reflexivity|].
    rewrite lookup_insert_eq. split; [done|]. simpl. split; [done|]. split; [done|].
    intros Hne. by destruct (String.eqb_spec (rejectReason reason_code other_reason_text) "").
Qed.

End MatchesUnderRequests.

(** ** The match queries *)

Section MatchQueries.
Import MatchTypes MatchRepository MatchService.

Lemma NoDup_rows (s : Matches) : NoDup (rows s).
Proof. eapply NoDup_fmap_1, NoDup_rows_id. Qed.

Lemma rows_id_inj (s : Matches) x y : x ∈ rows s → y ∈ rows s → id x = id y → x = y.
Proof.
  intros Hx%elem_of_rows Hy%elem_of_rows Hid. rewrite Hid in Hx.
  destruct x, y; simpl in *; congruence.
Qed.

(** X18. A sweep lowers the number of due matches by exactly the number it
    returns: the matches that were due and are still due after it are the
    ones beyond the first hundred.  So a backlog of [n] due matches is
    cleared by repeated sweeps, a hundred at a time. *)
Theorem expireMatches_progress now (s s' : Matches) count :
  expireMatches now s = (Ok count, s') →
  count = Z.of_nat (100 `min` length (expiredPending now s))
  ∧ (length (expiredPending now s') + Z.to_nat count
     = length (expiredPending now s))%nat
  ∧ expiredPending now s' ≡ₚ drop 100 (expiredPending now s).
Proof.
  intros Hrun. destruct (expireMatches_run now s) as (s0 & Hrun0 & Hin & Hout).
  rewrite Hrun0 in Hrun. injection Hrun as <- <-.
  set (due := expiredPending now s) in *.
  assert (Hperm : expiredPending now s0 ≡ₚ drop 100 due).
  { assert (NoDup due) as Hnd.
    { unfold due, expiredPending. apply NoDup_filter, NoDup_rows. }
    assert (NoDup (take 100 due ++ drop 100 due)) as Hsplit
      by by rewrite take_drop.
    apply NoDup_app in Hsplit as (_ & Hdisj & Hnd_drop).
    apply NoDup_Permutation; [apply NoDup_filter, NoDup_rows|done|].
    intros x. split.
    - intros Hx. apply elem_of_expiredPending in Hx as (Hx & Hst & Hexp).
      destruct (decide (id x ∈ id <$> take 100 due)) as [Hk|Hk].
      + rewrite (Hin _ Hk) in Hx.
        destruct (s !! id x) as [r|]; [|done]. injection Hx as Hx.
        rewrite <- Hx in Hst. done.
      + rewrite (Hout _ Hk) in Hx.
        assert (x ∈ due) as Hdue by (apply elem_of_expiredPending; eauto).
        rewrite <- (take_drop 100 due) in Hdue.
        apply elem_of_app in Hdue as [Htake|Hdrop]; [|done].
        destruct Hk. by apply list_elem_of_fmap_2.
    - intros Hx.
      assert (x ∈ due) as Hdue by by eapply subseteq_drop.
      assert (id x ∉ id <$> take 100 due) as Hk.
      { intros (y & Hid & Hy)%list_elem_of_fmap.
        assert (x = y) as <-.
        { apply (rows_id_inj s); [| |done].
          - unfold due, expiredPending in Hdue.
            by apply list_elem_of_filter in Hdue as [_ ?].
          - apply subseteq_take in Hy. unfold due, expiredPending in Hy.
            by apply list_elem_of_filter in Hy as [_ ?]. }
        by apply (Hdisj x). }
      apply elem_of_expiredPending in Hdue as (Hx' & Hst & Hexp).
      apply elem_of_expiredPending. by rewrite (Hout _ Hk). }
  split; [by rewrite length_take|]. split; [|done].
  rewrite Hperm, length_drop, Nat2Z.id, length_take. lia.
Qed.

Local Instance expiresAt_asc_total : Total expiresAt_asc.
Proof. intros a b. unfold expiresAt_asc. lia. Qed.

Local Instance expiresAt_asc_trans : Transitive expiresAt_asc.
Proof. intros a b c. unfold expiresAt_asc. lia. Qed.

(** X19. The listing of pending matches of a farmer never changes the
    table and returns at most [limit] matches, all stored, of that farmer,
    PENDING_ACCEPTANCE and expiring after [now], no match twice, in
    ascending order of [expiresAt].  Read from offset 0 with a limit that
    is not exceeded, it returns every such match.  The service asks for
    10 matches from offset 0. *)
Theorem findPendingByFarmerId_listing now farmer limit offset (s s' : Matches) listed :
  findPendingByFarmerId (E:=MatchError) now farmer limit offset s = (Ok listed, s') →
  s' = s
  ∧ (length listed ≤ limit)%nat
  ∧ (∀ m, m ∈ listed →
       s !! id m = Some (row m) ∧ farmerId (row m) = farmer
       ∧ status (row m) = PENDING_ACCEPTANCE ∧ now < expiresAt (row m))
  ∧ NoDup (id <$> listed)
  ∧ StronglySorted expiresAt_asc listed
  ∧ (offset = 0%nat →
     (length (filter (pendingWhere now farmer) (rows s)) ≤ limit)%nat →
     ∀ k r, s !! k = Some r → farmerId r = farmer →
            status r = PENDING_ACCEPTANCE → now < expiresAt r →
            {| id := k; row := r |} ∈ listed)
  ∧ getPendingMatches now farmer s
    = findPendingByFarmerId now farmer 10 0 s.
Proof.
  unfold findPendingByFarmerId. intros [= <- <-].
  set (found := filter (pendingWhere now farmer) (rows s)).
  set (sorted := merge_sort expiresAt_asc found).
  assert (Hsorted : StronglySorted expiresAt_asc sorted)
    by (apply StronglySorted_merge_sort; apply _).
  assert (Hperm : sorted ≡ₚ found) by apply merge_sort_Permutation.
  assert (Hsub : take limit (drop offset sorted) `sublist_of` sorted).
  { etrans; [apply sublist_take|apply sublist_drop]. }
  split; [done|]. split; [rewrite length_take; lia|]. split_and!.
  - intros m Hm. apply subseteq_take, subseteq_drop in Hm.
    unfold sorted in Hm. rewrite merge_sort_Permutation in Hm.
    apply list_elem_of_filter in Hm as [(Hf & Hst & Hexp) Hm].
    apply elem_of_rows in Hm. done.
  - eapply sublist_NoDup; [|by apply fmap_sublist].
    rewrite Hperm. eapply sublist_NoDup; [apply NoDup_rows_id|].
    apply fmap_sublist, sublist_filter.
  - rewrite <- (take_drop offset sorted) in Hsorted.
    apply StronglySorted_app_1_r in Hsorted.
    rewrite <- (take_drop limit (drop offset sorted)) in Hsorted.
    by apply StronglySorted_app_1_l in Hsorted.
  - intros -> Hfits k r Hr Hf Hst Hexp. rewrite drop_0.
    rewrite take_ge by (rewrite Hperm; exact Hfits).
    unfold sorted. rewrite merge_sort_Permutation.
    apply list_elem_of_filter. split; [done|]. by apply elem_of_rows.
  - done.
Qed.

End MatchQueries.

(** ** Ratings *)

Section Ratings.
Import RatingRepository RatingVocabulary.

Lemma countOf_cons (P : RatingRow → Prop) `{∀ r, Decision (P r)} r ratings :
  countOf P (r :: ratings) = (if decide (P r) then 1 else 0) + countOf P ratings.
Proof.
  unfold countOf. rewrite filter_cons. destruct (decide (P r)); simpl length; lia.
Qed.

Lemma countOf_nil (P : RatingRow → Prop) `{∀ r, Decision (P r)} : countOf P [] = 0.
Proof. reflexivity. Qed.

Lemma foldl_countStar ratings : ∀ counts,
  let result := foldl countStar counts ratings in
  star5 result = star5 counts + countOf (λ r, rating r = 5) ratings
  ∧ star4 result = star4 counts + countOf (λ r, rating r = 4) ratings
  ∧ star3 result = star3 counts + countOf (λ r, rating r = 3) ratings
  ∧ star2 result = star2 counts + countOf (λ r, rating r = 2) ratings
  ∧ star1 result = star1 counts + countOf (λ r, rating r = 1) ratings.
Proof.
  induction ratings as [|r ratings IH]; intros counts; simpl.
  - rewrite !countOf_nil. split_and!; lia.
  - destruct (IH (countStar counts r)) as (H5 & H4 & H3 & H2 & H1).
    rewrite H5, H4, H3, H2, H1, !countOf_cons. unfold countStar.
    destruct (Z.eqb_spec (rating r) 5), (Z.eqb_spec (rating r) 4),
      (Z.eqb_spec (rating r) 3), (Z.eqb_spec (rating r) 2),
      (Z.eqb_spec (rating r) 1); simpl; repeat case_decide; split_and!; lia.
Qed.

(** X20. The star breakdown counts, for each of 1 to 5 stars, the ratings
    with that many stars.  A rating outside 1 to 5 is counted nowhere, so
    the five counts add up to the number of ratings within 1 to 5, which
    is the number of all ratings only when every rating is in that range. *)
Theorem calculateStarBreakdown_counts (ratings : list RatingRow) :
  let breakdown := calculateStarBreakdown ratings in
  star5 breakdown = countOf (λ r, rating r = 5) ratings
  ∧ star4 breakdown = countOf (λ r, rating r = 4) ratings
  ∧ star3 breakdown = countOf (λ r, rating r = 3) ratings
  ∧ star2 breakdown = countOf (λ r, rating r = 2) ratings
  ∧ star1 breakdown = countOf (λ r, rating r = 1) ratings
  ∧ star5 breakdown + star4 breakdown + star3 breakdown + star2 breakdown
      + star1 breakdown
    = countOf (λ r, 1 ≤ rating r ≤ 5) ratings
  ∧ star5 breakdown + star4 breakdown + star3 breakdown + star2 breakdown
      + star1 breakdown
    ≤ Z.of_nat (length ratings)
  ∧ (Forall (λ r, 1 ≤ rating r ≤ 5) ratings →
       star5 breakdown + star4 breakdown + star3 breakdown + star2 breakdown
         + star1 breakdown
       = Z.of_nat (length ratings)).
Proof.
  intros breakdown. unfold breakdown, calculateStarBreakdown.
  destruct (foldl_countStar ratings
              {| star5 := 0; star4 := 0; star3 := 0; star2 := 0; star1 := 0 |})
    as (H5 & H4 & H3 & H2 & H1).
  simpl in *.
  assert (Hsum : countOf (λ r, rating r = 5) ratings
                 + countOf (λ r, rating r = 4) ratings
                 + countOf (λ r, rating r = 3) ratings
                 + countOf (λ r, rating r = 2) ratings
                 + countOf (λ r, rating r = 1) ratings
                 = countOf (λ r, 1 ≤ rating r ≤ 5) ratings).
  { clear. induction ratings as [|r ratings IH]; [done|].
    rewrite !countOf_cons, <- IH. repeat case_decide; lia. }
  assert (Hle : countOf (λ r, 1 ≤ rating r ≤ 5) ratings ≤ Z.of_nat (length ratings)).
  { unfold countOf. pose proof (length_filter (λ r, 1 ≤ rating r ≤ 5) ratings). lia. }
  split_and!; try lia.
  intros Hall.
  assert (countOf (λ r, 1 ≤ rating r ≤ 5) ratings = Z.of_nat (length ratings)) as Heq.
  { unfold countOf. f_equal. clear -Hall.
    induction Hall as [|r ratings Hr _ IH]; [done|].
    rewrite filter_cons_True by done. simpl. by rewrite IH. }
  lia.
Qed.

Lemma countOf_app (P : RatingRow → Prop) `{∀ r, Decision (P r)} l1 l2 :
  countOf P (l1 ++ l2) = countOf P l1 + countOf P l2.
Proof. unfold countOf. rewrite filter_app, length_app. lia. Qed.

Lemma countOf_nonneg (P : RatingRow → Prop) `{∀ r, Decision (P r)} l : 0 ≤ countOf P l.
Proof. unfold countOf. lia. Qed.

Lemma countOf_pos (P : RatingRow → Prop) `{∀ r, Decision (P r)} l :
  0 < countOf P l ↔ ∃ r, r ∈ l ∧ P r.
Proof.
  unfold countOf. split.
  - intros Hpos. destruct (filter P l) as [|r rest] eqn:Hf; [simpl in Hpos; lia|].
    exists r. assert (r ∈ filter P l) as Hr by (rewrite Hf; left).
    apply list_elem_of_filter in Hr. tauto.
  - intros (r & Hr & HP).
    assert (r ∈ filter P l) as Hin by by apply list_elem_of_filter.
    destruct (filter P l); [by apply elem_of_nil in Hin|simpl; lia].
Qed.

Lemma map_get_set m k v k' :
  map_get (map_set m k v) k' = if decide (k = k') then Some v else map_get m k'.
Proof.
  induction m as [|[k0 v0] m IH]; simpl.
  - destruct (String.eqb_spec k k'), (decide (k = k')); done.
  - destruct (String.eqb_spec k0 k) as [->|Hk0]; simpl.
    + destruct (String.eqb_spec k k'), (decide (k = k')); done.
    + destruct (String.eqb_spec k0 k') as [->|Hk0'].
      * by rewrite decide_False by done.
      * exact IH.
Qed.

Lemma map_set_keys m k v :
  ∀ k', k' ∈ (map_set m k v).*1 ↔ k' = k ∨ k' ∈ m.*1.
Proof.
  induction m as [|[k0 v0] m IH]; intros k'; simpl.
  - rewrite list_elem_of_singleton, elem_of_nil. tauto.
  - destruct (String.eqb_spec k0 k) as [->|Hk0]; simpl.
    + rewrite !elem_of_cons. tauto.
    + rewrite !elem_of_cons, IH. tauto.
Qed.

Lemma map_set_NoDup m k v : NoDup m.*1 → NoDup (map_set m k v).*1.
Proof.
  induction m as [|[k0 v0] m IH]; simpl; intros Hnd.
  - apply NoDup_singleton.
  - apply NoDup_cons in Hnd as [Hk0 Hnd].
    destruct (String.eqb_spec k0 k) as [->|Hne]; simpl.
    + by apply NoDup_cons.
    + apply NoDup_cons. split; [|by apply IH].
      rewrite map_set_keys. intros [?|?]; done.
Qed.

Lemma elem_of_map_get m k v : NoDup m.*1 → (k, v) ∈ m ↔ map_get m k = Some v.
Proof.
  induction m as [|[k0 v0] m IH]; simpl; intros Hnd.
  - rewrite elem_of_nil. split; [done|discriminate].
  - apply NoDup_cons in Hnd as [Hk0 Hnd]. rewrite elem_of_cons.
    destruct (String.eqb_spec k0 k) as [->|Hne].
    + split.
      * intros [[= <-]|Hin]; [done|].
        destruct Hk0. by apply (list_elem_of_fmap_2' fst _ (k, v)).
      * intros [= <-]. by left.
    + rewrite <- IH by done. split.
      * intros [[= <- <-]|Hin]; done.
      * by right.
Qed.

(** The [Map] of [findBestCropType] holds, for each crop with a five-star
    rating, the number of its five-star ratings. *)
Lemma fiveStarCounts_spec ratings :
  NoDup (fiveStarCounts ratings).*1
  ∧ ∀ crop, map_get (fiveStarCounts ratings) crop
            = if decide (0 < fiveStars crop ratings)
              then Some (fiveStars crop ratings) else None.
Proof.
  induction ratings as [|r ratings [IHnd IHget]] using rev_ind.
  - split; [apply NoDup_nil_2|]. intros crop. by rewrite decide_False by done.
  - unfold fiveStarCounts in *. rewrite foldl_app. simpl.
    set (m := foldl _ [] ratings) in *.
    assert (Hstars : ∀ crop, fiveStars crop (ratings ++ [r])
              = fiveStars crop ratings
                + if decide (rating r = 5 ∧ cropType r = crop) then 1 else 0).
    { intros crop. unfold fiveStars. rewrite countOf_app, countOf_cons, countOf_nil. lia. }
    destruct (Z.eqb_spec (rating r) 5) as [H5|H5].
    + split; [by apply map_set_NoDup|]. intros crop.
      rewrite map_get_set, Hstars.
      pose proof (countOf_nonneg (λ r, rating r = 5 ∧ cropType r = crop) ratings) as Hge.
      fold (fiveStars crop ratings) in Hge.
      destruct (decide (cropType r = crop)) as [<-|Hne].
      * rewrite IHget.
        rewrite (decide_True (P := rating r = 5 ∧ cropType r = cropType r)) by done.
        destruct (decide (0 < fiveStars (cropType r) ratings)); simpl.
        -- by rewrite decide_True by lia.
        -- rewrite decide_True by lia. f_equal. lia.
      * rewrite IHget, (decide_False (P := rating r = 5 ∧ cropType r = crop)) by tauto.
        rewrite Z.add_0_r. done.
    + split; [done|]. intros crop. rewrite IHget, Hstars.
      rewrite (decide_False (P := rating r = 5 ∧ cropType r = crop)) by tauto.
      by rewrite Z.add_0_r.
Qed.

(** The loop that keeps the first entry with the greatest count. *)
Lemma best_entry_spec (entries : list (string * Z)) : ∀ best,
  let result := foldl (λ (best : string * Z) (entry : string * Z),
                         if entry.2 >? best.2 then entry else best)
                      best entries in
  (result = best ∧ ∀ e, e ∈ entries → e.2 ≤ best.2)
  ∨ (result ∈ entries ∧ best.2 < result.2 ∧ ∀ e, e ∈ entries → e.2 ≤ result.2).
Proof.
  induction entries as [|e entries IH]; intros best; simpl.
  - left. split; [done|]. intros e He. by apply elem_of_nil in He.
  - destruct (Z.gtb_spec e.2 best.2) as [Hgt|Hle].
    + right. destruct (IH e) as [[Hres Hall]|(Hin & Hlt & Hall)].
      * rewrite Hres. split; [left|]. split; [lia|].
        intros e' [->|He']%elem_of_cons; [lia|by apply Hall].
      * split; [by right|]. split; [lia|].
        intros e' [->|He']%elem_of_cons; [lia|by apply Hall].
    + destruct (IH best) as [[Hres Hall]|(Hin & Hlt & Hall)].
      * left. split; [done|].
        intros e' [->|He']%elem_of_cons; [lia|by apply Hall].
      * right. split; [by right|]. split; [done|].
        intros e' [->|He']%elem_of_cons; [lia|by apply Hall].
Qed.

(** X21. The best crop type is absent exactly when no rating has five
    stars; otherwise it is a crop with at least one five-star rating and
    no crop has more five-star ratings than it. *)
Theorem findBestCropType_most_five_stars (ratings : list RatingRow) :
  (findBestCropType ratings = None ↔ ∀ r, r ∈ ratings → rating r ≠ 5)
  ∧ (∀ crop, findBestCropType ratings = Some crop →
       0 < fiveStars crop ratings
       ∧ ∀ other, fiveStars other ratings ≤ fiveStars crop ratings).
Proof.
  destruct (fiveStarCounts_spec ratings) as [Hnd Hget].
  unfold findBestCropType.
  set (m := fiveStarCounts ratings) in *.
  assert (Hentry : ∀ e, e ∈ m → 0 < e.2 ∧ e.2 = fiveStars e.1 ratings).
  { intros [c n] He. apply elem_of_map_get in He; [|done].
    rewrite Hget in He. simpl. destruct (decide _); [|done].
    injection He as <-. done. }
  destruct m as [|e0 m'] eqn:Hm.
  - split; [|discriminate]. split; [|done]. intros _ r Hr H5.
    specialize (Hget (cropType r)). simpl in Hget.
    rewrite decide_True in Hget; [done|].
    apply countOf_pos. by exists r.
  - change ((length (e0 :: m') =? 0)%nat) with false. cbv iota.
    rewrite <- Hm in *. split.
    + split; [discriminate|]. intros Hno.
      destruct (Hentry e0) as [Hpos Heq]; [rewrite Hm; left|].
      rewrite Heq in Hpos. apply countOf_pos in Hpos as (r & Hr & H5 & _).
      by destruct (Hno r Hr).
    + intros crop [= <-].
      destruct (best_entry_spec m (EmptyString, 0)) as [[_ Hall]|(Hin & Hlt & Hall)].
      { destruct (Hentry e0) as [Hpos _]; [rewrite Hm; left|].
        specialize (Hall e0). simpl in Hall.
        assert (e0 ∈ m) by (rewrite Hm; left). specialize (Hall H). lia. }
      destruct (Hentry _ Hin) as [Hpos Heq]. rewrite <- Heq.
      split; [done|]. intros other.
      destruct (decide (0 < fiveStars other ratings)) as [Ho|Ho]; [|lia].
      specialize (Hget other). rewrite decide_True in Hget by done.
      apply elem_of_map_get in Hget; [|done].
      by apply (Hall (other, fiveStars other ratings)).
Qed.

(** The unseen count with one row taken apart. *)
Lemma getUnseenCount_row {E} farmer (s : Ratings) k r :
  s !! k = Some r →
  RatingRepository.getUnseenCount (E:=E) farmer s
  = (Ok ((if unseenOf farmer r then 1 else 0)
         + Z.of_nat (length (filter (λ kr, unseenOf farmer kr.2 = true)
                               (map_to_list (delete k s))))), s).
Proof.
  intros Hr. unfold RatingRepository.getUnseenCount. do 2 f_equal.
  rewrite <- (map_to_list_delete s k r Hr), filter_cons. simpl.
  destruct (unseenOf farmer r); [rewrite decide_True by done|rewrite decide_False by done];
    simpl length; lia.
Qed.

(** X22. Marking a rating as seen with a farmer id that is not positive is
    refused.  Otherwise the call answers true in every case: when the
    rating exists, belongs to the farmer and was unseen, it is stored as
    seen at [now] and the unseen count of the farmer goes down by one;
    in any other case (unknown rating, rating of another farmer, rating
    already seen) nothing is changed.  No other rating and no other
    farmer's count is touched, and marking again changes nothing. *)
Theorem markSeen_marks_once now ratingId farmer (s : Ratings) :
  (farmer ≤ 0 →
     RatingService.markSeen now ratingId farmer s
     = (Err RatingService.INVALID_FARMER_ID, s))
  ∧ (0 < farmer →
     ∃ s',
       RatingService.markSeen now ratingId farmer s = (Ok true, s')
       ∧ (∀ r, s !! ratingId = Some r → farmerId r = farmer → seenByFarmer r = false →
            (∃ r', s' !! ratingId = Some r'
                   ∧ seenByFarmer r' = true ∧ seenAt r' = Some now
                   ∧ farmerId r' = farmer ∧ rating r' = rating r
                   ∧ cropType r' = cropType r)
            ∧ ∃ unseen,
                RatingService.getUnseenCount farmer s = (Ok unseen, s)
                ∧ RatingService.getUnseenCount farmer s' = (Ok (unseen - 1), s'))
       ∧ ((∀ r, s !! ratingId = Some r →
                farmerId r ≠ farmer ∨ seenByFarmer r = true) → s' = s)
       ∧ (∀ other, other ≠ ratingId → s' !! other = s !! other)
       ∧ (∀ other unseen, other ≠ farmer →
            RatingService.getUnseenCount other s = (Ok unseen, s) →
            RatingService.getUnseenCount other s' = (Ok unseen, s'))
       ∧ (∀ now2, RatingService.markSeen now2 ratingId farmer s' = (Ok true, s'))).
Proof.
  assert (Hrun : ∀ now (s : Ratings), 0 < farmer →
            RatingService.markSeen now ratingId farmer s
            = RatingRepository.markSeen now ratingId farmer s).
  { intros now0 s0 Hpos. unfold RatingService.markSeen, RatingService.validFarmerId.
    unfold bind at 1, lift.
    rewrite (proj2 (Z.eqb_neq _ _)), (proj2 (Z.leb_gt _ _)) by lia. simpl.
    apply bind_ret_r. }
  split.
  { intros Hle. unfold RatingService.markSeen, RatingService.validFarmerId.
    unfold bind at 1, lift. by rewrite (proj2 (Z.leb_le _ _)), orb_true_r by lia. }
  intros Hpos. rewrite Hrun by done. unfold RatingRepository.markSeen at 1.
  destruct (s !! ratingId) as [r|] eqn:Hr.
  2: { exists s. split; [done|]. split; [done|]. split; [done|]. split; [done|].
       split; [done|]. intros now2. rewrite Hrun by done.
       unfold RatingRepository.markSeen. by rewrite Hr. }
  destruct (unseenOf farmer r) eqn:Hunseen.
  2: { exists s. split; [done|]. split.
       { intros ? [= <-] Hf Hs. unfold unseenOf in Hunseen.
         by rewrite bool_decide_eq_true_2, Hs in Hunseen. }
       split; [done|]. split; [done|]. split; [done|]. intros now2.
       rewrite Hrun by done. unfold RatingRepository.markSeen. by rewrite Hr, Hunseen. }
  unfold unseenOf in Hunseen. apply andb_true_iff in Hunseen as [Hf Hs].
  apply bool_decide_eq_true in Hf. apply negb_true_iff in Hs.
  set (r' := {| farmerId := farmerId r; cropType := cropType r; rating := rating r;
                seenByFarmer := true; seenAt := Some now |}).
  exists (<[ratingId := r']> s). split; [done|].
  assert (Hr' : <[ratingId := r']> s !! ratingId = Some r') by apply lookup_insert_eq.
  split_and!.
  - intros ? [= <-] _ _. split; [by exists r'|].
    unfold RatingService.getUnseenCount.
    rewrite (getUnseenCount_row farmer s ratingId r Hr).
    rewrite (getUnseenCount_row farmer _ ratingId r' Hr'), delete_insert_eq.
    eexists. split; [reflexivity|]. do 2 f_equal. unfold unseenOf. simpl.
    rewrite bool_decide_eq_true_2, Hs by done. simpl. lia.
  - intros Hnot. destruct (Hnot r eq_refl) as [?|Hseen]; [done|congruence].
  - intros other Hne. by rewrite lookup_insert_ne.
  - intros other unseen Hne. unfold RatingService.getUnseenCount.
    rewrite (getUnseenCount_row other s ratingId r Hr).
    rewrite (getUnseenCount_row other _ ratingId r' Hr'), delete_insert_eq.
    unfold unseenOf. simpl. rewrite !bool_decide_eq_false_2 by congruence. simpl.
    by intros [= <-].
  - intros now2. rewrite Hrun by done. unfold RatingRepository.markSeen.
    rewrite Hr'. unfold unseenOf. simpl. by rewrite andb_false_r.
Qed.

End Ratings.

(** * The further properties on the sample data *)

Section MoreOrderScenarios.
Import Types OrderStatusRepository OrderStatusService OrderRequests.
Import TransactionVocabulary Examples Scenarios.

(** A delay of an unknown order is refused; a delay of ORD-1 is stored
    with its reason and leaves the order at LISTED. *)
Lemma updateDelay_outcomes_witness :
  OrderStatusService.updateDelay no_parse (delayOf "ORD-404") oneOrder
  = (Err (StatusError ORDER_NOT_FOUND), oneOrder)
  ∧ ∃ s' order',
      OrderStatusService.updateDelay no_parse (delayOf "ORD-1") oneOrder = (Ok tt, s')
      ∧ s' !! "ORD-1" = Some order'
      ∧ delayMinutes order' = Some 30
      ∧ delayReason order' = Some "rain"
      ∧ trackingStatus order' = LISTED.
Proof.
  split.
  - apply (updateDelay_outcomes no_parse (delayOf "ORD-404") oneOrder). reflexivity.
  - destruct (updateDelay_outcomes no_parse (delayOf "ORD-1") oneOrder) as [_ Hfound].
    destruct (Hfound ORD_1 eq_refl)
      as (s' & order' & Hrun & Hs' & Hminutes & Hreason & _ & Hstatus & _).
    exists s', order'. split_and!; [exact Hrun|exact Hs'|exact Hminutes|exact Hreason|exact Hstatus].
Defined.

(** After the day of requests ORD-1 is still an order of farmer 123 and
    its status is at LISTED or later. *)
Lemma orders_only_move_forward_witness :
  oneOrder !! "ORD-1" = Some ORD_1
  ∧ ∃ order',
      serveAll no_parse dayOfRequests oneOrder !! "ORD-1" = Some order'
      ∧ farmerId order' = 123
      ∧ 1 ≤ getStatusStep (trackingStatus order').
Proof.
  split; [reflexivity|].
  destruct (orders_only_move_forward no_parse dayOfRequests oneOrder "ORD-1") as [_ Hkept].
  destruct (Hkept ORD_1 eq_refl) as (order' & Horder' & Hfarmer & _ & _ & _ & Hstep).
  exists order'. split_and!; [exact Horder'|exact Hfarmer|exact Hstep].
Defined.

(** The history of ORD-1, the LISTED event alone, is consistent, and so is
    its history after the day of requests. *)
Lemma timeline_stays_consistent_witness :
  timelineConsistent ORD_1
  ∧ ∃ order',
      serveAll no_parse dayOfRequests oneOrder !! "ORD-1" = Some order'
      ∧ timelineConsistent order'.
Proof.
  assert (Hconsistent : timelineConsistent ORD_1).
  { exists [listedEvent]. split_and!.
    - reflexivity.
    - reflexivity.
    - apply Forall_cons; split; [reflexivity|by apply Forall_nil].
    - intros i e e' _ He'. destruct i; discriminate He'.
    - intros i e He. destruct i; [|discriminate He].
      injection He as <-. split; reflexivity. }
  split; [exact Hconsistent|].
  exact (timeline_stays_consistent no_parse dayOfRequests oneOrder "ORD-1" ORD_1
           eq_refl Hconsistent).
Defined.

(** The four outcomes of reading an order, on the sample orders. *)
Lemma getOrderDetails_outcomes_witness :
  getOrderDetails no_parse "ORD-1" 0 orders = (Err UNAUTHORIZED, orders)
  ∧ getOrderDetails no_parse "ORD-404" 123 orders = (Err ORDER_NOT_FOUND, orders)
  ∧ getOrderDetails no_parse "ORD-1" 5 orders = (Err UNAUTHORIZED, orders)
  ∧ getOrderDetails no_parse "ORD-1" 123 orders
    = (Ok (toOrderWithTracking no_parse "ORD-1" ORD_1), orders).
Proof.
  split_and!.
  - apply (getOrderDetails_outcomes no_parse "ORD-1" 0 orders). lia.
  - apply (getOrderDetails_outcomes no_parse "ORD-404" 123 orders); [lia|reflexivity].
  - apply (getOrderDetails_outcomes no_parse "ORD-1" 5 orders) with (order := ORD_1);
      [lia|reflexivity|discriminate].
  - apply (getOrderDetails_outcomes no_parse "ORD-1" 123 orders);
      [lia|reflexivity|reflexivity].
Defined.

(** Farmer 123 has ORD-1 at LISTED and ORD-2 paid: the badge count is the
    total of the active list (second page, five a page), and farmer id 0
    is refused. *)
Lemma getActiveOrderCount_is_active_total_witness :
  getActiveOrderCount 0 orders = (Err UNAUTHORIZED, orders)
  ∧ ∃ active,
      getActiveOrderCount 123 orders = (Ok active, orders)
      ∧ getOrders_total {| gof_farmerId := 123; gof_status := Some active_orders;
                           gof_page := Some 2; gof_limit := Some 5 |} orders
        = (Ok active, orders).
Proof.
  split.
  - apply (getActiveOrderCount_is_active_total 0 (Some 2) (Some 5) orders). lia.
  - destruct (getActiveOrderCount_is_active_total 123 (Some 2) (Some 5) orders)
      as [_ Hvalid].
    destruct Hvalid as (active & Hbadge & Hlist & _); [lia|].
    exists active. split; [exact Hbadge|exact Hlist].
Defined.

(** ORD-1 is at LISTED, number 1: the transition to DELIVERED, number 6,
    fails and is answered FAILED_PRECONDITION. *)
Lemma transition_reply_codes_witness :
  OrderStatusService.updateStatus no_parse 1000 (transition DELIVERED) orders
  = (Err INVALID_TRANSITION, orders)
  ∧ OrderStatusHandlers.handleError INVALID_TRANSITION
    = OrderStatusHandlers.FAILED_PRECONDITION
  ∧ OrderStatusHandlers.PROTO_STATUS_MAP 6 = Some DELIVERED.
Proof.
  split; [reflexivity|].
  destruct (transition_reply_codes no_parse 1000 (transition DELIVERED) orders orders
              INVALID_TRANSITION eq_refl) as (Hnumbers & _ & _ & _ & Hcodes & _).
  split.
  - apply (Hcodes ORD_1 eq_refl). simpl. lia.
  - apply Hnumbers. reflexivity.
Defined.

(** The truck named in the transition of ORD-1 is the hauler the order
    shows afterwards. *)
Lemma hauler_round_trip_witness :
  OrderStatusService.updateStatus no_parse 1000 transitionWithHauler oneOrder
  = (Ok (toOrderWithTracking no_parse "ORD-1" ORD_1_withHauler),
     <["ORD-1" := ORD_1_withHauler]> oneOrder)
  ∧ ∃ order',
      (<["ORD-1" := ORD_1_withHauler]> oneOrder) !! "ORD-1" = Some order'
      ∧ haulerOf order' = Some truck.
Proof.
  split; [reflexivity|].
  destruct (hauler_round_trip no_parse 1000 transitionWithHauler oneOrder
              (<["ORD-1" := ORD_1_withHauler]> oneOrder)
              (toOrderWithTracking no_parse "ORD-1" ORD_1_withHauler) truck
              eq_refl eq_refl)
    as (current & order' & _ & Horder' & _ & Hshown & _).
  exists order'. split; [exact Horder'|].
  apply (Hshown ltac:(discriminate) "Truck" eq_refl ltac:(discriminate)).
  apply (bool_decide_unpack _). by vm_compute.
Defined.

(** ORD-2 is paid and ORD-1 is not: farmer 123 sees the details of ORD-2
    alone, and another farmer sees neither. *)
Lemma transaction_details_visibility_witness :
  TransactionService.getTransactionDetails no_parse 9000 "ORD-2" 0 orders
  = (Err TransactionService.INVALID_FARMER_ID, orders)
  ∧ TransactionService.getTransactionDetails no_parse 9000 "ORD-1" 123 orders
    = (Err TransactionService.TRANSACTION_NOT_FOUND, orders)
  ∧ TransactionService.getTransactionDetails no_parse 9000 "ORD-2" 5 orders
    = (Err TransactionService.TRANSACTION_NOT_FOUND, orders)
  ∧ ∃ details,
      TransactionService.getTransactionDetails no_parse 9000 "ORD-2" 123 orders
      = (Ok details, orders)
      ∧ TransactionService.canDownloadReceipt no_parse 9000 "ORD-2" 123 orders
        = (Ok (OrderStatusRepository.canDownloadReceipt details), orders)
      ∧ td_id details = "ORD-2".
Proof.
  split_and!.
  - apply (transaction_details_visibility no_parse 9000 "ORD-2" 0 orders). lia.
  - apply (transaction_details_visibility no_parse 9000 "ORD-1" 123 orders); [lia|].
    intros order Horder. injection Horder as <-.
    intros (_ & _ & [Hstatus | Hstatus]); discriminate Hstatus.
  - apply (transaction_details_visibility no_parse 9000 "ORD-2" 5 orders); [lia|].
    intros order Horder. injection Horder as <-.
    intros (Hfarmer & _). discriminate Hfarmer.
  - apply (transaction_details_visibility no_parse 9000 "ORD-2" 123 orders)
      with (order := ORD_2); [lia|reflexivity|].
    split_and!; [reflexivity|reflexivity|by left].
Defined.

(** A query from instant 100 to instant 200 keeps the upper date alone, so
    an order created at instant 50 satisfies its date condition. *)
Lemma getTransactionsWhere_conditions_witness :
  where_createdAt (getTransactionsWhere 9000 (queryOfFarmer (Some 100) (Some 200)))
  = Some (lte 200)
  ∧ dateTimeFilterHolds (lte 200) 50 = true.
Proof.
  destruct (getTransactionsWhere_conditions 9000 (queryOfFarmer (Some 100) (Some 200)))
    as (_ & _ & _ & _ & Hdates).
  destruct (Hdates 100 200 eq_refl eq_refl) as [Hwhere Hholds].
  split; [exact Hwhere|]. apply Hholds. lia.
Defined.

End MoreOrderScenarios.

Section ReceiptScenarios.
Import ReceiptService.


End ReceiptScenarios.

Section MoreMatchScenarios.
Import MatchTypes MatchRepository MatchService MatchHandlers Examples Scenarios.

(** The accepted sample match is the same row after the calls. *)
Lemma accepted_and_rejected_matches_are_final_witness :
  matches !! "m-accepted" = Some (matchRow ACCEPTED 1000)
  ∧ serveAll prismaNotFound matchCalls matches !! "m-accepted"
    = Some (matchRow ACCEPTED 1000).
Proof.
  split; [reflexivity|].
  apply (accepted_and_rejected_matches_are_final prismaNotFound matchCalls matches
           "m-accepted" (matchRow ACCEPTED 1000)); [reflexivity|by left].
Defined.

(** After the calls the pending sample match has its deadline and its
    farmer, and the expired one is EXPIRED or REJECTED. *)
Lemma matches_keep_their_terms_witness :
  (∃ m', serveAll prismaNotFound matchCalls matches !! "m-pending" = Some m'
         ∧ expiresAt m' = 1000 ∧ farmerId m' = 1001)
  ∧ (∃ m', serveAll prismaNotFound matchCalls matches !! "m-expired" = Some m'
           ∧ (status m' = EXPIRED ∨ status m' = REJECTED)).
Proof.
  split.
  - destruct (matches_keep_their_terms prismaNotFound matchCalls matches "m-pending")
      as [_ Hkept].
    destruct (Hkept (matchRow PENDING_ACCEPTANCE 1000) eq_refl)
      as (m' & Hm' & _ & Hfarmer & _ & Hdeadline & _).
    exists m'. split_and!; [exact Hm'|exact Hdeadline|exact Hfarmer].
  - destruct (matches_keep_their_terms prismaNotFound matchCalls matches "m-expired")
      as [_ Hkept].
    destruct (Hkept (matchRow EXPIRED 1000) eq_refl)
      as (m' & Hm' & _ & _ & _ & _ & _ & _ & Hexpired).
    exists m'. split; [exact Hm'|]. apply Hexpired. reflexivity.
Defined.

(** The pending sample match has no timestamp and no order; after the
    calls its timestamps still agree with its status. *)
Lemma match_bookkeeping_is_kept_witness :
  bookkept (matchRow PENDING_ACCEPTANCE 1000)
  ∧ ∃ m', serveAll prismaNotFound matchCalls matches !! "m-pending" = Some m'
          ∧ bookkept m'.
Proof.
  assert (Hkept : bookkept (matchRow PENDING_ACCEPTANCE 1000)).
  { split_and!.
    - split; [intros [x Hx]; discriminate Hx|discriminate].
    - split; [intros [x Hx]; discriminate Hx|discriminate].
    - split; [intros [x Hx]; discriminate Hx|discriminate].
    - intros [x Hx]. discriminate Hx. }
  split; [exact Hkept|].
  exact (match_bookkeeping_is_kept prismaNotFound matchCalls matches "m-pending"
           (matchRow PENDING_ACCEPTANCE 1000) eq_refl Hkept).
Defined.

(** The four answers of AcceptMatch, on the sample matches. *)
Lemma AcceptMatch_answers_witness :
  AcceptMatch prismaNotFound 2000 "m-unknown" false None matches
  = (Err {| code := NOT_FOUND; message := "Match not found" |}, matches)
  ∧ AcceptMatch prismaNotFound 2000 "m-accepted" false None matches
    = (Err {| code := INTERNAL;
              message := "Match is no longer pending acceptance" |}, matches)
  ∧ (∃ s' m',
       AcceptMatch prismaNotFound 2000 "m-pending" false None matches
       = (Err {| code := FAILED_PRECONDITION; message := "Match has expired" |}, s')
       ∧ s' !! "m-pending" = Some m' ∧ status m' = EXPIRED)
  ∧ (∃ s' m' order,
       AcceptMatch prismaNotFound 500 "m-pending" false None matches
       = (Ok {| success := true; order_id := Some order;
                accept_message := "Match accepted successfully" |}, s')
       ∧ s' !! "m-pending" = Some m' ∧ status m' = ACCEPTED
       ∧ orderId m' = Some order ∧ order ≠ "").
Proof.
  split_and!.
  - apply (AcceptMatch_answers prismaNotFound 2000 "m-unknown" false None matches).
    reflexivity.
  - apply (AcceptMatch_answers prismaNotFound 2000 "m-accepted" false None matches)
      with (m := matchRow ACCEPTED 1000); [reflexivity|discriminate].
  - apply (AcceptMatch_answers prismaNotFound 2000 "m-pending" false None matches)
      with (m := matchRow PENDING_ACCEPTANCE 1000); [reflexivity|reflexivity|reflexivity].
  - apply (AcceptMatch_answers prismaNotFound 500 "m-pending" false None matches)
      with (m := matchRow PENDING_ACCEPTANCE 1000); [reflexivity|reflexivity|discriminate].
Defined.

(** The expired sample match is rejected with the free text as its reason,
    and the accepted one cannot be rejected. *)
Lemma RejectMatch_answers_witness :
  RejectMatch prismaNotFound 2000 "m-accepted" "OTHER" (Some "sold at the market") matches
  = (Err {| code := INTERNAL;
            message := "Match is ACCEPTED and cannot be rejected" |}, matches)
  ∧ ∃ s' m',
      RejectMatch prismaNotFound 2000 "m-expired" "OTHER" (Some "sold at the market")
        matches = (Ok true, s')
      ∧ s' !! "m-expired" = Some m' ∧ status m' = REJECTED
      ∧ rejectionReason m' = Some "sold at the market".
Proof.
  split.
  - apply (RejectMatch_answers prismaNotFound 2000 "m-accepted" "OTHER"
             (Some "sold at the market") matches)
      with (m := matchRow ACCEPTED 1000); [reflexivity|by left].
  - destruct (RejectMatch_answers prismaNotFound 2000 "m-expired" "OTHER"
                (Some "sold at the market") matches) as (_ & _ & _ & _ & Hrejected).
    destruct (Hrejected (matchRow EXPIRED 1000) eq_refl)
      as (s' & m' & Hrun & Hm' & Hstatus & _ & Hreason); [by right|].
    exists s', m'. split_and!; [exact Hrun|exact Hm'|exact Hstatus|].
    apply Hreason. discriminate.
Defined.

(** Of 101 due matches the sweep takes 100 and leaves one due. *)
Lemma expireMatches_progress_witness :
  expireMatches 0 (dueMatches 101) = (Ok 100, (expireMatches 0 (dueMatches 101)).2)
  ∧ (length (expiredPending 0 (expireMatches 0 (dueMatches 101)).2) + 100
     = length (expiredPending 0 (dueMatches 101)))%nat.
Proof.
  split; [by vm_compute|].
  apply (expireMatches_progress 0 (dueMatches 101) (expireMatches 0 (dueMatches 101)).2 100).
  by vm_compute.
Defined.

(** Before its deadline the pending sample match is the one match listed
    for farmer 1001, and the service lists ten matches from the first. *)
Lemma findPendingByFarmerId_listing_witness :
  findPendingByFarmerId (E:=MatchError) 500 1001 10 0 matches
  = (Ok [{| id := "m-pending"; row := matchRow PENDING_ACCEPTANCE 1000 |}], matches)
  ∧ getPendingMatches 500 1001 matches
    = findPendingByFarmerId 500 1001 10 0 matches.
Proof.
  split; [by vm_compute|].
  apply (findPendingByFarmerId_listing 500 1001 10 0 matches matches
           [{| id := "m-pending"; row := matchRow PENDING_ACCEPTANCE 1000 |}]).
  by vm_compute.
Defined.

End MoreMatchScenarios.

Section RatingScenarios.
Import RatingRepository RatingVocabulary Scenarios.

(** The first four sample ratings have 1 to 5 stars each: the five counts
    add up to four. *)
Lemma calculateStarBreakdown_counts_witness :
  Forall (λ r, 1 ≤ rating r ≤ 5) (take 4 ratingList)
  ∧ star5 (calculateStarBreakdown (take 4 ratingList))
    + star4 (calculateStarBreakdown (take 4 ratingList))
    + star3 (calculateStarBreakdown (take 4 ratingList))
    + star2 (calculateStarBreakdown (take 4 ratingList))
    + star1 (calculateStarBreakdown (take 4 ratingList))
    = 4.
Proof.
  assert (Hrange : Forall (λ r, 1 ≤ rating r ≤ 5) (take 4 ratingList)).
  { apply (bool_decide_unpack _). by vm_compute. }
  split; [exact Hrange|].
  apply (calculateStarBreakdown_counts (take 4 ratingList)). exact Hrange.
Defined.

(** Tomatoes have two five-star ratings and onions one: tomatoes are the
    best crop. *)
Lemma findBestCropType_most_five_stars_witness :
  findBestCropType ratingList = Some "Tomato"
  ∧ 0 < fiveStars "Tomato" ratingList
  ∧ fiveStars "Onion" ratingList ≤ fiveStars "Tomato" ratingList.
Proof.
  split; [reflexivity|].
  destruct (findBestCropType_most_five_stars ratingList) as [_ Hbest].
  destruct (Hbest "Tomato" eq_refl) as [Hpositive Hmost].
  split; [exact Hpositive|apply Hmost].
Defined.

(** Farmer 7 marks the unseen rating r-2: it is stored as seen at instant
    900 and the unseen count goes down by one.  Farmer id 0 is refused. *)
Lemma markSeen_marks_once_witness :
  RatingService.markSeen 900 "r-2" 0 ratings
  = (Err RatingService.INVALID_FARMER_ID, ratings)
  ∧ ∃ s' r' unseen,
      RatingService.markSeen 900 "r-2" 7 ratings = (Ok true, s')
      ∧ s' !! "r-2" = Some r'
      ∧ seenByFarmer r' = true ∧ seenAt r' = Some 900
      ∧ RatingService.getUnseenCount 7 ratings = (Ok unseen, ratings)
      ∧ RatingService.getUnseenCount 7 s' = (Ok (unseen - 1), s').
Proof.
  split.
  - apply (markSeen_marks_once 900 "r-2" 0 ratings). lia.
  - destruct (markSeen_marks_once 900 "r-2" 7 ratings) as [_ Hvalid].
    destruct Hvalid as (s' & Hrun & Hmarked & _); [lia|].
    destruct (Hmarked (ratingOf "Tomato" 5 false) eq_refl eq_refl eq_refl)
      as ((r' & Hr' & Hseen & Hat & _) & unseen & Hbefore & Hafter).
    exists s', r', unseen.
    split_and!; [exact Hrun|exact Hr'|exact Hseen|exact Hat|exact Hbefore|exact Hafter].
Defined.

End RatingScenarios.
